(** * Job lifecycle: transition engine, job store, query layer and simulator

    A shallow embedding of [mm/db.py] and [mm/app.py].  Timestamps are
    integers counting microseconds (the resolution of Python's [datetime]);
    the two tables are lists of rows in rowid order; the SQLAlchemy session
    is a record holding the connection's view of the tables, the last
    committed tables and the attribute writes the unit of work has not
    flushed yet.  The wall clock and the random module are inputs. *)

From Stdlib Require Import ZArith List String Bool Lia Permutation Sorted.
Import ListNotations.
Local Open Scope Z_scope.

(** ** Data model *)

Definition datetime := Z.

(** [timedelta(seconds=n)] in microseconds. *)
Definition seconds (n : Z) : Z := n * 1000000.

(** [class JobStatus(enum.Enum)] *)
Inductive JobStatus : Set := PENDING | RUNNING | DONE | CANCELED.

Definition JobStatus_eqb (a b : JobStatus) : bool :=
  match a, b with
  | PENDING, PENDING | RUNNING, RUNNING | DONE, DONE | CANCELED, CANCELED => true
  | _, _ => false
  end.

(** [JobStatus.X.value] *)
Definition JobStatus_value (s : JobStatus) : string :=
  match s with
  | PENDING => "PENDING"
  | RUNNING => "RUNNING"
  | DONE => "DONE"
  | CANCELED => "CANCELED"
  end.

(** [class DbJob(Base)], table [app_jobs].  [message] is the only nullable
    column. *)
Module DbJob.
Record t : Set := mk {
  job_id : Z;
  created_at : datetime;
  next_attempt_at : datetime;
  status : JobStatus;
  status_at : datetime;
  message : option string
}.
End DbJob.

(** [class DbJobHistory(Base)], table [app_job_histories]. *)
Module DbJobHistory.
Record t : Set := mk {
  job_history_id : Z;
  job_id : Z;
  status : JobStatus;
  status_at : datetime;
  message : option string
}.
End DbJobHistory.

(** The two tables, each in rowid order. *)
Record Db : Set := mkDb {
  app_jobs : list DbJob.t;
  app_job_histories : list DbJobHistory.t
}.

(** [class BadPriorStatusError(ValueError)] and the SQLAlchemy exceptions
    the code can meet. *)
Inductive Exception : Set :=
| BadPriorStatusError
| NoResultFound
| MultipleResultsFound
| InvalidRequestError
| AssertionError.

Inductive Result (A : Type) : Type :=
| Ok (a : A)
| Raise (e : Exception).
Arguments Ok {A} a.
Arguments Raise {A} e.

(** ** The store: SQL statements over the tables *)

(** An INTEGER PRIMARY KEY column without AUTOINCREMENT: the next rowid is
    one more than the largest in the table, 1 in an empty table. *)
Definition next_rowid (ids : list Z) : Z := 1 + fold_right Z.max 0 ids.

Definition with_status (s : JobStatus) (r : DbJob.t) : DbJob.t :=
  DbJob.mk (DbJob.job_id r) (DbJob.created_at r) (DbJob.next_attempt_at r)
           s (DbJob.status_at r) (DbJob.message r).

Definition with_status_at (t : datetime) (r : DbJob.t) : DbJob.t :=
  DbJob.mk (DbJob.job_id r) (DbJob.created_at r) (DbJob.next_attempt_at r)
           (DbJob.status r) t (DbJob.message r).

Definition with_next_attempt_at (t : datetime) (r : DbJob.t) : DbJob.t :=
  DbJob.mk (DbJob.job_id r) (DbJob.created_at r) t
           (DbJob.status r) (DbJob.status_at r) (DbJob.message r).

Definition with_message (m : option string) (r : DbJob.t) : DbJob.t :=
  DbJob.mk (DbJob.job_id r) (DbJob.created_at r) (DbJob.next_attempt_at r)
           (DbJob.status r) (DbJob.status_at r) m.

(** [UPDATE app_jobs SET ... WHERE job_id = id] *)
Definition update_where_job_id (id : Z) (f : DbJob.t -> DbJob.t)
    (rows : list DbJob.t) : list DbJob.t :=
  map (fun r => if DbJob.job_id r =? id then f r else r) rows.

(** [SELECT ... FROM app_jobs WHERE job_id = id], first row. *)
Definition row_of (id : Z) (d : Db) : option DbJob.t :=
  find (fun r => DbJob.job_id r =? id) (app_jobs d).

(** The body of the trigger [append_job_history], run for one updated row:
    stamp [status_at] of the job with the clock, then insert the old row's
    job_id, status, status_at and message into the history table. *)
Definition append_job_history (now : datetime) (old new : DbJob.t) (d : Db) : Db :=
  mkDb
    (update_where_job_id (DbJob.job_id new) (with_status_at now) (app_jobs d))
    (app_job_histories d ++
       [DbJobHistory.mk
          (next_rowid (map DbJobHistory.job_history_id (app_job_histories d)))
          (DbJob.job_id old) (DbJob.status old) (DbJob.status_at old)
          (DbJob.message old)]).

(** The WHERE clause of the statement in [_update_job_status]. *)
Definition guard (id : Z) (prior_status : JobStatus) (r : DbJob.t) : bool :=
  (DbJob.job_id r =? id) && JobStatus_eqb (DbJob.status r) prior_status.

(** [UPDATE app_jobs SET status = :status
     WHERE job_id = :id AND status = :prior_status]
    with the AFTER UPDATE OF status trigger fired once per updated row.
    Returns the row count and the new tables. *)
Definition update_status_where (now : datetime) (id : Z)
    (prior_status status : JobStatus) (d : Db) : Z * Db :=
  let matched := filter (guard id prior_status) (app_jobs d) in
  let written :=
    mkDb (map (fun r => if guard id prior_status r then with_status status r else r)
              (app_jobs d))
         (app_job_histories d) in
  (Z.of_nat (List.length matched),
   fold_left (fun acc old => append_job_history now old (with_status status old) acc)
             matched written).

(** ** The session *)

(** An attribute assignment on a loaded [DbJob] object, waiting for the
    next flush. *)
Inductive Assignment : Set :=
| Set_message (m : string)
| Set_next_attempt_at (t : datetime)
| Set_status_at (t : datetime).

Record Session : Set := mkSession {
  conn : Db;                       (* the tables as the open transaction sees them *)
  committed : Db;                  (* the tables as of the last commit *)
  dirty : list (Z * Assignment);   (* pending attribute writes, by job_id *)
  autoflush : bool
}.

Definition apply_assignment (d : Db) (w : Z * Assignment) : Db :=
  let f := match snd w with
           | Set_message m => with_message (Some m)
           | Set_next_attempt_at t => with_next_attempt_at t
           | Set_status_at t => with_status_at t
           end in
  mkDb (update_where_job_id (fst w) f (app_jobs d)) (app_job_histories d).

(** [Session.flush]: one UPDATE per pending write; none of them names the
    status column, so the trigger stays silent. *)
Definition flush (db : Session) : Session :=
  mkSession (fold_left apply_assignment (dirty db) (conn db))
            (committed db) [] (autoflush db).

(** What [Session.execute] does before it runs a statement. *)
Definition pre_execute (db : Session) : Session :=
  if autoflush db then flush db else db.

(** [db.commit()] *)
Definition commit (db : Session) : Session :=
  let db := flush db in
  mkSession (conn db) (conn db) [] (autoflush db).

(** [db.rollback()] *)
Definition rollback (db : Session) : Session :=
  mkSession (committed db) (committed db) [] (autoflush db).

(** [db_job.attr = value] *)
Definition setattr (db_job : Z) (a : Assignment) (db : Session) : Session :=
  mkSession (conn db) (committed db) (dirty db ++ [(db_job, a)]) (autoflush db).

(** [db.refresh(db_job)]: the object's pending writes are dropped and its
    attributes are read again from its row. *)
Definition refresh (db_job : Z) (db : Session) : Result DbJob.t * Session :=
  match row_of db_job (conn db) with
  | Some r =>
      (Ok r,
       mkSession (conn db) (committed db)
                 (filter (fun w => negb (fst w =? db_job)) (dirty db))
                 (autoflush db))
  | None => (Raise InvalidRequestError, db)
  end.

(** ** Transition engine *)

(** The if/elif chain of [_update_job_status]. *)
Definition prior_status_for (status : JobStatus) : JobStatus :=
  match status with
  | PENDING => RUNNING
  | RUNNING => PENDING
  | DONE => RUNNING
  | CANCELED => PENDING
  end.

(** [message if message else ""] *)
Definition or_empty (message : option string) : string :=
  match message with
  | Some m => m
  | None => EmptyString
  end.

(** [_update_job_status(db, db_job, status, next_attempt_at, message)].
    [now] is the clock the trigger reads; [db_job] is the loaded object,
    known by its primary key. *)
Definition _update_job_status (now : datetime) (db_job : Z) (status : JobStatus)
    (next_attempt_at : option datetime) (message : option string)
    (db : Session) : Result unit * Session :=
  let message := or_empty message in
  let prior_status := prior_status_for status in
  let db := pre_execute db in
  let (rowcount, tables) :=
    update_status_where now db_job prior_status status (conn db) in
  let db := mkSession tables (committed db) (dirty db) (autoflush db) in
  if rowcount <? 1 then
    match refresh db_job db with
    | (Ok _, db) => (Raise BadPriorStatusError, db)
    | (Raise e, db) => (Raise e, db)
    end
  else
    let db := setattr db_job (Set_message message) db in
    let db := match next_attempt_at with
              | Some t => setattr db_job (Set_next_attempt_at t) db
              | None => db
              end in
    (Ok tt, db).

(** [db_update_job_status(db, db_job, status, next_attempt_at, message)].
    The source returns nothing and leaves [db_job] refreshed; the
    refreshed attributes are returned here. *)
Definition db_update_job_status (now : datetime) (db_job : Z) (status : JobStatus)
    (next_attempt_at : option datetime) (message : option string)
    (db : Session) : Result DbJob.t * Session :=
  let message := or_empty message in
  match _update_job_status now db_job status next_attempt_at (Some message) db with
  | (Raise BadPriorStatusError, db) => (Raise BadPriorStatusError, rollback db)
  | (Raise e, db) => (Raise e, db)
  | (Ok _, db) => refresh db_job (commit db)
  end.

(** ** Job store *)

(** [INSERT INTO app_jobs (next_attempt_at, message) VALUES (...)]; the
    server defaults fill [created_at], [status] and [status_at]. *)
Definition insert_app_jobs (now : datetime) (next_attempt_at : datetime)
    (message : option string) (d : Db) : Z * Db :=
  let id := next_rowid (map DbJob.job_id (app_jobs d)) in
  (id,
   mkDb (app_jobs d ++ [DbJob.mk id now next_attempt_at PENDING now message])
        (app_job_histories d)).

(** [db_insert_job(db, next_attempt_at, message)]; [now] is the value of
    SQL 'NOW' in the INSERT. *)
Definition db_insert_job (now : datetime) (next_attempt_at : option datetime)
    (message : option string) (db : Session) : Result DbJob.t * Session :=
  let next_attempt_at := match next_attempt_at with
                         | Some t => t
                         | None => now
                         end in
  let db := flush db in
  let (id, tables) := insert_app_jobs now next_attempt_at message (conn db) in
  let db := commit (mkSession tables (committed db) (dirty db) (autoflush db)) in
  refresh id db.

(** ** Query layer *)

(** ORDER BY as a stable insertion sort; [before a b] says that [a] may
    stand in front of [b]. *)
Fixpoint insert_by {A : Type} (before : A -> A -> bool) (x : A) (l : list A) : list A :=
  match l with
  | [] => [x]
  | y :: l' => if before x y then x :: l else y :: insert_by before x l'
  end.

Fixpoint order_by {A : Type} (before : A -> A -> bool) (l : list A) : list A :=
  match l with
  | [] => []
  | x :: l' => insert_by before x (order_by before l')
  end.

(** [.offset(skip).limit(limit)]: SQLite reads a negative OFFSET as zero
    and a negative LIMIT as no limit. *)
Definition offset_limit {A : Type} (skip limit : Z) (l : list A) : list A :=
  let l := skipn (Z.to_nat skip) l in
  if limit <? 0 then l else firstn (Z.to_nat limit) l.

(** [DbJob.created_at.desc(), DbJob.job_id.desc()] *)
Definition jobs_before (a b : DbJob.t) : bool :=
  (DbJob.created_at b <? DbJob.created_at a)
  || ((DbJob.created_at a =? DbJob.created_at b)
      && (DbJob.job_id b <=? DbJob.job_id a)).

(** [DbJobHistory.status_at.desc(), DbJobHistory.job_history_id.desc()] *)
Definition histories_before (a b : DbJobHistory.t) : bool :=
  (DbJobHistory.status_at b <? DbJobHistory.status_at a)
  || ((DbJobHistory.status_at a =? DbJobHistory.status_at b)
      && (DbJobHistory.job_history_id b <=? DbJobHistory.job_history_id a)).

(** The optional WHERE of [db_select_jobs]. *)
Definition status_filter (status : option JobStatus) (r : DbJob.t) : bool :=
  match status with
  | Some s => JobStatus_eqb (DbJob.status r) s
  | None => true
  end.

(** [db_select_jobs(db, status, skip, limit)] *)
Definition db_select_jobs (status : option JobStatus) (skip limit : Z)
    (db : Session) : list DbJob.t * Session :=
  let db := pre_execute db in
  (offset_limit skip limit
     (order_by jobs_before (filter (status_filter status) (app_jobs (conn db)))),
   db).

(** [db_select_job_histories(db, job_id, skip, limit)] *)
Definition db_select_job_histories (job_id : Z) (skip limit : Z)
    (db : Session) : list DbJobHistory.t * Session :=
  let db := pre_execute db in
  (offset_limit skip limit
     (order_by histories_before
        (filter (fun h => DbJobHistory.job_id h =? job_id)
                (app_job_histories (conn db)))),
   db).

(** [db_select_job(db, job_id)]; [scalar_one] wants exactly one row. *)
Definition db_select_job (job_id : Z) (db : Session) : Result DbJob.t * Session :=
  let db := pre_execute db in
  match filter (fun r => DbJob.job_id r =? job_id) (app_jobs (conn db)) with
  | [] => (Raise NoResultFound, db)
  | [r] => (Ok r, db)
  | _ => (Raise MultipleResultsFound, db)
  end.

Definition count_status (s : JobStatus) (d : Db) : Z :=
  Z.of_nat (List.length (filter (fun r => JobStatus_eqb (DbJob.status r) s) (app_jobs d))).

(** [db_select_in_flight_counts(db)] *)
Definition db_select_in_flight_counts (db : Session) : (Z * Z) * Session :=
  let db := pre_execute db in
  ((count_status PENDING (conn db), count_status RUNNING (conn db)), db).

(** ** External views ([mm/app.py]) *)

(** [class Job(JobBase)] *)
Module Job.
Record t : Set := mk {
  job_id : Z;
  created_at : datetime;
  status : JobStatus;
  status_at : datetime;
  message : string;
  next_attempt_at : option datetime
}.

(** [JobBase.ensure_message] *)
Definition ensure_message (m : option string) : string :=
  match m with
  | Some s => s
  | None => EmptyString
  end.

(** [Job.blank_next_attempt_at] *)
Definition blank_next_attempt_at (values : t) : t :=
  if negb (JobStatus_eqb (status values) PENDING)
  then mk (job_id values) (created_at values) (status values)
          (status_at values) (message values) None
  else values.

(** [Job.from_orm(db_job)]: the pre root validator, the fields, then the
    post root validator. *)
Definition from_orm (o : DbJob.t) : t :=
  blank_next_attempt_at
    (mk (DbJob.job_id o) (DbJob.created_at o) (DbJob.status o)
        (DbJob.status_at o) (ensure_message (DbJob.message o))
        (Some (DbJob.next_attempt_at o))).
End Job.

(** [class JobPriorStatus(JobBase)] *)
Module JobPriorStatus.
Record t : Set := mk {
  job_history_id : Z;
  status : JobStatus;
  status_at : datetime;
  message : string
}.

Definition from_orm (h : DbJobHistory.t) : t :=
  mk (DbJobHistory.job_history_id h) (DbJobHistory.status h)
     (DbJobHistory.status_at h) (Job.ensure_message (DbJobHistory.message h)).
End JobPriorStatus.

(** [class SystemSummary(BaseModel)] *)
Record SystemSummary : Set := mkSystemSummary {
  pending_count : Z;
  running_count : Z
}.

(** What a request gets back: the body serialised through the response
    model, one of the two HTTPExceptions the handlers raise, FastAPI's
    rejection of a query parameter outside its [Query] bounds, or an
    exception no handler catches. *)
Inductive Response (A : Type) : Type :=
| HTTP_200 (body : A)
| HTTP_404_NOT_FOUND (job_id : Z)                     (* JobIdErrorMessage, "job not found" *)
| HTTP_409_CONFLICT (job : Job.t) (state : JobStatus) (* JobErrorMessage *)
| HTTP_422_UNPROCESSABLE
| HTTP_500 (e : Exception).
Arguments HTTP_200 {A} body.
Arguments HTTP_404_NOT_FOUND {A} job_id.
Arguments HTTP_409_CONFLICT {A} job state.
Arguments HTTP_422_UNPROCESSABLE {A}.
Arguments HTTP_500 {A} e.

(** ** Lifecycle simulator *)

(** What one pass through the body of the [for] loop takes from outside:
    the two [uniform] draws in microseconds, the [randrange(0, 10, 1)]
    draw, and the clock the trigger reads when the UPDATE runs. *)
Record Draw : Set := mkDraw {
  uniform_025_15 : Z;
  uniform_5_15 : Z;
  d10 : Z;
  sql_now : datetime
}.

(** The records the simulator and the decorator hand to [logging]. *)
Inductive LogRecord : Set :=
| unexpected_job_status (status : JobStatus) (job_id : Z)
| unable_to_update_status (target_status : JobStatus) (job_id : Z)
| failed_to_advance_database.

(** The session together with the log. *)
Definition World : Set := Session * list LogRecord.

(** The four [target_*] locals of the loop body. *)
Record Target : Set := mkTarget {
  target_status : JobStatus;
  target_status_at : option datetime;
  target_next_attempt_at : option datetime;
  target_message : option string
}.

(** The if/elif/else that fills the [target_*] locals from the attributes
    of [db_job]; [None] is the [else] branch, which warns and continues. *)
Definition choose_target (dr : Draw) (db_job : DbJob.t) : option Target :=
  match DbJob.status db_job with
  | PENDING =>
      let target_status_at := DbJob.next_attempt_at db_job + uniform_025_15 dr in
      Some (mkTarget RUNNING (Some target_status_at) None None)
  | RUNNING =>
      let target_status_at := DbJob.status_at db_job + uniform_5_15 dr in
      if d10 dr =? 0 then
        Some (mkTarget DONE (Some target_status_at) None (Some "Permanent failure"%string))
      else if (d10 dr =? 1) || (d10 dr =? 2) || (d10 dr =? 3) then
        Some (mkTarget PENDING (Some target_status_at)
                       (Some (target_status_at + seconds 10))
                       (Some "Temporary failure"%string))
      else
        Some (mkTarget DONE (Some target_status_at) None None)
  | _ => None
  end.

(** The body of [for db_job in db_jobs].  [db_job] carries the attribute
    values the loop reads from the loaded object; a writer on another
    connection can make them differ from the row by the time the UPDATE
    runs. *)
Definition advance_job (dr : Draw) (db_job : DbJob.t) (w : World)
    : Result unit * World :=
  let (db, log) := w in
  match choose_target dr db_job with
  | None =>
      (Ok tt,
       (db, log ++ [unexpected_job_status (DbJob.status db_job) (DbJob.job_id db_job)]))
  | Some tg =>
      match _update_job_status (sql_now dr) (DbJob.job_id db_job) (target_status tg)
                               (target_next_attempt_at tg) (target_message tg) db with
      | (Raise BadPriorStatusError, db) =>
          (Ok tt,
           (db, log ++ [unable_to_update_status (target_status tg) (DbJob.job_id db_job)]))
      | (Raise e, db) => (Raise e, (db, log))
      | (Ok _, db) =>
          let db := commit db in
          match target_status_at tg with
          | Some t =>
              let db := commit (setattr (DbJob.job_id db_job) (Set_status_at t) db) in
              match refresh (DbJob.job_id db_job) db with
              | (Ok r, db) =>
                  if DbJob.status_at r =? t then (Ok tt, (db, log))
                  else (Raise AssertionError, (db, log))
              | (Raise e, db) => (Raise e, (db, log))
              end
          | None => (Ok tt, (db, log))
          end
      end
  end.

(** [for db_job in db_jobs: ...]; the [k]-th job of the batch gets
    [draw k]. *)
Fixpoint advance_jobs (draw : nat -> Draw) (k : nat) (db_jobs : list DbJob.t)
    (w : World) : Result unit * World :=
  match db_jobs with
  | [] => (Ok tt, w)
  | db_job :: rest =>
      match advance_job (draw k) db_job w with
      | (Ok _, w) => advance_jobs draw (S k) rest w
      | (Raise e, w) => (Raise e, w)
      end
  end.

(** The WHERE clause of the simulator's SELECT. *)
Definition executable (now : datetime) (r : DbJob.t) : bool :=
  (JobStatus_eqb (DbJob.status r) PENDING
   && (DbJob.next_attempt_at r <? now - seconds 2))
  || (JobStatus_eqb (DbJob.status r) RUNNING
      && (DbJob.status_at r <? now - seconds 10)).

(** One turn of [while True] takes a reading of [datetime.utcnow()] and
    the draws for its batch. *)
Record Scan : Set := mkScan {
  utcnow : datetime;
  draw : nat -> Draw
}.

(** [db_fake_advance_jobs(db)].  The [i]-th turn of the loop uses
    [oracle i]; [None] means that [fuel] turns did not reach the [break],
    and the world returned with it is the one reached so far. *)
Fixpoint db_fake_advance_jobs (fuel : nat) (oracle : nat -> Scan) (i : nat)
    (w : World) : option (Result unit) * World :=
  match fuel with
  | O => (None, w)
  | S fuel =>
      let now := utcnow (oracle i) in
      let db := pre_execute (fst w) in
      let db_jobs := filter (executable now) (app_jobs (conn db)) in
      match db_jobs with
      | [] => (Some (Ok tt), (db, snd w))
      | _ =>
          match advance_jobs (draw (oracle i)) 0 db_jobs (db, snd w) with
          | (Ok _, w) => db_fake_advance_jobs fuel oracle (S i) w
          | (Raise e, w) => (Some (Raise e), w)
          end
      end
  end.

(** ** Request handlers ([mm/app.py]) *)

(** [Query(0, ge=0)] and [Query(100, ge=1, le=100)] *)
Definition query_bounds (skip limit : Z) : bool :=
  (0 <=? skip) && (1 <=? limit) && (limit <=? 100).

(** [summary] *)
Definition summary (db : Session) : Response SystemSummary * Session :=
  let (counts, db) := db_select_in_flight_counts db in
  (HTTP_200 (mkSystemSummary (fst counts) (snd counts)), db).

(** [job] *)
Definition job (job_id : Z) (db : Session) : Response Job.t * Session :=
  match db_select_job job_id db with
  | (Raise NoResultFound, db) => (HTTP_404_NOT_FOUND job_id, db)
  | (Raise e, db) => (HTTP_500 e, db)
  | (Ok db_job, db) => (HTTP_200 (Job.from_orm db_job), db)
  end.

(** [job_history] *)
Definition job_history (job_id skip limit : Z) (db : Session)
    : Response (list JobPriorStatus.t) * Session :=
  match db_select_job job_id db with
  | (Raise NoResultFound, db) => (HTTP_404_NOT_FOUND job_id, db)
  | (Raise e, db) => (HTTP_500 e, db)
  | (Ok _, db) =>
      let (rows, db) := db_select_job_histories job_id skip limit db in
      (HTTP_200 (map JobPriorStatus.from_orm rows), db)
  end.

(** [cancel_job]; [now] is the clock the trigger reads.  After the
    rollback the handler reads [db_job] again for the 409 body. *)
Definition cancel_job (now : datetime) (job_id : Z)
    (next_attempt_at : option datetime) (message : option string)
    (db : Session) : Response Job.t * Session :=
  match db_select_job job_id db with
  | (Raise NoResultFound, db) => (HTTP_404_NOT_FOUND job_id, db)
  | (Raise e, db) => (HTTP_500 e, db)
  | (Ok db_job, db) =>
      match db_update_job_status now (DbJob.job_id db_job) CANCELED
                                 next_attempt_at message db with
      | (Raise NoResultFound, db) => (HTTP_404_NOT_FOUND job_id, db)
      | (Raise BadPriorStatusError, db) =>
          match refresh (DbJob.job_id db_job) db with
          | (Ok db_job, db) =>
              (HTTP_409_CONFLICT (Job.from_orm db_job) (DbJob.status db_job), db)
          | (Raise e, db) => (HTTP_500 e, db)
          end
      | (Raise e, db) => (HTTP_500 e, db)
      | (Ok db_job, db) => (HTTP_200 (Job.from_orm db_job), db)
      end
  end.

(** [new_job] *)
Definition new_job (now : datetime) (next_attempt_at : option datetime)
    (message : option string) (db : Session) : Response Job.t * Session :=
  match db_insert_job now next_attempt_at message db with
  | (Ok db_job, db) => (HTTP_200 (Job.from_orm db_job), db)
  | (Raise e, db) => (HTTP_500 e, db)
  end.

(** [jobs] *)
Definition jobs (status : option JobStatus) (skip limit : Z) (db : Session)
    : Response (list Job.t) * Session :=
  let (rows, db) := db_select_jobs status skip limit db in
  (HTTP_200 (map Job.from_orm rows), db).

(** [_fake_advance_jobs_hack]: run the simulator, log whatever it raises,
    then call the handler.  No answer comes back while the simulator is
    still looping. *)
Definition _fake_advance_jobs_hack {A : Type} (fuel : nat) (oracle : nat -> Scan)
    (func : Session -> Response A * Session) (w : World)
    : option (Response A) * World :=
  match db_fake_advance_jobs fuel oracle 0 w with
  | (None, w) => (None, w)
  | (Some (Raise _), (db, log)) =>
      let (res, db) := func db in
      (Some res, (db, log ++ [failed_to_advance_database]))
  | (Some (Ok _), (db, log)) =>
      let (res, db) := func db in
      (Some res, (db, log))
  end.

(** The routes of the application. *)
Inductive Request : Set :=
| GET_root
| GET_job (job_id : Z)
| GET_job_history (job_id skip limit : Z)
| POST_job_cancel (job_id : Z) (next_attempt_at : option datetime)
                  (message : option string)
| POST_job_new (next_attempt_at : option datetime) (message : option string)
| GET_jobs (status : option JobStatus) (skip limit : Z).

Inductive Body : Set :=
| summary_body (s : SystemSummary)
| job_body (j : Job.t)
| jobs_body (js : list Job.t)
| history_body (hs : list JobPriorStatus.t).

Definition with_body {A : Type} (f : A -> Body) (r : Response A * Session)
    : Response Body * Session :=
  (match fst r with
   | HTTP_200 b => HTTP_200 (f b)
   | HTTP_404_NOT_FOUND id => HTTP_404_NOT_FOUND id
   | HTTP_409_CONFLICT j s => HTTP_409_CONFLICT j s
   | HTTP_422_UNPROCESSABLE => HTTP_422_UNPROCESSABLE
   | HTTP_500 e => HTTP_500 e
   end, snd r).

(** One request against the application: FastAPI checks the query
    parameters, then the decorated handler runs.  [now] is the clock of the
    handler's own write. *)
Definition serve (fuel : nat) (oracle : nat -> Scan) (now : datetime)
    (req : Request) (w : World) : option (Response Body) * World :=
  match req with
  | GET_root =>
      _fake_advance_jobs_hack fuel oracle
        (fun db => with_body summary_body (summary db)) w
  | GET_job job_id =>
      _fake_advance_jobs_hack fuel oracle
        (fun db => with_body job_body (job job_id db)) w
  | GET_job_history job_id skip limit =>
      if query_bounds skip limit then
        _fake_advance_jobs_hack fuel oracle
          (fun db => with_body history_body (job_history job_id skip limit db)) w
      else (Some HTTP_422_UNPROCESSABLE, w)
  | POST_job_cancel job_id next_attempt_at message =>
      _fake_advance_jobs_hack fuel oracle
        (fun db => with_body job_body (cancel_job now job_id next_attempt_at message db)) w
  | POST_job_new next_attempt_at message =>
      _fake_advance_jobs_hack fuel oracle
        (fun db => with_body job_body (new_job now next_attempt_at message db)) w
  | GET_jobs status skip limit =>
      if query_bounds skip limit then
        _fake_advance_jobs_hack fuel oracle
          (fun db => with_body jobs_body (jobs status skip limit db)) w
      else (Some HTTP_422_UNPROCESSABLE, w)
  end.

(** ** Specification vocabulary *)

(** [job_id] is the primary key of [app_jobs]. *)
Definition pk_unique (d : Db) : Prop := NoDup (map DbJob.job_id (app_jobs d)).

(** [l'] keeps every entry of [l], in place, and may add entries behind. *)
Definition extends {A : Type} (l l' : list A) : Prop := exists suffix, l' = l ++ suffix.

(** The history row the trigger writes for the row [old]. *)
Definition history_entry_of (histories : list DbJobHistory.t) (old : DbJob.t)
    : DbJobHistory.t :=
  DbJobHistory.mk (next_rowid (map DbJobHistory.job_history_id histories))
                  (DbJob.job_id old) (DbJob.status old) (DbJob.status_at old)
                  (DbJob.message old).

(** The pending writes [ws] as they land on one row. *)
Definition patch (ws : list (Z * Assignment)) (r : DbJob.t) : DbJob.t :=
  fold_left
    (fun r w =>
       if DbJob.job_id r =? fst w then
         match snd w with
         | Set_message m => with_message (Some m) r
         | Set_next_attempt_at t => with_next_attempt_at t r
         | Set_status_at t => with_status_at t r
         end
       else r)
    ws r.

(** The pending writes [_update_job_status] leaves behind on success. *)
Definition transition_writes (db_job : Z) (next_attempt_at : option datetime)
    (message : option string) : list (Z * Assignment) :=
  (db_job, Set_message (or_empty message))
  :: match next_attempt_at with
     | Some t => [(db_job, Set_next_attempt_at t)]
     | None => []
     end.

(** The job's row once a transition to [status] is committed. *)
Definition transition_row (now : datetime) (status : JobStatus)
    (next_attempt_at : option datetime) (message : option string)
    (r : DbJob.t) : DbJob.t :=
  DbJob.mk (DbJob.job_id r) (DbJob.created_at r)
           (match next_attempt_at with
            | Some t => t
            | None => DbJob.next_attempt_at r
            end)
           status now (Some (or_empty message)).

(** The tables a committed transition of the row [r] leaves. *)
Definition transition_tables (now : datetime) (id : Z) (st : JobStatus)
    (nat_ : option datetime) (msg : option string) (r : DbJob.t) (d : Db) : Db :=
  mkDb (update_where_job_id id (transition_row now st nat_ msg) (app_jobs d))
       (app_job_histories d ++ [history_entry_of (app_job_histories d) r]).

(** ** Sample data *)

Definition sample_pending : DbJob.t :=
  DbJob.mk 1 1000 5000 PENDING 1000 (Some "I created this"%string).

Definition sample_running : DbJob.t :=
  DbJob.mk 2 2000 2000 RUNNING 3000 None.

Definition sample_done : DbJob.t :=
  DbJob.mk 3 2000 2000 DONE 4000 (Some ""%string).

Definition sample_tables : Db :=
  mkDb [sample_pending; sample_running; sample_done]
       [DbJobHistory.mk 1 2 PENDING 2000 None;
        DbJobHistory.mk 2 3 PENDING 2000 None;
        DbJobHistory.mk 3 3 RUNNING 3500 (Some ""%string)].

Definition sample_session : Session := mkSession sample_tables sample_tables [] false.

(** The history rows of the last commit. *)
Definition persisted_history (db : Session) : list DbJobHistory.t :=
  app_job_histories (committed db).

(** The open transaction has only added history rows to the committed
    ones. *)
Definition history_consistent (db : Session) : Prop :=
  extends (persisted_history db) (app_job_histories (conn db)).

(** From [db] to [db'] the committed history rows were all kept. *)
Definition history_kept (db db' : Session) : Prop :=
  extends (persisted_history db) (persisted_history db') /\ history_consistent db'.

(** A request as it reaches the application, with the clock and the
    random draws it will meet. *)
Record Call : Type := mkCall {
  call_fuel : nat;
  call_oracle : nat -> Scan;
  call_now : datetime;
  call_request : Request
}.

(** A sequence of requests, one after the other. *)
Fixpoint run (calls : list Call) (w : World) : World :=
  match calls with
  | [] => w
  | c :: calls =>
      run calls (snd (serve (call_fuel c) (call_oracle c) (call_now c)
                            (call_request c) w))
  end.

(** An external view shows [next_attempt_at] only on a PENDING job. *)
Definition next_attempt_at_only_when_pending (j : Job.t) : Prop :=
  Job.status j <> PENDING -> Job.next_attempt_at j = None.

(** Every [Job] a response carries, in the body or in the detail of a
    409. *)
Definition jobs_of_response (res : Response Body) : list Job.t :=
  match res with
  | HTTP_200 (job_body j) => [j]
  | HTTP_200 (jobs_body js) => js
  | HTTP_409_CONFLICT j _ => [j]
  | _ => []
  end.

Definition jobs_of_answer (answer : option (Response Body)) : list Job.t :=
  match answer with
  | Some res => jobs_of_response res
  | None => []
  end.

(** The order of [db_select_jobs]: newer [created_at] first, larger
    [job_id] first among equals. *)
Definition listed_before (a b : DbJob.t) : Prop :=
  DbJob.created_at b < DbJob.created_at a
  \/ (DbJob.created_at a = DbJob.created_at b /\ DbJob.job_id b <= DbJob.job_id a).

(** The job's row once the simulator has moved it to the target [tg]: the
    committed transition, then [status_at] overwritten with the target's. *)
Definition advanced_row (dr : Draw) (tg : Target) (r : DbJob.t) : DbJob.t :=
  DbJob.mk (DbJob.job_id r) (DbJob.created_at r)
           (match target_next_attempt_at tg with
            | Some t => t
            | None => DbJob.next_attempt_at r
            end)
           (target_status tg)
           (match target_status_at tg with
            | Some t => t
            | None => sql_now dr
            end)
           (Some (or_empty (target_message tg))).

Definition advanced_tables (dr : Draw) (tg : Target) (r : DbJob.t) (d : Db) : Db :=
  mkDb (update_where_job_id (DbJob.job_id r) (advanced_row dr tg) (app_jobs d))
       (app_job_histories d ++ [history_entry_of (app_job_histories d) r]).

(** Job 2 of the sample data as an object loaded while the job was still
    PENDING: another writer has since moved the row to RUNNING. *)
Definition sample_stale : DbJob.t := DbJob.mk 2 2000 2000 PENDING 2000 None.

(** ** Vocabulary for the invariants of the store *)

(** Between two calls the session holds no pending write and no open
    transaction. *)
Definition clean (db : Session) : Prop := dirty db = [] /\ conn db = committed db.

(** What identifies a job for good. *)
Definition identity_of (r : DbJob.t) : Z * datetime := (DbJob.job_id r, DbJob.created_at r).

(** One write of the application to the tables: a transition of the row
    [r] (the UPDATE, its trigger, and the attribute writes [g] that follow
    it), or the INSERT of a new job. *)
Inductive table_step : Db -> Db -> Prop :=
| step_transition (d : Db) (r : DbJob.t) (g : DbJob.t -> DbJob.t) :
    row_of (DbJob.job_id r) d = Some r ->
    (forall x, identity_of (g x) = identity_of x) ->
    DbJob.status r = prior_status_for (DbJob.status (g r)) ->
    table_step d
      (mkDb (update_where_job_id (DbJob.job_id r) g (app_jobs d))
            (app_job_histories d ++ [history_entry_of (app_job_histories d) r]))
| step_insert (d : Db) (now next_attempt_at : datetime) (message : option string) :
    table_step d (snd (insert_app_jobs now next_attempt_at message d)).

Inductive table_steps : Db -> Db -> Prop :=
| steps_none (d : Db) : table_steps d d
| steps_more (d d' d'' : Db) : table_steps d d' -> table_step d' d'' -> table_steps d d''.

(** The rowids of both tables grow along the table, and every history row
    points to a job. *)
Definition tables_ok (d : Db) : Prop :=
  StronglySorted Z.lt (map DbJob.job_id (app_jobs d))
  /\ StronglySorted Z.lt (map DbJobHistory.job_history_id (app_job_histories d))
  /\ (forall h, In h (app_job_histories d) ->
                In (DbJobHistory.job_id h) (map DbJob.job_id (app_jobs d))).

Definition store_ok (db : Session) : Prop := clean db /\ tables_ok (conn db).

(** A session went from [db] to [db'] by writes of the application, and is
    clean again. *)
Definition evolves (db db' : Session) : Prop :=
  clean db' /\ table_steps (conn db) (conn db').


(** One request against the sample data: cancel job 1, with a simulator
    that finds nothing to do at clock 0. *)
Definition sample_oracle : nat -> Scan := fun _ => mkScan 0 (fun _ => mkDraw 300000 6000000 2 9000).

Definition sample_calls : list Call :=
  [mkCall 1 sample_oracle 9000 (POST_job_cancel 1 None (Some "X"%string))].

(** The order of [db_select_job_histories]: later [status_at] first,
    larger [job_history_id] first among equals. *)
Definition history_listed_before (a b : DbJobHistory.t) : Prop :=
  DbJobHistory.status_at b < DbJobHistory.status_at a
  \/ (DbJobHistory.status_at a = DbJobHistory.status_at b
      /\ DbJobHistory.job_history_id b <= DbJobHistory.job_history_id a).

(** A job with seven history rows, for paging. *)
Definition sample_history_session : Session :=
  let d := mkDb [sample_running]
                (map (fun k => DbJobHistory.mk k 2 (if Z.even k then RUNNING else PENDING)
                                                (1000 * ((k + 1) / 2)) None)
                     [1; 2; 3; 4; 5; 6; 7]) in
  mkSession d d [] true.

(** How far a live job's clock ([next_attempt_at] while PENDING,
    [status_at] while RUNNING) is behind the instant [T], in microseconds;
    zero for a finished job. *)
Definition remaining (T : datetime) (r : DbJob.t) : nat :=
  match DbJob.status r with
  | PENDING => Z.to_nat (T - DbJob.next_attempt_at r)
  | RUNNING => Z.to_nat (T - DbJob.status_at r)
  | _ => 0%nat
  end.

Definition pass_bound (T : datetime) (d : Db) : nat :=
  list_sum (map (remaining T) (app_jobs d)).

(** The draws are in the ranges the source asks [uniform] and [randrange]
    for. *)
Definition draw_in_range (dr : Draw) : Prop :=
  250000 <= uniform_025_15 dr <= 1500000
  /\ seconds 5 <= uniform_5_15 dr <= seconds 15
  /\ 0 <= d10 dr < 10.

(** A clock at three seconds: job 1 of the sample data is due, job 2 has
    not run for ten seconds yet. *)
Definition sample_oracle_3s : nat -> Scan :=
  fun _ => mkScan 3000000 (fun _ => mkDraw 300000 6000000 2 9000).

(** A pass from the point where its SELECT has returned [db_jobs]: the
    [for] loop over these objects, then the [while] loop again from its
    next turn.  The objects carry the attributes the SELECT loaded; a
    writer on another connection may have changed their rows since. *)
Definition resume_pass (fuel : nat) (oracle : nat -> Scan) (i : nat)
    (db_jobs : list DbJob.t) (w : World) : option (Result unit) * World :=
  match db_jobs with
  | [] => (Some (Ok tt), w)
  | _ =>
      match advance_jobs (draw (oracle i)) 0 db_jobs w with
      | (Ok _, w) => db_fake_advance_jobs fuel oracle (S i) w
      | (Raise e, w) => (Some (Raise e), w)
      end
  end.

(** A clock at twenty seconds, with every [randrange] draw in bucket 0. *)
Definition sample_oracle_20s : nat -> Scan :=
  fun _ => mkScan 20000000 (fun _ => mkDraw 300000 6000000 0 9000).

(** At none of the clock readings of [oracle] is a job of the table
    selected by the simulator. *)
Definition nothing_due (oracle : nat -> Scan) (d : Db) : Prop :=
  forall r, In r (app_jobs d) -> forall k, executable (utcnow (oracle k)) r = false.

(** ** Schema invariants and basic facts about the store *)

Lemma JobStatus_eqb_eq (a b : JobStatus) : JobStatus_eqb a b = true <-> a = b.
Proof. destruct a, b; simpl; split; intro H; try reflexivity; discriminate H. Qed.

Lemma JobStatus_eqb_refl (a : JobStatus) : JobStatus_eqb a a = true.
Proof. now apply JobStatus_eqb_eq. Qed.

Lemma JobStatus_eqb_neq (a b : JobStatus) : JobStatus_eqb a b = false <-> a <> b.
Proof.
  destruct (JobStatus_eqb a b) eqn:E.
  - apply JobStatus_eqb_eq in E. split; [discriminate | congruence].
  - split; [| reflexivity]. intros _ H. apply JobStatus_eqb_eq in H. congruence.
Qed.

Lemma extends_refl {A : Type} (l : list A) : extends l l.
Proof. exists []. now rewrite app_nil_r. Qed.

Lemma extends_trans {A : Type} (l1 l2 l3 : list A) :
  extends l1 l2 -> extends l2 l3 -> extends l1 l3.
Proof. intros [s1 ->] [s2 ->]. exists (s1 ++ s2). now rewrite app_assoc. Qed.

Lemma extends_app {A : Type} (l s : list A) : extends l (l ++ s).
Proof. now exists s. Qed.

Section RowMaps.
Variable g : DbJob.t -> DbJob.t.
Hypothesis g_job_id : forall r, DbJob.job_id (g r) = DbJob.job_id r.

Lemma map_keeps_job_ids (l : list DbJob.t) :
  map DbJob.job_id (map g l) = map DbJob.job_id l.
Proof. rewrite map_map. apply map_ext. intro r. apply g_job_id. Qed.

Lemma find_map_job_id (id : Z) (l : list DbJob.t) :
  find (fun r => DbJob.job_id r =? id) (map g l)
  = option_map g (find (fun r => DbJob.job_id r =? id) l).
Proof.
  induction l as [|x l IH]; simpl; [reflexivity|].
  rewrite g_job_id. destruct (DbJob.job_id x =? id); [reflexivity | exact IH].
Qed.
End RowMaps.

Lemma update_where_job_id_ids (id : Z) (f : DbJob.t -> DbJob.t) (l : list DbJob.t) :
  (forall r, DbJob.job_id (f r) = DbJob.job_id r) ->
  map DbJob.job_id (update_where_job_id id f l) = map DbJob.job_id l.
Proof.
  intro Hf. unfold update_where_job_id. apply map_keeps_job_ids.
  intro r. destruct (DbJob.job_id r =? id); [apply Hf | reflexivity].
Qed.

Lemma find_update_where_job_id (id : Z) (f : DbJob.t -> DbJob.t) (l : list DbJob.t) :
  (forall r, DbJob.job_id (f r) = DbJob.job_id r) ->
  find (fun r => DbJob.job_id r =? id) (update_where_job_id id f l)
  = option_map f (find (fun r => DbJob.job_id r =? id) l).
Proof.
  intro Hf. induction l as [|x l IH]; simpl; [reflexivity|].
  destruct (DbJob.job_id x =? id) eqn:E.
  - simpl. rewrite Hf, E. reflexivity.
  - simpl. rewrite E. exact IH.
Qed.

Lemma find_job_id_some (id : Z) (l : list DbJob.t) (r : DbJob.t) :
  find (fun r => DbJob.job_id r =? id) l = Some r -> In r l /\ DbJob.job_id r = id.
Proof.
  intro H. apply find_some in H. destruct H as [Hin Heq].
  split; [exact Hin | now apply Z.eqb_eq].
Qed.

(** Under the primary key, the row found by [job_id] is the only row with
    that [job_id]. *)
Lemma pk_row_unique (id : Z) (l : list DbJob.t) (r : DbJob.t) :
  NoDup (map DbJob.job_id l) ->
  find (fun r => DbJob.job_id r =? id) l = Some r ->
  forall x, In x l -> DbJob.job_id x = id -> x = r.
Proof.
  induction l as [|y l IH]; simpl; intros Hnd Hf x Hin Hx; [contradiction|].
  inversion Hnd as [|? ? Hnotin Hnd']; subst.
  destruct (DbJob.job_id y =? DbJob.job_id x) eqn:E.
  - injection Hf as <-. apply Z.eqb_eq in E.
    destruct Hin as [-> | Hin]; [reflexivity|].
    exfalso. apply Hnotin. rewrite E. now apply in_map.
  - destruct Hin as [-> | Hin].
    + rewrite Z.eqb_refl in E. discriminate.
    + now apply IH.
Qed.

Lemma filter_job_id_found (id : Z) (l : list DbJob.t) (r : DbJob.t) :
  NoDup (map DbJob.job_id l) ->
  find (fun r => DbJob.job_id r =? id) l = Some r ->
  filter (fun r => DbJob.job_id r =? id) l = [r].
Proof.
  induction l as [|y l IH]; simpl; intros Hnd Hf; [discriminate|].
  inversion Hnd as [|? ? Hnotin Hnd']; subst.
  destruct (DbJob.job_id y =? id) eqn:E.
  - injection Hf as <-. f_equal.
    apply Z.eqb_eq in E.
    destruct (filter (fun r => DbJob.job_id r =? id) l) as [|z t] eqn:F; [reflexivity|].
    exfalso. assert (Hz : In z (filter (fun r => DbJob.job_id r =? id) l))
      by (rewrite F; now left).
    apply filter_In in Hz. destruct Hz as [Hz1 Hz2]. apply Z.eqb_eq in Hz2.
    apply Hnotin. rewrite E, <- Hz2. now apply in_map.
  - now apply IH.
Qed.

Lemma filter_job_id_missing (id : Z) (l : list DbJob.t) :
  find (fun r => DbJob.job_id r =? id) l = None ->
  filter (fun r => DbJob.job_id r =? id) l = [].
Proof.
  induction l as [|y l IH]; simpl; intro Hf; [reflexivity|].
  destruct (DbJob.job_id y =? id); [discriminate | now apply IH].
Qed.

Lemma filter_guard_split (id : Z) (prior : JobStatus) (l : list DbJob.t) :
  filter (guard id prior) l
  = filter (fun r => JobStatus_eqb (DbJob.status r) prior)
           (filter (fun r => DbJob.job_id r =? id) l).
Proof.
  induction l as [|y l IH]; simpl; [reflexivity|].
  unfold guard at 1. destruct (DbJob.job_id y =? id); simpl.
  - destruct (JobStatus_eqb (DbJob.status y) prior); [f_equal|]; exact IH.
  - exact IH.
Qed.

Lemma filter_nil_false {A : Type} (f : A -> bool) (l : list A) :
  filter f l = [] -> forall x, In x l -> f x = false.
Proof.
  induction l as [|y l IH]; simpl; intros H x Hin; [contradiction|].
  destruct (f y) eqn:E; [discriminate|].
  destruct Hin as [<- | Hin]; [exact E | now apply IH].
Qed.

Lemma Db_eta (d : Db) : mkDb (app_jobs d) (app_job_histories d) = d.
Proof. now destruct d. Qed.

Lemma Session_eta (db : Session) :
  mkSession (conn db) (committed db) (dirty db) (autoflush db) = db.
Proof. now destruct db. Qed.

(** The conditional UPDATE that matches no row writes nothing. *)
Lemma update_status_where_miss (now : datetime) (id : Z) (prior st : JobStatus) (d : Db) :
  filter (guard id prior) (app_jobs d) = [] ->
  update_status_where now id prior st d = (0, d).
Proof.
  intro H. unfold update_status_where. rewrite H. simpl. f_equal.
  destruct d as [rows hs]. simpl in *. f_equal.
  transitivity (map (fun r : DbJob.t => r) rows); [|apply map_id].
  apply map_ext_in. intros x Hx. now rewrite (filter_nil_false _ _ H x Hx).
Qed.

(** The conditional UPDATE that matches the job's row: status written,
    [status_at] stamped by the trigger, one history row inserted. *)
Lemma update_status_where_hit (now : datetime) (id : Z) (prior st : JobStatus)
    (d : Db) (r : DbJob.t) :
  pk_unique d ->
  row_of id d = Some r ->
  DbJob.status r = prior ->
  update_status_where now id prior st d
  = (1, mkDb (update_where_job_id id (fun x => with_status_at now (with_status st x))
                                  (app_jobs d))
             (app_job_histories d ++ [history_entry_of (app_job_histories d) r])).
Proof.
  intros Hpk Hrow Hst. unfold pk_unique, row_of in *.
  destruct (find_job_id_some _ _ _ Hrow) as [Hin Hid].
  unfold update_status_where.
  rewrite filter_guard_split, (filter_job_id_found _ _ _ Hpk Hrow).
  simpl. rewrite Hst, JobStatus_eqb_refl. simpl.
  unfold append_job_history. simpl. f_equal. f_equal.
  - rewrite Hid. unfold update_where_job_id. rewrite map_map.
    apply map_ext_in. intros x Hx.
    destruct (DbJob.job_id x =? id) eqn:E.
    + apply Z.eqb_eq in E.
      rewrite (pk_row_unique _ _ _ Hpk Hrow x Hx E).
      unfold guard. rewrite Hid, Z.eqb_refl, Hst, JobStatus_eqb_refl. simpl.
      now rewrite Hid, Z.eqb_refl.
    + unfold guard. rewrite E. simpl. now rewrite E.
Qed.

Lemma update_status_where_wrong_status (now : datetime) (id : Z) (prior st : JobStatus)
    (d : Db) (r : DbJob.t) :
  pk_unique d ->
  row_of id d = Some r ->
  DbJob.status r <> prior ->
  update_status_where now id prior st d = (0, d).
Proof.
  intros Hpk Hrow Hst. apply update_status_where_miss.
  rewrite filter_guard_split, (filter_job_id_found _ _ _ Hpk Hrow). simpl.
  apply JobStatus_eqb_neq in Hst. now rewrite Hst.
Qed.

Lemma update_status_where_missing (now : datetime) (id : Z) (prior st : JobStatus) (d : Db) :
  row_of id d = None ->
  update_status_where now id prior st d = (0, d).
Proof.
  intro Hrow. apply update_status_where_miss.
  rewrite filter_guard_split, (filter_job_id_missing _ _ Hrow). reflexivity.
Qed.

(** Whatever the table holds, a row count below one means nothing was
    written. *)
Lemma update_status_where_rowcount_0 (now : datetime) (id : Z) (prior st : JobStatus)
    (d : Db) :
  (fst (update_status_where now id prior st d) <? 1) = true ->
  update_status_where now id prior st d = (0, d).
Proof.
  intro H. apply update_status_where_miss.
  unfold update_status_where in H. simpl in H.
  destruct (filter (guard id prior) (app_jobs d)); [reflexivity|].
  simpl in H. apply Z.ltb_lt in H. lia.
Qed.

(** *** Flushing pending writes *)

Lemma patch_job_id (ws : list (Z * Assignment)) (r : DbJob.t) :
  DbJob.job_id (patch ws r) = DbJob.job_id r.
Proof.
  revert r. induction ws as [|w ws IH]; intro r; simpl; [reflexivity|].
  unfold patch in *. simpl. rewrite IH.
  destruct (DbJob.job_id r =? fst w); [|reflexivity].
  now destruct (snd w).
Qed.

Lemma patch_status (ws : list (Z * Assignment)) (r : DbJob.t) :
  DbJob.status (patch ws r) = DbJob.status r.
Proof.
  revert r. induction ws as [|w ws IH]; intro r; simpl; [reflexivity|].
  unfold patch in *. simpl. rewrite IH.
  destruct (DbJob.job_id r =? fst w); [|reflexivity].
  now destruct (snd w).
Qed.

Lemma patch_created_at (ws : list (Z * Assignment)) (r : DbJob.t) :
  DbJob.created_at (patch ws r) = DbJob.created_at r.
Proof.
  revert r. induction ws as [|w ws IH]; intro r; simpl; [reflexivity|].
  unfold patch in *. simpl. rewrite IH.
  destruct (DbJob.job_id r =? fst w); [|reflexivity].
  now destruct (snd w).
Qed.

Lemma fold_apply_assignment (ws : list (Z * Assignment)) (d : Db) :
  fold_left apply_assignment ws d
  = mkDb (map (patch ws) (app_jobs d)) (app_job_histories d).
Proof.
  revert d. induction ws as [|w ws IH]; intro d; simpl.
  - unfold patch. simpl. rewrite map_id. now rewrite Db_eta.
  - rewrite IH. unfold apply_assignment. simpl. f_equal.
    unfold update_where_job_id. rewrite map_map. apply map_ext.
    intro r. unfold patch. simpl.
    destruct (DbJob.job_id r =? fst w); [|reflexivity].
    now destruct (snd w).
Qed.

Lemma flush_conn (db : Session) :
  conn (flush db) = mkDb (map (patch (dirty db)) (app_jobs (conn db)))
                         (app_job_histories (conn db)).
Proof. unfold flush. simpl. apply fold_apply_assignment. Qed.

Lemma flush_clean (db : Session) : dirty db = [] -> flush db = db.
Proof.
  intro H. unfold flush. rewrite H. simpl. rewrite <- H. apply Session_eta.
Qed.

Lemma pre_execute_clean (db : Session) : dirty db = [] -> pre_execute db = db.
Proof.
  intro H. unfold pre_execute. destruct (autoflush db); [now apply flush_clean | reflexivity].
Qed.

Lemma pre_execute_cases (db : Session) :
  pre_execute db = db \/ pre_execute db = flush db.
Proof. unfold pre_execute. destruct (autoflush db); [now right | now left]. Qed.

Lemma flush_histories (db : Session) :
  app_job_histories (conn (flush db)) = app_job_histories (conn db).
Proof. now rewrite flush_conn. Qed.

Lemma flush_job_ids (db : Session) :
  map DbJob.job_id (app_jobs (conn (flush db))) = map DbJob.job_id (app_jobs (conn db)).
Proof. rewrite flush_conn. simpl. apply map_keeps_job_ids, patch_job_id. Qed.

Lemma flush_row_of (id : Z) (db : Session) :
  row_of id (conn (flush db)) = option_map (patch (dirty db)) (row_of id (conn db)).
Proof. unfold row_of. rewrite flush_conn. simpl. apply find_map_job_id, patch_job_id. Qed.

Lemma pre_execute_histories (db : Session) :
  app_job_histories (conn (pre_execute db)) = app_job_histories (conn db).
Proof.
  destruct (pre_execute_cases db) as [-> | ->]; [reflexivity | apply flush_histories].
Qed.

Lemma pre_execute_job_ids (db : Session) :
  map DbJob.job_id (app_jobs (conn (pre_execute db)))
  = map DbJob.job_id (app_jobs (conn db)).
Proof.
  destruct (pre_execute_cases db) as [-> | ->]; [reflexivity | apply flush_job_ids].
Qed.

Lemma pre_execute_committed (db : Session) : committed (pre_execute db) = committed db.
Proof. unfold pre_execute. now destruct (autoflush db). Qed.

Lemma pre_execute_autoflush (db : Session) : autoflush (pre_execute db) = autoflush db.
Proof. destruct (pre_execute_cases db) as [-> | ->]; reflexivity. Qed.

Lemma pre_execute_pk_unique (db : Session) :
  pk_unique (conn db) -> pk_unique (conn (pre_execute db)).
Proof. unfold pk_unique. now rewrite pre_execute_job_ids. Qed.

(** The status a statement sees is the status in the table: pending
    writes never touch the status column. *)
Lemma pre_execute_row_of (id : Z) (db : Session) (r : DbJob.t) :
  row_of id (conn db) = Some r ->
  exists r', row_of id (conn (pre_execute db)) = Some r'
             /\ DbJob.status r' = DbJob.status r
             /\ DbJob.job_id r' = DbJob.job_id r.
Proof.
  intro H. destruct (pre_execute_cases db) as [-> | ->].
  - now exists r.
  - exists (patch (dirty db) r). rewrite flush_row_of, H. simpl.
    split; [reflexivity|]. split; [apply patch_status | apply patch_job_id].
Qed.

Lemma pre_execute_row_of_none (id : Z) (db : Session) :
  row_of id (conn db) = None -> row_of id (conn (pre_execute db)) = None.
Proof.
  intro H. destruct (pre_execute_cases db) as [-> | ->]; [exact H|].
  now rewrite flush_row_of, H.
Qed.

(** ** The transition engine, case by case *)

Lemma or_empty_idem (message : option string) :
  or_empty (Some (or_empty message)) = or_empty message.
Proof. reflexivity. Qed.

Lemma _update_job_status_hit (now : datetime) (id : Z) (st : JobStatus)
    (nat_ : option datetime) (msg : option string) (db : Session) (r : DbJob.t) :
  pk_unique (conn (pre_execute db)) ->
  row_of id (conn (pre_execute db)) = Some r ->
  DbJob.status r = prior_status_for st ->
  _update_job_status now id st nat_ msg db
  = (Ok tt,
     mkSession
       (mkDb (update_where_job_id id (fun x => with_status_at now (with_status st x))
                                  (app_jobs (conn (pre_execute db))))
             (app_job_histories (conn (pre_execute db))
                ++ [history_entry_of (app_job_histories (conn (pre_execute db))) r]))
       (committed (pre_execute db))
       (dirty (pre_execute db) ++ transition_writes id nat_ msg)
       (autoflush (pre_execute db))).
Proof.
  intros Hpk Hrow Hst. unfold _update_job_status.
  rewrite (update_status_where_hit now id _ st _ r Hpk Hrow Hst).
  simpl. unfold setattr, transition_writes.
  destruct nat_; simpl; [rewrite <- app_assoc|]; reflexivity.
Qed.

Lemma _update_job_status_wrong_status (now : datetime) (id : Z) (st : JobStatus)
    (nat_ : option datetime) (msg : option string) (db : Session) (r : DbJob.t) :
  pk_unique (conn (pre_execute db)) ->
  row_of id (conn (pre_execute db)) = Some r ->
  DbJob.status r <> prior_status_for st ->
  _update_job_status now id st nat_ msg db
  = (Raise BadPriorStatusError,
     mkSession (conn (pre_execute db)) (committed (pre_execute db))
               (filter (fun w => negb (fst w =? id)) (dirty (pre_execute db)))
               (autoflush (pre_execute db))).
Proof.
  intros Hpk Hrow Hst. unfold _update_job_status.
  rewrite (update_status_where_wrong_status now id _ st _ r Hpk Hrow Hst).
  simpl. unfold refresh. simpl. rewrite Hrow. reflexivity.
Qed.

Lemma _update_job_status_missing (now : datetime) (id : Z) (st : JobStatus)
    (nat_ : option datetime) (msg : option string) (db : Session) :
  row_of id (conn (pre_execute db)) = None ->
  _update_job_status now id st nat_ msg db
  = (Raise InvalidRequestError, pre_execute db).
Proof.
  intro Hrow. unfold _update_job_status.
  rewrite (update_status_where_missing now id _ st _ Hrow).
  simpl. unfold refresh. simpl. rewrite Hrow. now rewrite Session_eta.
Qed.

(** Whenever the call raises [BadPriorStatusError], the statement wrote
    nothing: the tables are the ones it found. *)
Lemma _update_job_status_raise_tables (now : datetime) (id : Z) (st : JobStatus)
    (nat_ : option datetime) (msg : option string) (db db' : Session) (e : Exception) :
  _update_job_status now id st nat_ msg db = (Raise e, db') ->
  conn db' = conn (pre_execute db) /\ committed db' = committed db.
Proof.
  unfold _update_job_status.
  destruct (update_status_where now id (prior_status_for st) st (conn (pre_execute db)))
    as [rowcount tables] eqn:U.
  destruct (rowcount <? 1) eqn:R.
  - pose proof (update_status_where_rowcount_0 now id (prior_status_for st) st
                  (conn (pre_execute db))) as H0.
    rewrite U in H0. simpl in H0. specialize (H0 R). injection H0 as -> ->.
    unfold refresh. simpl.
    destruct (row_of id (conn (pre_execute db))); intro H; injection H as _ <-; simpl;
      split; try reflexivity; apply pre_execute_committed.
  - destruct nat_; discriminate.
Qed.

Lemma patch_transition_writes (now : datetime) (id : Z) (st : JobStatus)
    (nat_ : option datetime) (msg : option string) (rows : list DbJob.t) :
  map (patch (transition_writes id nat_ msg))
      (update_where_job_id id (fun x => with_status_at now (with_status st x)) rows)
  = update_where_job_id id (transition_row now st nat_ msg) rows.
Proof.
  unfold update_where_job_id. rewrite map_map. apply map_ext. intro x.
  unfold transition_writes, patch.
  destruct (DbJob.job_id x =? id) eqn:E.
  - destruct nat_; simpl; rewrite ?E; simpl; rewrite ?E; reflexivity.
  - destruct nat_; simpl; rewrite ?E; simpl; rewrite ?E; reflexivity.
Qed.

Lemma transition_row_job_id now st nat_ msg r :
  DbJob.job_id (transition_row now st nat_ msg r) = DbJob.job_id r.
Proof. reflexivity. Qed.

Lemma row_of_transition_tables now id st nat_ msg r d :
  row_of id d = Some r ->
  row_of id (transition_tables now id st nat_ msg r d)
  = Some (transition_row now st nat_ msg r).
Proof.
  intro H. unfold row_of, transition_tables in *. simpl.
  rewrite find_update_where_job_id by (intro; apply transition_row_job_id).
  now rewrite H.
Qed.

Lemma db_update_job_status_hit (now : datetime) (id : Z) (st : JobStatus)
    (nat_ : option datetime) (msg : option string) (db : Session) (r : DbJob.t) :
  pk_unique (conn db) ->
  dirty db = [] ->
  row_of id (conn db) = Some r ->
  DbJob.status r = prior_status_for st ->
  db_update_job_status now id st nat_ msg db
  = (Ok (transition_row now st nat_ msg r),
     mkSession (transition_tables now id st nat_ msg r (conn db))
               (transition_tables now id st nat_ msg r (conn db))
               [] (autoflush db)).
Proof.
  intros Hpk Hd Hrow Hst. unfold db_update_job_status.
  pose proof (pre_execute_clean db Hd) as Hpe.
  rewrite (_update_job_status_hit now id st nat_ _ db r);
    rewrite ?Hpe; try assumption.
  rewrite Hd. simpl app.
  unfold commit. rewrite flush_conn. simpl.
  change ((id, Set_message (or_empty msg))
            :: match nat_ with
               | Some t => [(id, Set_next_attempt_at t)]
               | None => []
               end) with (transition_writes id nat_ msg).
  rewrite patch_transition_writes.
  unfold refresh. simpl.
  change (transition_row now st nat_ (Some (or_empty msg)))
    with (transition_row now st nat_ msg).
  fold (transition_tables now id st nat_ msg r (conn db)).
  now rewrite (row_of_transition_tables now id st nat_ msg r (conn db) Hrow).
Qed.

Lemma db_update_job_status_wrong_status (now : datetime) (id : Z) (st : JobStatus)
    (nat_ : option datetime) (msg : option string) (db : Session) (r : DbJob.t) :
  pk_unique (conn db) ->
  row_of id (conn db) = Some r ->
  DbJob.status r <> prior_status_for st ->
  db_update_job_status now id st nat_ msg db
  = (Raise BadPriorStatusError,
     mkSession (committed db) (committed db) [] (autoflush db)).
Proof.
  intros Hpk Hrow Hst. unfold db_update_job_status.
  destruct (pre_execute_row_of id db r Hrow) as (r' & Hrow' & Hst' & _).
  rewrite (_update_job_status_wrong_status now id st nat_ _ db r');
    [| now apply pre_execute_pk_unique | exact Hrow' | congruence].
  unfold rollback. simpl.
  now rewrite pre_execute_committed, pre_execute_autoflush.
Qed.

Lemma sample_pk_unique : pk_unique sample_tables.
Proof.
  unfold pk_unique. simpl.
  repeat (constructor; [simpl; intuition discriminate|]). constructor.
Defined.

Ltac pk_sample := exact sample_pk_unique.

(** ** Transition engine: the guard *)

Lemma _update_job_status_conn (now : datetime) (id : Z) (st : JobStatus)
    (nat_ : option datetime) (msg : option string) (db : Session) :
  conn (snd (_update_job_status now id st nat_ msg db))
  = snd (update_status_where now id (prior_status_for st) st (conn (pre_execute db))).
Proof.
  unfold _update_job_status.
  destruct (update_status_where now id (prior_status_for st) st (conn (pre_execute db)))
    as [rowcount tables].
  destruct (rowcount <? 1).
  - unfold refresh. simpl. now destruct (row_of id tables).
  - now destruct nat_.
Qed.

Lemma _update_job_status_ok_iff (now : datetime) (id : Z) (st : JobStatus)
    (nat_ : option datetime) (msg : option string) (db : Session) :
  pk_unique (conn db) ->
  fst (_update_job_status now id st nat_ msg db) = Ok tt
  <-> exists r, row_of id (conn db) = Some r /\ DbJob.status r = prior_status_for st.
Proof.
  intro Hpk. apply pre_execute_pk_unique in Hpk. split.
  - intro Hok. destruct (row_of id (conn db)) as [r|] eqn:Hrow.
    + exists r. split; [reflexivity|].
      destruct (pre_execute_row_of id db r Hrow) as (r' & Hrow' & Hst' & _).
      destruct (JobStatus_eqb (DbJob.status r) (prior_status_for st)) eqn:E.
      * now apply JobStatus_eqb_eq.
      * apply JobStatus_eqb_neq in E. rewrite <- Hst' in E.
        rewrite (_update_job_status_wrong_status now id st nat_ msg db r' Hpk Hrow' E)
          in Hok.
        discriminate Hok.
    + apply pre_execute_row_of_none in Hrow.
      rewrite (_update_job_status_missing now id st nat_ msg db Hrow) in Hok.
      discriminate Hok.
  - intros (r & Hrow & Hst).
    destruct (pre_execute_row_of id db r Hrow) as (r' & Hrow' & Hst' & _).
    rewrite (_update_job_status_hit now id st nat_ msg db r' Hpk Hrow'); [reflexivity|].
    congruence.
Qed.

Lemma find_update_where_other (id other : Z) (g : DbJob.t -> DbJob.t) (l : list DbJob.t) :
  (forall x, DbJob.job_id (g x) = DbJob.job_id x) ->
  other <> id ->
  find (fun r => DbJob.job_id r =? other) (update_where_job_id id g l)
  = find (fun r => DbJob.job_id r =? other) l.
Proof.
  intros Hg Hne. induction l as [|x l IH]; simpl; [reflexivity|].
  destruct (DbJob.job_id x =? id) eqn:E.
  - rewrite Hg. apply Z.eqb_eq in E.
    replace (DbJob.job_id x =? other) with false by (symmetry; apply Z.eqb_neq; lia).
    exact IH.
  - destruct (DbJob.job_id x =? other); [reflexivity | exact IH].
Qed.

Lemma _update_job_status_applied (now : datetime) (id : Z) (st : JobStatus)
    (nat_ : option datetime) (msg : option string) (db db1 : Session) :
  pk_unique (conn db) ->
  _update_job_status now id st nat_ msg db = (Ok tt, db1) ->
  exists old,
    row_of id (conn (pre_execute db)) = Some old
    /\ DbJob.status old = prior_status_for st
    /\ db1 = mkSession
               (mkDb (update_where_job_id id (fun x => with_status_at now (with_status st x))
                                          (app_jobs (conn (pre_execute db))))
                     (app_job_histories (conn (pre_execute db))
                        ++ [history_entry_of (app_job_histories (conn (pre_execute db)))
                                             old]))
               (committed (pre_execute db))
               (dirty (pre_execute db) ++ transition_writes id nat_ msg)
               (autoflush (pre_execute db)).
Proof.
  intros Hpk Hok.
  pose proof (f_equal fst Hok) as Hfst. simpl in Hfst.
  apply (_update_job_status_ok_iff _ _ _ _ _ _ Hpk) in Hfst.
  destruct Hfst as (r & Hrow & Hst).
  destruct (pre_execute_row_of id db r Hrow) as (old & Hrow' & Hst' & _).
  assert (Hold : DbJob.status old = prior_status_for st) by congruence.
  exists old. split; [exact Hrow'|]. split; [exact Hold|].
  rewrite (_update_job_status_hit now id st nat_ msg db old
             (pre_execute_pk_unique db Hpk) Hrow' Hold) in Hok.
  now injection Hok as <-.
Qed.

(** C1.  The required prior status of each target is the one of the fixed
    table (PENDING after RUNNING, RUNNING after PENDING, DONE after RUNNING,
    CANCELED after PENDING), and a transition succeeds exactly when the
    job's row holds that prior status.  When it succeeds the status change
    is applied: the job's row then holds the target status (with
    [status_at] stamped by the trigger) and no other row is touched; when
    it raises, the tables are as the statement found them.  What the call
    does to the tables is what the one conditional UPDATE, guarded by the
    prior status, does. *)
Theorem transition_guarded_by_prior_status
    (now : datetime) (db_job : Z) (status : JobStatus)
    (next_attempt_at : option datetime) (message : option string) (db : Session) :
  pk_unique (conn db) ->
  (prior_status_for PENDING = RUNNING /\ prior_status_for RUNNING = PENDING
   /\ prior_status_for DONE = RUNNING /\ prior_status_for CANCELED = PENDING)
  /\ (fst (_update_job_status now db_job status next_attempt_at message db) = Ok tt
      <-> exists r, row_of db_job (conn db) = Some r
                    /\ DbJob.status r = prior_status_for status)
  /\ ((exists db_job', fst (db_update_job_status now db_job status next_attempt_at
                                                 message db) = Ok db_job')
      <-> exists r, row_of db_job (conn db) = Some r
                    /\ DbJob.status r = prior_status_for status)
  /\ conn (snd (_update_job_status now db_job status next_attempt_at message db))
     = snd (update_status_where now db_job (prior_status_for status) status
                                (conn (pre_execute db)))
  /\ (forall db1,
        _update_job_status now db_job status next_attempt_at message db = (Ok tt, db1) ->
        exists old,
          row_of db_job (conn (pre_execute db)) = Some old
          /\ DbJob.status old = prior_status_for status
          /\ row_of db_job (conn db1)
             = Some (DbJob.mk (DbJob.job_id old) (DbJob.created_at old)
                              (DbJob.next_attempt_at old) status now (DbJob.message old))
          /\ (forall other, other <> db_job ->
                row_of other (conn db1) = row_of other (conn (pre_execute db))))
  /\ (forall e db1,
        _update_job_status now db_job status next_attempt_at message db = (Raise e, db1) ->
        conn db1 = conn (pre_execute db))
  /\ (forall db_job' db',
        db_update_job_status now db_job status next_attempt_at message db
        = (Ok db_job', db') ->
        DbJob.status db_job' = status
        /\ row_of db_job (conn db') = Some db_job'
        /\ committed db' = conn db').
Proof.
  intro Hpk. split; [repeat split|].
  split; [now apply _update_job_status_ok_iff|].
  assert (Hsecond :
    (exists db_job', fst (db_update_job_status now db_job status next_attempt_at
                                               message db) = Ok db_job')
    <-> exists r, row_of db_job (conn db) = Some r
                  /\ DbJob.status r = prior_status_for status).
  { rewrite <- (_update_job_status_ok_iff now db_job status next_attempt_at
                  (Some (or_empty message)) db Hpk).
    unfold db_update_job_status.
    destruct (_update_job_status now db_job status next_attempt_at
                (Some (or_empty message)) db) as [[[]|e] db1] eqn:U; simpl.
    - split; [reflexivity|]. intros _.
      destruct (_update_job_status_applied _ _ _ _ _ _ _ Hpk U) as (old & Hrow' & _ & ->).
      unfold refresh, commit. rewrite flush_conn. simpl.
      unfold row_of in *. simpl.
      rewrite find_map_job_id by apply patch_job_id.
      rewrite find_update_where_job_id by reflexivity.
      rewrite Hrow'. simpl. eexists. reflexivity.
    - split; [|discriminate]. intros [x Hx]. destruct e; discriminate Hx. }
  split; [exact Hsecond|].
  split; [apply _update_job_status_conn|].
  split; [|split].
  - intros db1 Hok.
    destruct (_update_job_status_applied _ _ _ _ _ _ _ Hpk Hok)
      as (old & Hrow' & Hold & ->).
    exists old. split; [exact Hrow'|]. split; [exact Hold|]. cbn [conn]. split.
    + unfold row_of in *. cbn [app_jobs].
      rewrite find_update_where_job_id by reflexivity. now rewrite Hrow'.
    + intros other Hother. unfold row_of. cbn [app_jobs].
      now apply find_update_where_other.
  - intros e db1 Hraise.
    exact (proj1 (_update_job_status_raise_tables _ _ _ _ _ _ _ _ Hraise)).
  - intros db_job' db' Hup. unfold db_update_job_status in Hup.
    destruct (_update_job_status now db_job status next_attempt_at
                (Some (or_empty message)) db) as [[[]|e] db1] eqn:U.
    + destruct (_update_job_status_applied _ _ _ _ _ _ _ Hpk U)
        as (old & Hrow' & Hold & ->).
      unfold refresh, commit in Hup. rewrite flush_conn in Hup. simpl in Hup.
      unfold row_of in *. simpl in Hup.
      rewrite find_map_job_id in Hup by apply patch_job_id.
      rewrite find_update_where_job_id in Hup by reflexivity.
      rewrite Hrow' in Hup. simpl in Hup. injection Hup as <- <-.
      split; [now rewrite patch_status|].
      split; [|reflexivity]. simpl.
      rewrite find_map_job_id by apply patch_job_id.
      rewrite find_update_where_job_id by reflexivity.
      now rewrite Hrow'.
    + destruct e; discriminate Hup.
Qed.

(** The guard on the sample data: job 1 is PENDING, so it can be canceled,
    and the UPDATE leaves its row CANCELED. *)
Lemma transition_guarded_by_prior_status_witness :
  (fst (_update_job_status 9000 1 CANCELED None (Some "X"%string) sample_session) = Ok tt
   <-> exists r, row_of 1 (conn sample_session) = Some r
                 /\ DbJob.status r = prior_status_for CANCELED)
  /\ exists old,
       row_of 1 (conn (pre_execute sample_session)) = Some old
       /\ DbJob.status old = prior_status_for CANCELED
       /\ row_of 1 (conn (snd (_update_job_status 9000 1 CANCELED None (Some "X"%string)
                                                  sample_session)))
          = Some (DbJob.mk (DbJob.job_id old) (DbJob.created_at old)
                           (DbJob.next_attempt_at old) CANCELED 9000 (DbJob.message old))
       /\ (forall other, other <> 1 ->
             row_of other (conn (snd (_update_job_status 9000 1 CANCELED None
                                                         (Some "X"%string) sample_session)))
             = row_of other (conn (pre_execute sample_session))).
Proof.
  pose proof (transition_guarded_by_prior_status 9000 1 CANCELED None (Some "X"%string)
                sample_session sample_pk_unique) as (_ & Hiff & _ & _ & Happlied & _).
  split; [exact Hiff|].
  apply (Happlied (snd (_update_job_status 9000 1 CANCELED None (Some "X"%string)
                                           sample_session))).
  reflexivity.
Defined.

(** ** Transition engine: a failed transition writes nothing *)

(** C2.  When the job's row does not hold the prior status the target
    requires, [db_update_job_status] raises [BadPriorStatusError] and
    leaves the session rolled back to the committed tables, and
    [_update_job_status] raises it with the tables, the history among them,
    as the statement found them; from a session without pending writes both
    give the session back as it was. *)
Theorem failed_transition_writes_nothing
    (now : datetime) (db_job : Z) (status : JobStatus)
    (next_attempt_at : option datetime) (message : option string)
    (db : Session) (r : DbJob.t) :
  pk_unique (conn db) ->
  row_of db_job (conn db) = Some r ->
  DbJob.status r <> prior_status_for status ->
  db_update_job_status now db_job status next_attempt_at message db
  = (Raise BadPriorStatusError,
     mkSession (committed db) (committed db) [] (autoflush db))
  /\ (exists db',
         _update_job_status now db_job status next_attempt_at message db
         = (Raise BadPriorStatusError, db')
         /\ conn db' = conn (pre_execute db)
         /\ committed db' = committed db
         /\ app_job_histories (conn db') = app_job_histories (conn db))
  /\ (dirty db = [] ->
      _update_job_status now db_job status next_attempt_at message db
      = (Raise BadPriorStatusError, db))
  /\ (dirty db = [] -> conn db = committed db ->
      db_update_job_status now db_job status next_attempt_at message db
      = (Raise BadPriorStatusError, db)).
Proof.
  intros Hpk Hrow Hst.
  pose proof (db_update_job_status_wrong_status now db_job status next_attempt_at
                message db r Hpk Hrow Hst) as Hup.
  destruct (pre_execute_row_of db_job db r Hrow) as (r' & Hrow' & Hst' & _).
  assert (Hst'' : DbJob.status r' <> prior_status_for status) by congruence.
  pose proof (_update_job_status_wrong_status now db_job status next_attempt_at
                message db r' (pre_execute_pk_unique db Hpk) Hrow' Hst'') as Hlow.
  split; [exact Hup|]. split; [|split].
  - eexists. split; [exact Hlow|]. simpl.
    split; [reflexivity|]. split; [apply pre_execute_committed|].
    apply pre_execute_histories.
  - intro Hd. rewrite Hlow, (pre_execute_clean db Hd), Hd. simpl.
    now rewrite <- Hd, Session_eta.
  - intros Hd Hc. rewrite Hup. f_equal.
    rewrite <- (Session_eta db), Hd, Hc. reflexivity.
Qed.

(** Job 2 of the sample data is RUNNING; CANCELED needs PENDING. *)
Lemma failed_transition_writes_nothing_witness :
  db_update_job_status 9000 2 CANCELED None (Some "X"%string) sample_session
  = (Raise BadPriorStatusError, sample_session).
Proof.
  apply (failed_transition_writes_nothing 9000 2 CANCELED None (Some "X"%string)
           sample_session sample_running).
  - simpl. pk_sample.
  - reflexivity.
  - simpl. discriminate.
  - reflexivity.
  - reflexivity.
Defined.

(** ** Transition engine: what a successful transition writes *)

(** C4, as the code has it.  A successful transition leaves the job's row
    with the new status, [status_at] equal to the clock the trigger read,
    [message] equal to the supplied text (the empty string when none was
    supplied) and [next_attempt_at] equal to the supplied value; when no
    value is supplied the stored [next_attempt_at] stays as it was.  The
    row is committed and every other row is left alone. *)
Theorem transition_effect
    (now : datetime) (db_job : Z) (status : JobStatus)
    (next_attempt_at : option datetime) (message : option string)
    (db : Session) (r : DbJob.t) :
  pk_unique (conn db) ->
  dirty db = [] ->
  row_of db_job (conn db) = Some r ->
  DbJob.status r = prior_status_for status ->
  let db_job' :=
    DbJob.mk (DbJob.job_id r) (DbJob.created_at r)
             (match next_attempt_at with
              | Some t => t
              | None => DbJob.next_attempt_at r
              end)
             status now
             (Some (match message with Some m => m | None => EmptyString end)) in
  exists db',
    db_update_job_status now db_job status next_attempt_at message db = (Ok db_job', db')
    /\ row_of db_job (conn db') = Some db_job'
    /\ committed db' = conn db'
    /\ dirty db' = []
    /\ (forall other, other <> db_job -> row_of other (conn db') = row_of other (conn db)).
Proof.
  intros Hpk Hd Hrow Hst db_job'.
  rewrite (db_update_job_status_hit now db_job status next_attempt_at message db r
             Hpk Hd Hrow Hst).
  eexists. split; [reflexivity|]. simpl.
  split; [now apply row_of_transition_tables|].
  split; [reflexivity|]. split; [reflexivity|].
  intros other Hother. unfold row_of, transition_tables. simpl.
  generalize (app_jobs (conn db)). intro rows.
  induction rows as [|x rows IH]; simpl; [reflexivity|].
  destruct (DbJob.job_id x =? db_job) eqn:E; simpl.
  - apply Z.eqb_eq in E. rewrite E.
    destruct (db_job =? other) eqn:F; [apply Z.eqb_eq in F; congruence | exact IH].
  - destruct (DbJob.job_id x =? other); [reflexivity | exact IH].
Qed.

(** Canceling job 1 of the sample data with message "X". *)
Lemma transition_effect_witness :
  exists db',
    db_update_job_status 9000 1 CANCELED None (Some "X"%string) sample_session
    = (Ok (DbJob.mk 1 1000 5000 CANCELED 9000 (Some "X"%string)), db')
    /\ row_of 1 (conn db') = Some (DbJob.mk 1 1000 5000 CANCELED 9000 (Some "X"%string))
    /\ committed db' = conn db'
    /\ dirty db' = []
    /\ (forall other, other <> 1 -> row_of other (conn db') = row_of other (conn sample_session)).
Proof.
  apply (transition_effect 9000 1 CANCELED None (Some "X"%string)
           sample_session sample_pending).
  - simpl. pk_sample.
  - reflexivity.
  - reflexivity.
  - reflexivity.
Defined.

(** C4 read to the letter fails: job 2 of the sample data goes from
    RUNNING back to PENDING with no [next_attempt_at] supplied, and the
    transition does not blank the field: the row keeps the old value 2000,
    and the external view of the job shows it. *)
Lemma transition_keeps_next_attempt_at_when_none_given :
  exists db_job' db',
    db_update_job_status 9000 2 PENDING None None sample_session = (Ok db_job', db')
    /\ DbJob.next_attempt_at db_job' = 2000
    /\ Job.next_attempt_at (Job.from_orm db_job') = Some 2000
    /\ Job.next_attempt_at (Job.from_orm db_job') <> None.
Proof.
  eexists. eexists. split; [vm_compute; reflexivity|].
  simpl. split; [reflexivity|]. split; [reflexivity | discriminate].
Qed.

(** ** History rows are only ever appended *)

Lemma history_kept_refl (db : Session) : history_consistent db -> history_kept db db.
Proof. intro H. split; [apply extends_refl | exact H]. Qed.

Lemma history_kept_trans (a b c : Session) :
  history_kept a b -> history_kept b c -> history_kept a c.
Proof.
  intros [H1 _] [H2 H3]. split; [eapply extends_trans; eassumption | exact H3].
Qed.

Lemma history_kept_consistent (a b : Session) : history_kept a b -> history_consistent b.
Proof. now intros [_ H]. Qed.

(** A step that leaves the committed history alone and only adds to the
    open one. *)
Lemma history_kept_open (db db' : Session) :
  history_consistent db ->
  persisted_history db' = persisted_history db ->
  extends (app_job_histories (conn db)) (app_job_histories (conn db')) ->
  history_kept db db'.
Proof.
  intros Hc Hp Ho. split.
  - rewrite Hp. apply extends_refl.
  - unfold history_consistent. rewrite Hp.
    eapply extends_trans; [exact Hc | exact Ho].
Qed.

Lemma pre_execute_kept (db : Session) :
  history_consistent db -> history_kept db (pre_execute db).
Proof.
  intro Hc. apply history_kept_open; [exact Hc | |].
  - unfold persisted_history. now rewrite pre_execute_committed.
  - rewrite pre_execute_histories. apply extends_refl.
Qed.

Lemma commit_kept (db : Session) : history_consistent db -> history_kept db (commit db).
Proof.
  intro Hc. unfold history_kept, history_consistent, persisted_history, commit.
  simpl. rewrite fold_apply_assignment. simpl. split; [exact Hc | apply extends_refl].
Qed.

Lemma rollback_kept (db : Session) : history_kept db (rollback db).
Proof.
  unfold history_kept, history_consistent, persisted_history, rollback. simpl.
  split; apply extends_refl.
Qed.

Lemma setattr_kept (id : Z) (a : Assignment) (db : Session) :
  history_consistent db -> history_kept db (setattr id a db).
Proof. intro Hc. apply history_kept_open; [exact Hc | reflexivity | apply extends_refl]. Qed.

Lemma refresh_kept (id : Z) (db : Session) :
  history_consistent db -> history_kept db (snd (refresh id db)).
Proof.
  intro Hc. unfold refresh. destruct (row_of id (conn db)); simpl.
  - apply history_kept_open; [exact Hc | reflexivity | apply extends_refl].
  - now apply history_kept_refl.
Qed.

Lemma fold_append_job_history_extends (now : datetime) (st : JobStatus)
    (matched : list DbJob.t) (acc : Db) :
  extends (app_job_histories acc)
    (app_job_histories
       (fold_left (fun acc old => append_job_history now old (with_status st old) acc)
                  matched acc)).
Proof.
  revert acc. induction matched as [|m matched IH]; intro acc; simpl.
  - apply extends_refl.
  - eapply extends_trans; [|apply IH]. simpl. apply extends_app.
Qed.

Lemma update_status_where_extends (now : datetime) (id : Z) (prior st : JobStatus) (d : Db) :
  extends (app_job_histories d)
          (app_job_histories (snd (update_status_where now id prior st d))).
Proof.
  unfold update_status_where. simpl.
  exact (fold_append_job_history_extends now st _
           (mkDb (map (fun r => if guard id prior r then with_status st r else r)
                      (app_jobs d))
                 (app_job_histories d))).
Qed.

Lemma _update_job_status_committed (now : datetime) (id : Z) (st : JobStatus)
    (nat_ : option datetime) (msg : option string) (db : Session) :
  committed (snd (_update_job_status now id st nat_ msg db)) = committed db.
Proof.
  unfold _update_job_status.
  destruct (update_status_where now id (prior_status_for st) st (conn (pre_execute db)))
    as [rowcount tables].
  destruct (rowcount <? 1).
  - unfold refresh. simpl. destruct (row_of id tables); simpl; apply pre_execute_committed.
  - destruct nat_; simpl; apply pre_execute_committed.
Qed.

Lemma _update_job_status_kept (now : datetime) (id : Z) (st : JobStatus)
    (nat_ : option datetime) (msg : option string) (db : Session) :
  history_consistent db ->
  history_kept db (snd (_update_job_status now id st nat_ msg db)).
Proof.
  intro Hc. apply history_kept_open; [exact Hc | |].
  - unfold persisted_history. now rewrite _update_job_status_committed.
  - rewrite _update_job_status_conn, <- (pre_execute_histories db).
    apply update_status_where_extends.
Qed.

Lemma db_update_job_status_kept (now : datetime) (id : Z) (st : JobStatus)
    (nat_ : option datetime) (msg : option string) (db : Session) :
  history_consistent db ->
  history_kept db (snd (db_update_job_status now id st nat_ msg db)).
Proof.
  intro Hc. unfold db_update_job_status.
  pose proof (_update_job_status_kept now id st nat_ (Some (or_empty msg)) db Hc) as H.
  destruct (_update_job_status now id st nat_ (Some (or_empty msg)) db)
    as [[[]|e] db1]; simpl in H.
  - eapply history_kept_trans; [exact H|].
    eapply history_kept_trans; [apply commit_kept; now destruct H|].
    apply refresh_kept. eapply history_kept_consistent. apply commit_kept. now destruct H.
  - destruct e; simpl; try exact H.
    eapply history_kept_trans; [exact H | apply rollback_kept].
Qed.

Lemma db_insert_job_kept (now : datetime) (nat_ : option datetime)
    (msg : option string) (db : Session) :
  history_consistent db ->
  history_kept db (snd (db_insert_job now nat_ msg db)).
Proof.
  intro Hc. unfold db_insert_job, insert_app_jobs.
  set (s1 := mkSession _ _ _ _).
  assert (H1 : history_kept db s1).
  { apply history_kept_open; [exact Hc | reflexivity |].
    subst s1. simpl. rewrite fold_apply_assignment. simpl. apply extends_refl. }
  eapply history_kept_trans; [exact H1|].
  eapply history_kept_trans; [apply commit_kept; now destruct H1|].
  apply refresh_kept. eapply history_kept_consistent. apply commit_kept. now destruct H1.
Qed.

Lemma advance_job_kept (dr : Draw) (db_job : DbJob.t) (w : World) :
  history_consistent (fst w) ->
  history_kept (fst w) (fst (snd (advance_job dr db_job w))).
Proof.
  destruct w as [db log]. simpl. intro Hc. unfold advance_job.
  destruct (choose_target dr db_job) as [tg|]; [|now apply history_kept_refl].
  pose proof (_update_job_status_kept (sql_now dr) (DbJob.job_id db_job)
                (target_status tg) (target_next_attempt_at tg) (target_message tg)
                db Hc) as H.
  destruct (_update_job_status (sql_now dr) (DbJob.job_id db_job) (target_status tg)
              (target_next_attempt_at tg) (target_message tg) db)
    as [[[]|e] db1]; simpl in H.
  - assert (H2 : history_kept db (commit db1)).
    { eapply history_kept_trans; [exact H | apply commit_kept; now destruct H]. }
    destruct (target_status_at tg) as [t|]; [|exact H2].
    set (db2 := commit (setattr (DbJob.job_id db_job) (Set_status_at t) (commit db1))).
    assert (H3 : history_kept db db2).
    { eapply history_kept_trans; [exact H2|].
      eapply history_kept_trans; [apply setattr_kept; now destruct H2|].
      apply commit_kept. eapply history_kept_consistent.
      apply setattr_kept. now destruct H2. }
    pose proof (refresh_kept (DbJob.job_id db_job) db2 (history_kept_consistent _ _ H3)) as H4.
    destruct (refresh (DbJob.job_id db_job) db2) as [[r|e] db3]; simpl in H4.
    + destruct (DbJob.status_at r =? t); simpl;
        eapply history_kept_trans; eassumption.
    + simpl. eapply history_kept_trans; eassumption.
  - destruct e; simpl; exact H.
Qed.

Lemma advance_jobs_kept (draw : nat -> Draw) (db_jobs : list DbJob.t) :
  forall (k : nat) (w : World),
    history_consistent (fst w) ->
    history_kept (fst w) (fst (snd (advance_jobs draw k db_jobs w))).
Proof.
  induction db_jobs as [|db_job rest IH]; intros k w Hc; simpl.
  - now apply history_kept_refl.
  - pose proof (advance_job_kept (draw k) db_job w Hc) as H.
    destruct (advance_job (draw k) db_job w) as [[[]|e] w1]; simpl in H.
    + eapply history_kept_trans; [exact H|].
      apply IH. now destruct H.
    + exact H.
Qed.

Lemma db_fake_advance_jobs_kept (oracle : nat -> Scan) (fuel : nat) :
  forall (i : nat) (w : World),
    history_consistent (fst w) ->
    history_kept (fst w) (fst (snd (db_fake_advance_jobs fuel oracle i w))).
Proof.
  induction fuel as [|fuel IH]; intros i w Hc; simpl.
  - now apply history_kept_refl.
  - pose proof (pre_execute_kept (fst w) Hc) as Hpe.
    destruct (filter (executable (utcnow (oracle i))) (app_jobs (conn (pre_execute (fst w)))))
      as [|j js]; [exact Hpe|].
    pose proof (advance_jobs_kept (draw (oracle i)) (j :: js) 0
                  (pre_execute (fst w), snd w) (history_kept_consistent _ _ Hpe)) as H.
    simpl fst in H at 1.
    destruct (advance_jobs (draw (oracle i)) 0 (j :: js) (pre_execute (fst w), snd w))
      as [[[]|e] w1]; simpl in H.
    + eapply history_kept_trans; [exact Hpe|].
      eapply history_kept_trans; [exact H|].
      apply IH. now destruct H.
    + simpl. eapply history_kept_trans; eassumption.
Qed.

Lemma db_select_job_session (job_id : Z) (db : Session) :
  snd (db_select_job job_id db) = pre_execute db.
Proof.
  unfold db_select_job.
  destruct (filter (fun r => DbJob.job_id r =? job_id) (app_jobs (conn (pre_execute db))))
    as [|r [|r' l]]; reflexivity.
Qed.

Lemma summary_kept (db : Session) :
  history_consistent db -> history_kept db (snd (summary db)).
Proof. intro Hc. unfold summary. simpl. now apply pre_execute_kept. Qed.

Lemma job_kept (job_id : Z) (db : Session) :
  history_consistent db -> history_kept db (snd (job job_id db)).
Proof.
  intro Hc. unfold job.
  pose proof (db_select_job_session job_id db) as Hs.
  destruct (db_select_job job_id db) as [[r|e] db1]; simpl in Hs; subst db1.
  - now apply pre_execute_kept.
  - destruct e; now apply pre_execute_kept.
Qed.

Lemma job_history_kept (job_id skip limit : Z) (db : Session) :
  history_consistent db -> history_kept db (snd (job_history job_id skip limit db)).
Proof.
  intro Hc. unfold job_history.
  pose proof (db_select_job_session job_id db) as Hs.
  pose proof (pre_execute_kept db Hc) as Hpe.
  destruct (db_select_job job_id db) as [[r|e] db1]; simpl in Hs; subst db1.
  - unfold db_select_job_histories. simpl.
    eapply history_kept_trans; [exact Hpe|].
    apply pre_execute_kept. now destruct Hpe.
  - destruct e; exact Hpe.
Qed.

Lemma jobs_kept (status : option JobStatus) (skip limit : Z) (db : Session) :
  history_consistent db -> history_kept db (snd (jobs status skip limit db)).
Proof. intro Hc. unfold jobs, db_select_jobs. simpl. now apply pre_execute_kept. Qed.

Lemma new_job_kept (now : datetime) (nat_ : option datetime) (msg : option string)
    (db : Session) :
  history_consistent db -> history_kept db (snd (new_job now nat_ msg db)).
Proof.
  intro Hc. unfold new_job.
  pose proof (db_insert_job_kept now nat_ msg db Hc) as H.
  destruct (db_insert_job now nat_ msg db) as [[r|e] db1]; exact H.
Qed.

Lemma cancel_job_kept (now : datetime) (job_id : Z) (nat_ : option datetime)
    (msg : option string) (db : Session) :
  history_consistent db -> history_kept db (snd (cancel_job now job_id nat_ msg db)).
Proof.
  intro Hc. unfold cancel_job.
  pose proof (db_select_job_session job_id db) as Hs.
  pose proof (pre_execute_kept db Hc) as Hpe.
  destruct (db_select_job job_id db) as [[r|e] db1]; simpl in Hs; subst db1.
  - pose proof (db_update_job_status_kept now (DbJob.job_id r) CANCELED nat_ msg
                  (pre_execute db) (history_kept_consistent _ _ Hpe)) as H.
    destruct (db_update_job_status now (DbJob.job_id r) CANCELED nat_ msg (pre_execute db))
      as [[r'|e] db2]; simpl in H.
    + simpl. eapply history_kept_trans; eassumption.
    + assert (H2 : history_kept db db2) by (eapply history_kept_trans; eassumption).
      destruct e; try exact H2.
      pose proof (refresh_kept (DbJob.job_id r) db2 (history_kept_consistent _ _ H2)) as H3.
      destruct (refresh (DbJob.job_id r) db2) as [[r''|e'] db3]; simpl in *;
        eapply history_kept_trans; eassumption.
  - destruct e; exact Hpe.
Qed.

Lemma _fake_advance_jobs_hack_kept {A : Type} (fuel : nat) (oracle : nat -> Scan)
    (func : Session -> Response A * Session) (w : World) :
  (forall db, history_consistent db -> history_kept db (snd (func db))) ->
  history_consistent (fst w) ->
  history_kept (fst w) (fst (snd (_fake_advance_jobs_hack fuel oracle func w))).
Proof.
  intros Hf Hc. unfold _fake_advance_jobs_hack.
  pose proof (db_fake_advance_jobs_kept oracle fuel 0 w Hc) as H.
  destruct (db_fake_advance_jobs fuel oracle 0 w) as [[[[]|e]|] [db1 log1]];
    simpl in H; try exact H.
  - pose proof (Hf db1 (history_kept_consistent _ _ H)) as H2.
    destruct (func db1) as [res db2]. simpl in *.
    eapply history_kept_trans; eassumption.
  - pose proof (Hf db1 (history_kept_consistent _ _ H)) as H2.
    destruct (func db1) as [res db2]. simpl in *.
    eapply history_kept_trans; eassumption.
Qed.

Lemma serve_kept (fuel : nat) (oracle : nat -> Scan) (now : datetime)
    (req : Request) (w : World) :
  history_consistent (fst w) ->
  history_kept (fst w) (fst (snd (serve fuel oracle now req w))).
Proof.
  intro Hc. destruct req; simpl.
  - apply _fake_advance_jobs_hack_kept; [|exact Hc]. intros db Hdb. now apply summary_kept.
  - apply _fake_advance_jobs_hack_kept; [|exact Hc]. intros db Hdb. now apply job_kept.
  - destruct (query_bounds skip limit); [|now apply history_kept_refl].
    apply _fake_advance_jobs_hack_kept; [|exact Hc]. intros db Hdb.
    now apply job_history_kept.
  - apply _fake_advance_jobs_hack_kept; [|exact Hc]. intros db Hdb.
    now apply cancel_job_kept.
  - apply _fake_advance_jobs_hack_kept; [|exact Hc]. intros db Hdb.
    now apply new_job_kept.
  - destruct (query_bounds skip limit); [|now apply history_kept_refl].
    apply _fake_advance_jobs_hack_kept; [|exact Hc]. intros db Hdb. now apply jobs_kept.
Qed.

Lemma run_kept (calls : list Call) :
  forall w : World,
    history_consistent (fst w) -> history_kept (fst w) (fst (run calls w)).
Proof.
  induction calls as [|c calls IH]; intros w Hc; simpl.
  - now apply history_kept_refl.
  - pose proof (serve_kept (call_fuel c) (call_oracle c) (call_now c)
                  (call_request c) w Hc) as H.
    eapply history_kept_trans; [exact H|].
    apply IH. now destruct H.
Qed.

Lemma db_update_job_status_ok (now : datetime) (id : Z) (st : JobStatus)
    (nat_ : option datetime) (msg : option string) (db : Session) (r : DbJob.t) :
  pk_unique (conn db) ->
  row_of id (conn (pre_execute db)) = Some r ->
  DbJob.status r = prior_status_for st ->
  exists db_job' db',
    db_update_job_status now id st nat_ msg db = (Ok db_job', db')
    /\ app_job_histories (conn db')
       = app_job_histories (conn db) ++ [history_entry_of (app_job_histories (conn db)) r]
    /\ committed db' = conn db'.
Proof.
  intros Hpk Hrow Hst. unfold db_update_job_status.
  rewrite (_update_job_status_hit now id st nat_ _ db r
             (pre_execute_pk_unique db Hpk) Hrow Hst).
  unfold refresh, commit. rewrite flush_conn. simpl.
  unfold row_of in *. simpl.
  rewrite find_map_job_id by apply patch_job_id.
  rewrite find_update_where_job_id by reflexivity.
  rewrite Hrow. simpl. eexists. eexists. split; [reflexivity|]. simpl.
  rewrite pre_execute_histories. split; reflexivity.
Qed.

(** C3.  A successful transition appends exactly one history row, holding
    the job_id, status, status_at and message the job's row had when the
    UPDATE ran (the state being left, not the new one); the row is
    committed with the transition, and whatever requests the application
    serves afterwards, the committed history still starts with the same
    rows: none is updated or deleted. *)
Theorem transition_appends_one_history_row
    (now : datetime) (db_job : Z) (status : JobStatus)
    (next_attempt_at : option datetime) (message : option string)
    (db db1 : Session) :
  pk_unique (conn db) ->
  _update_job_status now db_job status next_attempt_at message db = (Ok tt, db1) ->
  exists old,
    row_of db_job (conn (pre_execute db)) = Some old
    /\ DbJob.status old = prior_status_for status
    /\ let entry :=
         DbJobHistory.mk
           (next_rowid (map DbJobHistory.job_history_id (app_job_histories (conn db))))
           db_job (DbJob.status old) (DbJob.status_at old) (DbJob.message old) in
       app_job_histories (conn db1) = app_job_histories (conn db) ++ [entry]
       /\ exists db_job' db',
            db_update_job_status now db_job status next_attempt_at message db
            = (Ok db_job', db')
            /\ app_job_histories (conn db') = app_job_histories (conn db) ++ [entry]
            /\ persisted_history db' = app_job_histories (conn db) ++ [entry]
            /\ forall (calls : list Call) (log : list LogRecord),
                 extends (app_job_histories (conn db) ++ [entry])
                         (persisted_history (fst (run calls (db', log)))).
Proof.
  intros Hpk Hok.
  pose proof (f_equal fst Hok) as Hfst. simpl in Hfst.
  apply (_update_job_status_ok_iff _ _ _ _ _ _ Hpk) in Hfst.
  destruct Hfst as (r & Hrow & Hst).
  destruct (pre_execute_row_of db_job db r Hrow) as (old & Hrow' & Hst' & Hid').
  assert (Hold : DbJob.status old = prior_status_for status) by congruence.
  assert (Hjid : DbJob.job_id old = db_job).
  { unfold row_of in Hrow'. now destruct (find_job_id_some _ _ _ Hrow'). }
  exists old. split; [exact Hrow'|]. split; [exact Hold|].
  intro entry.
  assert (Hentry : entry = history_entry_of (app_job_histories (conn db)) old).
  { subst entry. unfold history_entry_of. now rewrite Hjid. }
  rewrite (_update_job_status_hit now db_job status next_attempt_at message db old
             (pre_execute_pk_unique db Hpk) Hrow' Hold) in Hok.
  injection Hok as <-. simpl. rewrite pre_execute_histories, Hentry.
  split; [reflexivity|].
  destruct (db_update_job_status_ok now db_job status next_attempt_at message db old
              Hpk Hrow' Hold) as (db_job' & db' & Hup & Hhist & Hcommitted).
  exists db_job', db'. split; [exact Hup|]. split; [exact Hhist|].
  assert (Hp : persisted_history db'
               = app_job_histories (conn db)
                   ++ [history_entry_of (app_job_histories (conn db)) old]).
  { unfold persisted_history. now rewrite Hcommitted. }
  split; [exact Hp|].
  intros calls log. rewrite <- Hp.
  apply (run_kept calls (db', log)). simpl.
  unfold history_consistent, persisted_history. rewrite Hcommitted. apply extends_refl.
Qed.

(** Canceling job 1 of the sample data: the fourth history row records
    the PENDING state that was left. *)
Lemma transition_appends_one_history_row_witness :
  exists old,
    row_of 1 (conn (pre_execute sample_session)) = Some old
    /\ DbJob.status old = prior_status_for CANCELED
    /\ let entry :=
         DbJobHistory.mk
           (next_rowid (map DbJobHistory.job_history_id
                            (app_job_histories (conn sample_session))))
           1 (DbJob.status old) (DbJob.status_at old) (DbJob.message old) in
       app_job_histories
         (conn (snd (_update_job_status 9000 1 CANCELED None (Some "X"%string)
                                        sample_session)))
       = app_job_histories (conn sample_session) ++ [entry]
       /\ exists db_job' db',
            db_update_job_status 9000 1 CANCELED None (Some "X"%string) sample_session
            = (Ok db_job', db')
            /\ app_job_histories (conn db')
               = app_job_histories (conn sample_session) ++ [entry]
            /\ persisted_history db'
               = app_job_histories (conn sample_session) ++ [entry]
            /\ forall (calls : list Call) (log : list LogRecord),
                 extends (app_job_histories (conn sample_session) ++ [entry])
                         (persisted_history (fst (run calls (db', log)))).
Proof.
  apply (transition_appends_one_history_row 9000 1 CANCELED None (Some "X"%string)
           sample_session
           (snd (_update_job_status 9000 1 CANCELED None (Some "X"%string)
                                    sample_session))).
  - simpl. pk_sample.
  - reflexivity.
Defined.

(** ** External views *)

Lemma from_orm_only_when_pending (o : DbJob.t) :
  next_attempt_at_only_when_pending (Job.from_orm o).
Proof.
  unfold next_attempt_at_only_when_pending, Job.from_orm, Job.blank_next_attempt_at.
  simpl. destruct (DbJob.status o); simpl; intro H; try reflexivity.
  now elim H.
Qed.

Lemma _fake_advance_jobs_hack_jobs (P : Job.t -> Prop) (fuel : nat)
    (oracle : nat -> Scan) (func : Session -> Response Body * Session) (w : World) :
  (forall db, Forall P (jobs_of_response (fst (func db)))) ->
  Forall P (jobs_of_answer (fst (_fake_advance_jobs_hack fuel oracle func w))).
Proof.
  intro Hf. unfold _fake_advance_jobs_hack.
  destruct (db_fake_advance_jobs fuel oracle 0 w) as [[[[]|e]|] [db1 log1]].
  - specialize (Hf db1). destruct (func db1) as [res db2]. exact Hf.
  - specialize (Hf db1). destruct (func db1) as [res db2]. exact Hf.
  - constructor.
Qed.

Lemma job_response_jobs (job_id : Z) (db : Session) :
  Forall next_attempt_at_only_when_pending
         (jobs_of_response (fst (with_body job_body (job job_id db)))).
Proof.
  unfold job. destruct (db_select_job job_id db) as [[r|e] db1]; simpl.
  - constructor; [apply from_orm_only_when_pending | constructor].
  - destruct e; constructor.
Qed.

Lemma cancel_job_response_jobs (now : datetime) (job_id : Z) (nat_ : option datetime)
    (msg : option string) (db : Session) :
  Forall next_attempt_at_only_when_pending
         (jobs_of_response (fst (with_body job_body (cancel_job now job_id nat_ msg db)))).
Proof.
  unfold cancel_job. destruct (db_select_job job_id db) as [[r|e] db1]; simpl.
  - destruct (db_update_job_status now (DbJob.job_id r) CANCELED nat_ msg db1)
      as [[r'|e] db2]; simpl.
    + constructor; [apply from_orm_only_when_pending | constructor].
    + destruct e; try constructor.
      destruct (refresh (DbJob.job_id r) db2) as [[r''|e'] db3]; simpl.
      * constructor; [apply from_orm_only_when_pending | constructor].
      * constructor.
  - destruct e; constructor.
Qed.

Lemma new_job_response_jobs (now : datetime) (nat_ : option datetime)
    (msg : option string) (db : Session) :
  Forall next_attempt_at_only_when_pending
         (jobs_of_response (fst (with_body job_body (new_job now nat_ msg db)))).
Proof.
  unfold new_job. destruct (db_insert_job now nat_ msg db) as [[r|e] db1]; simpl.
  - constructor; [apply from_orm_only_when_pending | constructor].
  - constructor.
Qed.

Lemma jobs_response_jobs (status : option JobStatus) (skip limit : Z) (db : Session) :
  Forall next_attempt_at_only_when_pending
         (jobs_of_response (fst (with_body jobs_body (jobs status skip limit db)))).
Proof.
  unfold jobs. destruct (db_select_jobs status skip limit db) as [rows db1]. simpl.
  apply Forall_forall. intros j Hj. apply in_map_iff in Hj.
  destruct Hj as (o & <- & _). apply from_orm_only_when_pending.
Qed.

(** C5.  The view [Job.from_orm] builds of any stored job, whatever the
    row holds, shows [next_attempt_at] only when the status is PENDING (and
    then shows the stored value); and every [Job] in the answer to any
    request, the detail of a 409 included, is such a view. *)
Theorem next_attempt_at_visible_only_when_pending
    (o : DbJob.t) (fuel : nat) (oracle : nat -> Scan) (now : datetime)
    (req : Request) (w : World) :
  (Job.next_attempt_at (Job.from_orm o) <> None <-> DbJob.status o = PENDING)
  /\ (DbJob.status o = PENDING ->
      Job.next_attempt_at (Job.from_orm o) = Some (DbJob.next_attempt_at o))
  /\ (DbJob.status o <> PENDING -> Job.next_attempt_at (Job.from_orm o) = None)
  /\ Job.status (Job.from_orm o) = DbJob.status o
  /\ Forall next_attempt_at_only_when_pending
            (jobs_of_answer (fst (serve fuel oracle now req w))).
Proof.
  split; [|split; [|split; [|split]]].
  - unfold Job.from_orm, Job.blank_next_attempt_at. simpl.
    destruct (DbJob.status o); simpl; split; intro H;
      try reflexivity; try discriminate; now elim H.
  - intro H. unfold Job.from_orm, Job.blank_next_attempt_at. simpl.
    now rewrite H.
  - intro H. unfold Job.from_orm, Job.blank_next_attempt_at. simpl.
    destruct (DbJob.status o); simpl; try reflexivity. now elim H.
  - unfold Job.from_orm, Job.blank_next_attempt_at. simpl.
    now destruct (DbJob.status o).
  - destruct req; simpl.
    + apply _fake_advance_jobs_hack_jobs. intro db. unfold summary. simpl. constructor.
    + apply _fake_advance_jobs_hack_jobs. intro db. apply job_response_jobs.
    + destruct (query_bounds skip limit); [|constructor].
      apply _fake_advance_jobs_hack_jobs. intro db. unfold job_history.
      destruct (db_select_job job_id db) as [[r|e] db1]; simpl.
      * constructor.
      * destruct e; constructor.
    + apply _fake_advance_jobs_hack_jobs. intro db. apply cancel_job_response_jobs.
    + apply _fake_advance_jobs_hack_jobs. intro db. apply new_job_response_jobs.
    + destruct (query_bounds skip limit); [|constructor].
      apply _fake_advance_jobs_hack_jobs. intro db. apply jobs_response_jobs.
Qed.

(** ** Job store: creation *)

Lemma next_rowid_above (ids : list Z) (x : Z) : In x ids -> x < next_rowid ids.
Proof.
  unfold next_rowid. induction ids as [|y ids IH]; cbn [fold_right In]; [contradiction|].
  intros [-> | Hin]; [lia|]. specialize (IH Hin). lia.
Qed.

Lemma next_rowid_positive (ids : list Z) : 1 <= next_rowid ids.
Proof.
  unfold next_rowid. induction ids as [|y ids IH]; cbn [fold_right]; lia.
Qed.

Lemma find_app_last {A : Type} (f : A -> bool) (l : list A) (y : A) :
  (forall x, In x l -> f x = false) -> f y = true -> find f (l ++ [y]) = Some y.
Proof.
  intros Hl Hy. induction l as [|x l IH]; simpl.
  - now rewrite Hy.
  - rewrite (Hl x (or_introl eq_refl)). apply IH. intros z Hz. apply Hl. now right.
Qed.

Lemma row_of_fresh (d : Db) :
  row_of (next_rowid (map DbJob.job_id (app_jobs d))) d = None.
Proof.
  unfold row_of.
  destruct (find _ (app_jobs d)) as [r|] eqn:F; [|reflexivity].
  destruct (find_job_id_some _ _ _ F) as [Hin Hid].
  pose proof (next_rowid_above _ _ (in_map DbJob.job_id _ _ Hin)). lia.
Qed.

(** C6.  [db_insert_job] returns a committed row with status PENDING,
    [created_at] and [status_at] equal to the clock of the INSERT,
    [next_attempt_at] equal to the given value or to that clock, and the
    given message; its [job_id] is new and larger than every [job_id] in
    the table.  The [Job] the endpoint answers with has the same fields and
    the empty string for a missing message. *)
Theorem create_job_inserts_pending_row
    (now : datetime) (next_attempt_at : option datetime) (message : option string)
    (db : Session) :
  let job_id := next_rowid (map DbJob.job_id (app_jobs (conn db))) in
  let next_attempt_at' := match next_attempt_at with Some t => t | None => now end in
  let db_job := DbJob.mk job_id now next_attempt_at' PENDING now message in
  exists db',
    db_insert_job now next_attempt_at message db = (Ok db_job, db')
    /\ row_of job_id (conn db') = Some db_job
    /\ committed db' = conn db'
    /\ row_of job_id (conn db) = None
    /\ (forall r, In r (app_jobs (conn db)) -> DbJob.job_id r < job_id)
    /\ new_job now next_attempt_at message db
       = (HTTP_200 (Job.mk job_id now PENDING now
                           (match message with Some m => m | None => EmptyString end)
                           (Some next_attempt_at')),
          db').
Proof.
  intros job_id next_attempt_at' db_job.
  assert (Hins : exists db',
             db_insert_job now next_attempt_at message db = (Ok db_job, db')
             /\ row_of job_id (conn db') = Some db_job
             /\ committed db' = conn db').
  { unfold db_insert_job, insert_app_jobs.
    rewrite flush_job_ids. fold job_id. fold next_attempt_at'. fold db_job.
    unfold commit, flush at 1 2 3. simpl.
    assert (Hrow : row_of job_id
                     (mkDb (app_jobs (conn (flush db)) ++ [db_job])
                           (app_job_histories (conn (flush db)))) = Some db_job).
    { unfold row_of. simpl. apply find_app_last.
      - intros x Hx. apply Z.eqb_neq.
        assert (Hin : In (DbJob.job_id x) (map DbJob.job_id (app_jobs (conn db)))).
        { rewrite <- flush_job_ids. now apply in_map. }
        pose proof (next_rowid_above _ _ Hin) as Hlt. subst job_id. lia.
      - simpl. apply Z.eqb_refl. }
    unfold refresh. simpl.
    change (conn (flush db)) with (fold_left apply_assignment (dirty db) (conn db))
      in Hrow.
    rewrite Hrow. simpl.
    eexists. split; [reflexivity|]. simpl. split; [exact Hrow | reflexivity]. }
  destruct Hins as (db' & Hins & Hrow & Hcom).
  exists db'. split; [exact Hins|]. split; [exact Hrow|]. split; [exact Hcom|].
  split; [apply row_of_fresh|]. split.
  - intros r Hr. apply next_rowid_above. now apply in_map.
  - unfold new_job. rewrite Hins. reflexivity.
Qed.

(** ** Query layer: ordering and pagination *)

Section OrderBy.
Variable A : Type.
Variable before : A -> A -> bool.
Hypothesis before_total : forall a b, before a b = false -> before b a = true.
Hypothesis before_trans :
  forall a b c, before a b = true -> before b c = true -> before a c = true.

Lemma insert_by_perm (x : A) (l : list A) : Permutation (insert_by before x l) (x :: l).
Proof.
  induction l as [|y l IH]; simpl; [reflexivity|].
  destruct (before x y); [reflexivity|].
  rewrite IH. apply perm_swap.
Qed.

Lemma order_by_perm (l : list A) : Permutation (order_by before l) l.
Proof.
  induction l as [|x l IH]; simpl; [reflexivity|].
  rewrite insert_by_perm. now constructor.
Qed.

Lemma insert_by_sorted (x : A) (l : list A) :
  StronglySorted (fun a b => before a b = true) l ->
  StronglySorted (fun a b => before a b = true) (insert_by before x l).
Proof.
  induction l as [|y l IH]; simpl; intro Hs.
  - constructor; constructor.
  - inversion Hs as [|? ? Hs' Hy]; subst.
    destruct (before x y) eqn:E.
    + constructor; [exact Hs|]. constructor; [exact E|].
      rewrite Forall_forall in *. intros z Hz. eapply before_trans; [exact E|].
      now apply Hy.
    + constructor; [now apply IH|].
      rewrite Forall_forall in *. intros z Hz.
      apply (Permutation_in _ (insert_by_perm x l)) in Hz.
      destruct Hz as [<- | Hz]; [now apply before_total | now apply Hy].
Qed.

Lemma order_by_sorted (l : list A) :
  StronglySorted (fun a b => before a b = true) (order_by before l).
Proof.
  induction l as [|x l IH]; simpl; [constructor | now apply insert_by_sorted].
Qed.
End OrderBy.

Lemma jobs_before_spec (a b : DbJob.t) : jobs_before a b = true <-> listed_before a b.
Proof.
  unfold jobs_before, listed_before.
  rewrite orb_true_iff, andb_true_iff, Z.ltb_lt, Z.eqb_eq, Z.leb_le. reflexivity.
Qed.

Lemma jobs_before_total (a b : DbJob.t) : jobs_before a b = false -> jobs_before b a = true.
Proof.
  intro H. apply jobs_before_spec.
  destruct (jobs_before a b) eqn:E; [discriminate|].
  assert (Hn : ~ listed_before a b).
  { intro Hl. apply jobs_before_spec in Hl. congruence. }
  unfold listed_before in *. lia.
Qed.

Lemma jobs_before_trans (a b c : DbJob.t) :
  jobs_before a b = true -> jobs_before b c = true -> jobs_before a c = true.
Proof.
  rewrite !jobs_before_spec. unfold listed_before. lia.
Qed.

Lemma StronglySorted_impl {A : Type} (R S : A -> A -> Prop) (l : list A) :
  (forall a b, R a b -> S a b) -> StronglySorted R l -> StronglySorted S l.
Proof.
  intros HRS Hs. induction Hs as [|x l Hs IH Hx]; constructor; [exact IH|].
  rewrite Forall_forall in *. intros z Hz. apply HRS. now apply Hx.
Qed.

(** Pages of [size] rows, taken one after the other, make up the list. *)
Lemma pages_concat {A : Type} (size : nat) (n : nat) :
  forall l : list A,
    (List.length l <= n * size)%nat ->
    List.concat (map (fun k => firstn size (skipn (k * size) l)) (seq 0 n)) = l.
Proof.
  induction n as [|n IH]; intros l Hlen.
  - simpl in *. destruct l; [reflexivity | simpl in Hlen; lia].
  - cbn [seq map List.concat]. rewrite <- seq_shift, map_map.
    transitivity (firstn size l ++ skipn size l); [|apply firstn_skipn].
    f_equal.
    rewrite <- (IH (skipn size l)).
    + f_equal. apply map_ext. intro k.
      rewrite skipn_skipn. f_equal. f_equal. lia.
    + rewrite length_skipn. simpl in Hlen. lia.
Qed.

Lemma offset_limit_page {A : Type} (k : nat) (limit : Z) (l : list A) :
  1 <= limit ->
  offset_limit (Z.of_nat k * limit) limit l
  = firstn (Z.to_nat limit) (skipn (k * Z.to_nat limit) l).
Proof.
  intro Hl. unfold offset_limit.
  replace (limit <? 0) with false by (symmetry; apply Z.ltb_ge; lia).
  f_equal. f_equal. rewrite Z2Nat.inj_mul by lia. now rewrite Nat2Z.id.
Qed.

(** A WHERE clause keeps the primary key unique. *)
Lemma filter_keeps_pk (keep : DbJob.t -> bool) (rows : list DbJob.t) :
  NoDup (map DbJob.job_id rows) -> NoDup (map DbJob.job_id (filter keep rows)).
Proof.
  intro Hpk. induction rows as [|row rows IH]; [constructor|].
  cbn [map] in Hpk. apply NoDup_cons_iff in Hpk. destruct Hpk as [Hfresh Hpk].
  cbn [filter]. destruct (keep row); [|exact (IH Hpk)].
  cbn [map]. apply NoDup_cons; [|exact (IH Hpk)].
  intro Hdup. apply Hfresh.
  apply in_map_iff in Hdup. destruct Hdup as (other & Hsame & Hkept).
  apply filter_In in Hkept. rewrite <- Hsame. apply in_map. exact (proj1 Hkept).
Qed.

(** C7.  [db_select_jobs] keeps the rows of the given status (all rows
    when none is given), lists them by [created_at] descending with
    [job_id] descending among equals, and returns [limit] of them from
    offset [skip]; the endpoint answers with their views and refuses a
    [skip] below 0 or a [limit] outside 1..100.  Over one dataset the pages
    at offsets 0, [limit], 2 [limit], ... put one after the other are the
    whole ordered list: every matching row once, none twice, none left
    out. *)
Theorem list_jobs_pages_cover_every_row_once
    (status : option JobStatus) (skip limit : Z) (db : Session) (n : nat)
    (fuel : nat) (oracle : nat -> Scan) (now : datetime) (log : list LogRecord) :
  let matching := filter (status_filter status) (app_jobs (conn (pre_execute db))) in
  let listed := order_by jobs_before matching in
  pk_unique (conn db) ->
  0 <= skip ->
  1 <= limit <= 100 ->
  Z.of_nat (List.length listed) <= Z.of_nat n * limit ->
  (* one page *)
  db_select_jobs status skip limit db
  = (firstn (Z.to_nat limit) (skipn (Z.to_nat skip) listed), pre_execute db)
  /\ jobs status skip limit db
     = (HTTP_200 (map Job.from_orm (firstn (Z.to_nat limit) (skipn (Z.to_nat skip) listed))),
        pre_execute db)
  /\ (List.length (fst (db_select_jobs status skip limit db)) <= Z.to_nat limit)%nat
  (* the filter and the order *)
  /\ (forall r, In r listed <->
                In r (app_jobs (conn (pre_execute db)))
                /\ match status with
                   | Some s => DbJob.status r = s
                   | None => True
                   end)
  /\ Permutation listed matching
  /\ StronglySorted listed_before listed
  (* all the pages *)
  /\ List.concat (map (fun k => fst (db_select_jobs status (Z.of_nat k * limit) limit db))
                      (seq 0 n))
     = listed
  /\ NoDup (map DbJob.job_id listed)
  (* the bounds of the endpoint *)
  /\ query_bounds skip limit = true
  /\ (forall skip' limit',
         (skip' < 0 \/ limit' < 1 \/ 100 < limit') ->
         serve fuel oracle now (GET_jobs status skip' limit') (db, log)
         = (Some HTTP_422_UNPROCESSABLE, (db, log))).
Proof.
  intros matching listed Hpk Hskip Hlimit Hn.
  assert (Hpage : db_select_jobs status skip limit db
                  = (firstn (Z.to_nat limit) (skipn (Z.to_nat skip) listed),
                     pre_execute db)).
  { unfold db_select_jobs, offset_limit. fold matching. fold listed.
    replace (limit <? 0) with false by (symmetry; apply Z.ltb_ge; lia).
    reflexivity. }
  assert (Hperm : Permutation listed matching) by apply order_by_perm.
  split; [exact Hpage|]. split.
  { unfold jobs. now rewrite Hpage. }
  split.
  { rewrite Hpage. simpl. rewrite length_firstn. lia. }
  split.
  { intro r. split.
    - intro Hin. apply (Permutation_in _ Hperm) in Hin.
      apply filter_In in Hin. destruct Hin as [Hin Hf]. split; [exact Hin|].
      destruct status as [s|]; [|exact I]. now apply JobStatus_eqb_eq.
    - intros [Hin Hf]. apply (Permutation_in _ (Permutation_sym Hperm)).
      apply filter_In. split; [exact Hin|].
      destruct status as [s|]; [|reflexivity]. now apply JobStatus_eqb_eq. }
  split; [exact Hperm|]. split.
  { apply (StronglySorted_impl (fun a b => jobs_before a b = true)).
    - intros a b. apply jobs_before_spec.
    - apply order_by_sorted; [apply jobs_before_total | apply jobs_before_trans]. }
  split.
  { transitivity
      (List.concat (map (fun k => firstn (Z.to_nat limit)
                                         (skipn (k * Z.to_nat limit) listed))
                        (seq 0 n)));
      [| apply pages_concat; nia].
    f_equal. apply map_ext. intro k.
    unfold db_select_jobs. simpl. fold matching. fold listed.
    apply offset_limit_page. lia. }
  split.
  { apply (Permutation_NoDup (Permutation_sym (Permutation_map DbJob.job_id Hperm))).
    apply filter_keeps_pk. unfold pk_unique in Hpk.
    now rewrite pre_execute_job_ids. }
  split.
  { unfold query_bounds.
    rewrite !andb_true_iff, !Z.leb_le. lia. }
  intros skip' limit' Hbad. simpl.
  replace (query_bounds skip' limit') with false; [reflexivity|].
  symmetry. unfold query_bounds.
  destruct (0 <=? skip') eqn:E1; [|reflexivity].
  destruct (1 <=? limit') eqn:E2; [|reflexivity].
  destruct (limit' <=? 100) eqn:E3; [|reflexivity].
  apply Z.leb_le in E1, E2, E3. lia.
Qed.

(** The three jobs of the sample data in two pages of two. *)
Lemma list_jobs_pages_cover_every_row_once_witness :
  List.concat (map (fun k => fst (db_select_jobs None (Z.of_nat k * 2) 2 sample_session))
                   (seq 0 2))
  = [sample_done; sample_running; sample_pending].
Proof.
  apply (list_jobs_pages_cover_every_row_once None 0 2 sample_session 2
           0 (fun _ => mkScan 0 (fun _ => mkDraw 0 0 0 0)) 0 []).
  - simpl. pk_sample.
  - lia.
  - lia.
  - vm_compute. discriminate.
Defined.

(** ** Lifecycle simulator *)

Lemma commit_eq (d c : Db) (ws : list (Z * Assignment)) (af : bool) :
  commit (mkSession d c ws af)
  = mkSession (mkDb (map (patch ws) (app_jobs d)) (app_job_histories d))
              (mkDb (map (patch ws) (app_jobs d)) (app_job_histories d)) [] af.
Proof. unfold commit, flush. simpl. now rewrite fold_apply_assignment. Qed.

Lemma choose_target_status_at (dr : Draw) (db_job : DbJob.t) (tg : Target) :
  choose_target dr db_job = Some tg -> exists t, target_status_at tg = Some t.
Proof.
  unfold choose_target. destruct (DbJob.status db_job); try discriminate.
  - intro H. injection H as <-. eexists. reflexivity.
  - destruct (d10 dr =? 0);
      [| destruct ((d10 dr =? 1) || (d10 dr =? 2) || (d10 dr =? 3))];
      intro H; injection H as <-; eexists; reflexivity.
Qed.

(** The target always asks for the prior status the loop saw on the
    object. *)
Lemma choose_target_prior (dr : Draw) (db_job : DbJob.t) (tg : Target) :
  choose_target dr db_job = Some tg ->
  prior_status_for (target_status tg) = DbJob.status db_job.
Proof.
  unfold choose_target. destruct (DbJob.status db_job); try discriminate.
  - intro H. now injection H as <-.
  - destruct (d10 dr =? 0);
      [| destruct ((d10 dr =? 1) || (d10 dr =? 2) || (d10 dr =? 3))];
      intro H; now injection H as <-.
Qed.

Lemma advance_job_hit (dr : Draw) (db_job : DbJob.t) (db : Session)
    (log : list LogRecord) (tg : Target) (r : DbJob.t) :
  choose_target dr db_job = Some tg ->
  pk_unique (conn db) ->
  dirty db = [] ->
  row_of (DbJob.job_id db_job) (conn db) = Some r ->
  DbJob.status r = prior_status_for (target_status tg) ->
  advance_job dr db_job (db, log)
  = (Ok tt,
     (mkSession (advanced_tables dr tg r (conn db)) (advanced_tables dr tg r (conn db))
                [] (autoflush db),
      log)).
Proof.
  intros Hct Hpk Hd Hrow Hst.
  destruct (choose_target_status_at dr db_job tg Hct) as [t Ht].
  assert (Hid : DbJob.job_id r = DbJob.job_id db_job).
  { unfold row_of in Hrow. now destruct (find_job_id_some _ _ _ Hrow). }
  pose proof (pre_execute_clean db Hd) as Hpe.
  unfold advance_job. rewrite Hct.
  rewrite (_update_job_status_hit (sql_now dr) (DbJob.job_id db_job) (target_status tg)
             (target_next_attempt_at tg) (target_message tg) db r);
    rewrite ?Hpe; try assumption.
  rewrite Hd, Ht. cbn [app].
  rewrite commit_eq. cbn [app_jobs app_job_histories].
  rewrite patch_transition_writes.
  unfold setattr. cbn [conn committed dirty autoflush app].
  rewrite commit_eq. cbn [app_jobs app_job_histories].
  assert (Hrows :
    map (patch [(DbJob.job_id db_job, Set_status_at t)])
        (update_where_job_id (DbJob.job_id db_job)
           (transition_row (sql_now dr) (target_status tg)
                           (target_next_attempt_at tg) (target_message tg))
           (app_jobs (conn db)))
    = update_where_job_id (DbJob.job_id r) (advanced_row dr tg) (app_jobs (conn db))).
  { rewrite Hid. unfold update_where_job_id. rewrite map_map. apply map_ext. intro x.
    unfold patch, advanced_row. rewrite Ht.
    destruct (DbJob.job_id x =? DbJob.job_id db_job) eqn:E; simpl; rewrite E; reflexivity. }
  rewrite Hrows. fold (advanced_tables dr tg r (conn db)).
  unfold refresh. cbn [conn committed dirty autoflush filter].
  assert (Hrow' : row_of (DbJob.job_id db_job) (advanced_tables dr tg r (conn db))
                  = Some (advanced_row dr tg r)).
  { unfold row_of, advanced_tables in *. simpl. rewrite Hid.
    rewrite find_update_where_job_id by reflexivity. now rewrite Hrow. }
  rewrite Hrow'. unfold advanced_row at 1. rewrite Ht. cbn [DbJob.status_at].
  now rewrite Z.eqb_refl.
Qed.

Lemma advance_job_conflict (dr : Draw) (db_job : DbJob.t) (db : Session)
    (log : list LogRecord) (tg : Target) (r : DbJob.t) :
  choose_target dr db_job = Some tg ->
  pk_unique (conn db) ->
  dirty db = [] ->
  row_of (DbJob.job_id db_job) (conn db) = Some r ->
  DbJob.status r <> prior_status_for (target_status tg) ->
  advance_job dr db_job (db, log)
  = (Ok tt, (db, log ++ [unable_to_update_status (target_status tg) (DbJob.job_id db_job)])).
Proof.
  intros Hct Hpk Hd Hrow Hst.
  pose proof (pre_execute_clean db Hd) as Hpe.
  unfold advance_job. rewrite Hct.
  rewrite (_update_job_status_wrong_status (sql_now dr) (DbJob.job_id db_job)
             (target_status tg) (target_next_attempt_at tg) (target_message tg) db r);
    rewrite ?Hpe; try assumption.
  rewrite Hd. simpl. now rewrite <- Hd, Session_eta.
Qed.

Lemma row_of_advanced_tables (dr : Draw) (tg : Target) (r : DbJob.t) (d : Db) :
  row_of (DbJob.job_id r) d = Some r ->
  row_of (DbJob.job_id r) (advanced_tables dr tg r d) = Some (advanced_row dr tg r).
Proof.
  intro H. unfold row_of, advanced_tables in *. simpl.
  rewrite find_update_where_job_id by reflexivity. now rewrite H.
Qed.

(** C8.  For a RUNNING job the ten values of the [randrange(0, 10, 1)] draw
    give: one (0) the target DONE with message "Permanent failure"; three
    (1, 2, 3) the target PENDING with message "Temporary failure" and
    [next_attempt_at] ten seconds after the completion time; six (4..9)
    the target DONE with no message.  The completion time is the job's
    [status_at] plus the [uniform(5, 15)] draw, and the simulator leaves the
    job's row committed with that outcome and with [status_at] set to the
    completion time. *)
Theorem simulator_concludes_running_job
    (dr : Draw) (db_job : DbJob.t) (db : Session) (log : list LogRecord) :
  DbJob.status db_job = RUNNING ->
  0 <= d10 dr < 10 ->
  pk_unique (conn db) ->
  dirty db = [] ->
  row_of (DbJob.job_id db_job) (conn db) = Some db_job ->
  let completion := DbJob.status_at db_job + uniform_5_15 dr in
  let bucket d := mkDraw (uniform_025_15 dr) (uniform_5_15 dr) d (sql_now dr) in
  let permanent := mkTarget DONE (Some completion) None (Some "Permanent failure"%string) in
  let temporary := mkTarget PENDING (Some completion) (Some (completion + seconds 10))
                            (Some "Temporary failure"%string) in
  let success := mkTarget DONE (Some completion) None None in
  map (fun d => choose_target (bucket d) db_job) [0; 1; 2; 3; 4; 5; 6; 7; 8; 9]
  = [Some permanent; Some temporary; Some temporary; Some temporary;
     Some success; Some success; Some success; Some success; Some success; Some success]
  /\ exists db',
       advance_job dr db_job (db, log) = (Ok tt, (db', log))
       /\ committed db' = conn db'
       /\ row_of (DbJob.job_id db_job) (conn db')
          = Some
              (if d10 dr =? 0 then
                 DbJob.mk (DbJob.job_id db_job) (DbJob.created_at db_job)
                          (DbJob.next_attempt_at db_job) DONE completion
                          (Some "Permanent failure"%string)
               else if d10 dr <=? 3 then
                 DbJob.mk (DbJob.job_id db_job) (DbJob.created_at db_job)
                          (completion + seconds 10) PENDING completion
                          (Some "Temporary failure"%string)
               else
                 DbJob.mk (DbJob.job_id db_job) (DbJob.created_at db_job)
                          (DbJob.next_attempt_at db_job) DONE completion
                          (Some ""%string)).
Proof.
  intros Hrun Hd10 Hpk Hdirty Hrow completion bucket permanent temporary success.
  split.
  { unfold choose_target. rewrite Hrun. reflexivity. }
  assert (Hcases :
    exists tg,
      choose_target dr db_job = Some tg
      /\ DbJob.status db_job = prior_status_for (target_status tg)
      /\ advanced_row dr tg db_job
         = (if d10 dr =? 0 then
              DbJob.mk (DbJob.job_id db_job) (DbJob.created_at db_job)
                       (DbJob.next_attempt_at db_job) DONE completion
                       (Some "Permanent failure"%string)
            else if d10 dr <=? 3 then
              DbJob.mk (DbJob.job_id db_job) (DbJob.created_at db_job)
                       (completion + seconds 10) PENDING completion
                       (Some "Temporary failure"%string)
            else
              DbJob.mk (DbJob.job_id db_job) (DbJob.created_at db_job)
                       (DbJob.next_attempt_at db_job) DONE completion
                       (Some ""%string))).
  { unfold choose_target. rewrite Hrun.
    destruct (d10 dr =? 0) eqn:E0.
    - eexists. split; [reflexivity|]. split; reflexivity.
    - apply Z.eqb_neq in E0.
      destruct (d10 dr <=? 3) eqn:E3.
      + apply Z.leb_le in E3.
        replace ((d10 dr =? 1) || (d10 dr =? 2) || (d10 dr =? 3)) with true.
        * eexists. split; [reflexivity|]. split; reflexivity.
        * symmetry. rewrite !orb_true_iff, !Z.eqb_eq. lia.
      + apply Z.leb_gt in E3.
        replace ((d10 dr =? 1) || (d10 dr =? 2) || (d10 dr =? 3)) with false.
        * eexists. split; [reflexivity|]. split; reflexivity.
        * symmetry. rewrite !orb_false_iff, !Z.eqb_neq. lia. }
  destruct Hcases as (tg & Hct & Hprior & Hadv).
  rewrite (advance_job_hit dr db_job db log tg db_job Hct Hpk Hdirty Hrow Hprior).
  eexists. split; [reflexivity|]. split; [reflexivity|].
  simpl conn. rewrite (row_of_advanced_tables dr tg db_job (conn db) Hrow).
  now rewrite Hadv.
Qed.

(** Job 2 of the sample data, RUNNING since 3000, drawn into bucket 2 with
    a run of six seconds: back to PENDING, due ten seconds after the
    completion time. *)
Lemma simulator_concludes_running_job_witness :
  exists db',
    advance_job (mkDraw 300000 6000000 2 9000) sample_running (sample_session, [])
    = (Ok tt, (db', []))
    /\ committed db' = conn db'
    /\ row_of 2 (conn db')
       = Some (DbJob.mk 2 2000 16003000 PENDING 6003000 (Some "Temporary failure"%string)).
Proof.
  apply (simulator_concludes_running_job (mkDraw 300000 6000000 2 9000)
           sample_running sample_session []).
  - reflexivity.
  - simpl. lia.
  - simpl. pk_sample.
  - reflexivity.
  - reflexivity.
Defined.

Lemma refresh_raises (id : Z) (db db' : Session) (e : Exception) :
  refresh id db = (Raise e, db') -> e = InvalidRequestError.
Proof.
  unfold refresh. destruct (row_of id (conn db)); intro H; [discriminate|].
  now injection H as <- _.
Qed.

Lemma advance_job_never_bad_prior_status (dr : Draw) (db_job : DbJob.t) (w : World) :
  fst (advance_job dr db_job w) <> Raise BadPriorStatusError.
Proof.
  destruct w as [db log]. unfold advance_job.
  destruct (choose_target dr db_job) as [tg|]; [|discriminate].
  destruct (_update_job_status (sql_now dr) (DbJob.job_id db_job) (target_status tg)
              (target_next_attempt_at tg) (target_message tg) db) as [[[]|e] db1].
  - destruct (target_status_at tg) as [t|]; [|discriminate].
    destruct (refresh (DbJob.job_id db_job)
                (commit (setattr (DbJob.job_id db_job) (Set_status_at t) (commit db1))))
      as [[r|e] db2] eqn:R.
    + destruct (DbJob.status_at r =? t); discriminate.
    + apply refresh_raises in R. subst e. discriminate.
  - destruct e; discriminate.
Qed.

Lemma advance_jobs_never_bad_prior_status (draw : nat -> Draw) (db_jobs : list DbJob.t) :
  forall (k : nat) (w : World),
    fst (advance_jobs draw k db_jobs w) <> Raise BadPriorStatusError.
Proof.
  induction db_jobs as [|db_job rest IH]; intros k w; simpl; [discriminate|].
  pose proof (advance_job_never_bad_prior_status (draw k) db_job w) as H.
  destruct (advance_job (draw k) db_job w) as [[[]|e] w1]; simpl in *.
  - apply IH.
  - exact H.
Qed.

Lemma db_fake_advance_jobs_never_bad_prior_status (oracle : nat -> Scan) (fuel : nat) :
  forall (i : nat) (w : World),
    fst (db_fake_advance_jobs fuel oracle i w) <> Some (Raise BadPriorStatusError).
Proof.
  induction fuel as [|fuel IH]; intros i w; simpl; [discriminate|].
  destruct (filter (executable (utcnow (oracle i))) (app_jobs (conn (pre_execute (fst w)))))
    as [|j js]; [discriminate|].
  pose proof (advance_jobs_never_bad_prior_status (draw (oracle i)) (j :: js) 0
                (pre_execute (fst w), snd w)) as H.
  destruct (advance_jobs (draw (oracle i)) 0 (j :: js) (pre_execute (fst w), snd w))
    as [[[]|e] w1]; simpl in *.
  - apply IH.
  - intro Heq. apply H. now injection Heq as ->.
Qed.

(** Whatever makes [_update_job_status] raise [BadPriorStatusError], the
    loop logs it and goes on with the next job. *)
Lemma advance_jobs_on_bad_prior_status (draw : nat -> Draw) (k : nat)
    (db_job : DbJob.t) (rest : list DbJob.t) (db db' : Session)
    (log : list LogRecord) (tg : Target) :
  choose_target (draw k) db_job = Some tg ->
  _update_job_status (sql_now (draw k)) (DbJob.job_id db_job) (target_status tg)
                     (target_next_attempt_at tg) (target_message tg) db
  = (Raise BadPriorStatusError, db') ->
  advance_jobs draw k (db_job :: rest) (db, log)
  = advance_jobs draw (S k) rest
      (db', log ++ [unable_to_update_status (target_status tg) (DbJob.job_id db_job)]).
Proof.
  intros Hct Hup. simpl. unfold advance_job. now rewrite Hct, Hup.
Qed.

Lemma db_fake_advance_jobs_resume (fuel : nat) (oracle : nat -> Scan) (i : nat) (w : World) :
  db_fake_advance_jobs (S fuel) oracle i w
  = resume_pass fuel oracle i
      (filter (executable (utcnow (oracle i))) (app_jobs (conn (pre_execute (fst w)))))
      (pre_execute (fst w), snd w).
Proof.
  cbn [db_fake_advance_jobs]. unfold resume_pass.
  now destruct (filter (executable (utcnow (oracle i)))
                       (app_jobs (conn (pre_execute (fst w))))).
Qed.

Lemma resume_pass_never_bad_prior_status (fuel : nat) (oracle : nat -> Scan) (i : nat)
    (db_jobs : list DbJob.t) (w : World) :
  fst (resume_pass fuel oracle i db_jobs w) <> Some (Raise BadPriorStatusError).
Proof.
  unfold resume_pass. destruct db_jobs as [|j js]; [discriminate|].
  pose proof (advance_jobs_never_bad_prior_status (draw (oracle i)) (j :: js) 0 w) as H.
  destruct (advance_jobs (draw (oracle i)) 0 (j :: js) w) as [[[]|e] w1]; simpl in *.
  - apply db_fake_advance_jobs_never_bad_prior_status.
  - intro Heq. apply H. now injection Heq as ->.
Qed.

(** C9, as the code has it.  When the row of a job no longer holds the
    status the loop read from the object, advancing it raises
    [BadPriorStatusError] inside the loop body; the body logs one warning,
    writes nothing and ends normally, and the [for] loop goes on with the
    remaining jobs of the batch exactly as it would from the untouched
    session: the job is skipped for this batch.  Neither the batch, nor the
    pass resumed after any SELECT, nor a whole pass ever ends with
    [BadPriorStatusError]. *)
Theorem simulator_skips_conflicting_job
    (draw : nat -> Draw) (k : nat) (db_job : DbJob.t) (rest : list DbJob.t)
    (db : Session) (log : list LogRecord) (tg : Target) (r : DbJob.t)
    (fuel : nat) (oracle : nat -> Scan) (i : nat) (w : World) :
  choose_target (draw k) db_job = Some tg ->
  pk_unique (conn db) ->
  dirty db = [] ->
  row_of (DbJob.job_id db_job) (conn db) = Some r ->
  DbJob.status r <> DbJob.status db_job ->
  let warning := unable_to_update_status (target_status tg) (DbJob.job_id db_job) in
  _update_job_status (sql_now (draw k)) (DbJob.job_id db_job) (target_status tg)
                     (target_next_attempt_at tg) (target_message tg) db
  = (Raise BadPriorStatusError, db)
  /\ advance_job (draw k) db_job (db, log) = (Ok tt, (db, log ++ [warning]))
  /\ advance_jobs draw k (db_job :: rest) (db, log)
     = advance_jobs draw (S k) rest (db, log ++ [warning])
  /\ fst (advance_jobs draw k (db_job :: rest) (db, log)) <> Raise BadPriorStatusError
  /\ fst (db_fake_advance_jobs fuel oracle i w) <> Some (Raise BadPriorStatusError)
  /\ fst (resume_pass fuel oracle i (db_job :: rest) (db, log))
     <> Some (Raise BadPriorStatusError).
Proof.
  intros Hct Hpk Hd Hrow Hstale warning.
  assert (Hst : DbJob.status r <> prior_status_for (target_status tg)).
  { now rewrite (choose_target_prior _ _ _ Hct). }
  assert (Hup : _update_job_status (sql_now (draw k)) (DbJob.job_id db_job)
                  (target_status tg) (target_next_attempt_at tg) (target_message tg) db
                = (Raise BadPriorStatusError, db)).
  { rewrite (_update_job_status_wrong_status _ _ _ _ _ db r);
      rewrite ?(pre_execute_clean db Hd); try assumption.
    rewrite Hd. simpl. now rewrite <- Hd, Session_eta. }
  split; [exact Hup|]. split.
  { now apply (advance_job_conflict _ _ _ _ tg r). }
  split.
  { now apply advance_jobs_on_bad_prior_status. }
  split.
  { apply advance_jobs_never_bad_prior_status. }
  split.
  { apply db_fake_advance_jobs_never_bad_prior_status. }
  apply resume_pass_never_bad_prior_status.
Qed.

(** A batch of two on the sample data: the stale object of job 2 meets a
    conflict, and the loop goes on to job 1. *)
Lemma simulator_skips_conflicting_job_witness :
  advance_jobs (fun _ => mkDraw 300000 6000000 2 9000) 0 [sample_stale; sample_pending]
               (sample_session, [])
  = advance_jobs (fun _ => mkDraw 300000 6000000 2 9000) 1 [sample_pending]
                 (sample_session, [unable_to_update_status RUNNING 2]).
Proof.
  apply (simulator_skips_conflicting_job (fun _ => mkDraw 300000 6000000 2 9000) 0
           sample_stale [sample_pending] sample_session []
           (mkTarget RUNNING (Some 302000) None None) sample_running
           0 (fun _ => mkScan 0 (fun _ => mkDraw 0 0 0 0)) 0 (sample_session, [])).
  - reflexivity.
  - simpl. pk_sample.
  - reflexivity.
  - reflexivity.
  - simpl. discriminate.
Defined.

(** The same batch, run to its end: one warning, job 2 untouched, job 1
    started. *)
Example simulator_batch_with_conflict :
  let result := advance_jobs (fun _ => mkDraw 300000 6000000 2 9000) 0
                             [sample_stale; sample_pending] (sample_session, []) in
  fst result = Ok tt
  /\ snd (snd result) = [unable_to_update_status RUNNING 2]
  /\ row_of 2 (conn (fst (snd result))) = Some sample_running
  /\ row_of 1 (conn (fst (snd result)))
     = Some (DbJob.mk 1 1000 5000 RUNNING 305000 (Some ""%string)).
Proof. vm_compute. repeat split; reflexivity. Qed.

(** C9 read to the letter fails: the job that met the conflict is not
    skipped for the rest of the pass.  The pass below resumes after a SELECT
    that loaded job 2 while it was still PENDING; the first batch logs the
    conflict and leaves job 2 alone, and the next scan of the same pass
    finds the row RUNNING since 3000 and concludes it. *)
Lemma conflicting_job_is_advanced_by_the_rescan :
  let result := resume_pass 5 sample_oracle_20s 0 [sample_pending; sample_stale]
                            (sample_session, []) in
  fst result = Some (Ok tt)
  /\ snd (snd result) = [unable_to_update_status RUNNING 2]
  /\ row_of 2 (conn sample_session) = Some sample_running
  /\ row_of 2 (conn (fst (snd result)))
     = Some (DbJob.mk 2 2000 2000 DONE 6003000 (Some "Permanent failure"%string))
  /\ row_of 2 (conn (fst (snd result))) <> row_of 2 (conn sample_session).
Proof. vm_compute. repeat split; try reflexivity. discriminate. Qed.

(** ** The history endpoint *)


Lemma row_of_none_iff (id : Z) (d : Db) :
  row_of id d = None <-> ~ In id (map DbJob.job_id (app_jobs d)).
Proof.
  unfold row_of. induction (app_jobs d) as [|x l IH]; simpl.
  - split; [intros _ [] | reflexivity].
  - destruct (DbJob.job_id x =? id) eqn:E.
    + apply Z.eqb_eq in E. split; [discriminate|]. intro H. elim H. now left.
    + apply Z.eqb_neq in E. rewrite IH. tauto.
Qed.


Lemma db_select_job_missing (job_id : Z) (db : Session) :
  row_of job_id (conn db) = None ->
  db_select_job job_id db = (Raise NoResultFound, pre_execute db).
Proof.
  intro H. apply pre_execute_row_of_none in H. unfold db_select_job.
  now rewrite (filter_job_id_missing _ _ H).
Qed.


(** *** The simulator neither adds nor removes a job *)











(** ** Invariants of the store *)

Lemma sorted_lt_NoDup (l : list Z) : StronglySorted Z.lt l -> NoDup l.
Proof.
  induction 1 as [|x l Hs IH Hx]; constructor; [|exact IH].
  intro Hin. rewrite Forall_forall in Hx. specialize (Hx x Hin). lia.
Qed.

Lemma sorted_lt_snoc (l : list Z) (y : Z) :
  StronglySorted Z.lt l -> (forall x, In x l -> x < y) -> StronglySorted Z.lt (l ++ [y]).
Proof.
  induction 1 as [|x l Hs IH Hx]; intro Hy; cbn [app].
  - constructor; constructor.
  - constructor.
    + apply IH. intros z Hz. apply Hy. now right.
    + rewrite Forall_forall in *. intros z Hz. apply in_app_or in Hz.
      destruct Hz as [Hz | [<- | []]]; [now apply Hx | apply Hy; now left].
Qed.

Lemma tables_ok_pk_unique (d : Db) : tables_ok d -> pk_unique d.
Proof. intros [H _]. now apply sorted_lt_NoDup. Qed.

Lemma identity_job_id (g : DbJob.t -> DbJob.t) :
  (forall x, identity_of (g x) = identity_of x) ->
  forall x, DbJob.job_id (g x) = DbJob.job_id x.
Proof. intros H x. specialize (H x). unfold identity_of in H. congruence. Qed.

Lemma update_where_job_id_identities (id : Z) (g : DbJob.t -> DbJob.t) (l : list DbJob.t) :
  (forall x, identity_of (g x) = identity_of x) ->
  map identity_of (update_where_job_id id g l) = map identity_of l.
Proof.
  intro Hg. unfold update_where_job_id. rewrite map_map. apply map_ext.
  intro r. destruct (DbJob.job_id r =? id); [apply Hg | reflexivity].
Qed.

Lemma find_app_first {A : Type} (f : A -> bool) (l l' : list A) (x : A) :
  find f l = Some x -> find f (l ++ l') = Some x.
Proof.
  induction l as [|y l IH]; simpl; [discriminate|].
  destruct (f y); [trivial | exact IH].
Qed.

Lemma table_step_tables_ok (d d' : Db) : table_step d d' -> tables_ok d -> tables_ok d'.
Proof.
  intros Hstep (Hjobs & Hhist & Hfk). destruct Hstep as [d r g Hrow Hg Hst | d now nat_ msg].
  - pose proof (identity_job_id g Hg) as Hid.
    unfold tables_ok. simpl. rewrite (update_where_job_id_ids _ _ _ Hid).
    split; [exact Hjobs|]. split.
    + rewrite map_app. simpl. apply sorted_lt_snoc; [exact Hhist|].
      intros x Hx. now apply next_rowid_above.
    + intros h Hh. apply in_app_or in Hh. destruct Hh as [Hh | [<- | []]].
      * now apply Hfk.
      * simpl. unfold row_of in Hrow. apply find_some in Hrow.
        apply in_map. exact (proj1 Hrow).
  - unfold tables_ok. simpl. split; [|split].
    + rewrite map_app. simpl. apply sorted_lt_snoc; [exact Hjobs|].
      intros x Hx. now apply next_rowid_above.
    + exact Hhist.
    + intros h Hh. rewrite map_app. apply in_or_app. left. now apply Hfk.
Qed.

Lemma table_steps_tables_ok (d d' : Db) : table_steps d d' -> tables_ok d -> tables_ok d'.
Proof.
  induction 1 as [d | d d' d'' _ IH Hstep]; intro Hok; [exact Hok|].
  eapply table_step_tables_ok; [exact Hstep | now apply IH].
Qed.

Lemma table_steps_trans (a b c : Db) : table_steps a b -> table_steps b c -> table_steps a c.
Proof.
  intros Hab Hbc. induction Hbc as [b | b c c' _ IH Hstep]; [exact Hab|].
  eapply steps_more; [now apply IH | exact Hstep].
Qed.

Lemma table_step_identities (d d' : Db) :
  table_step d d' ->
  extends (map identity_of (app_jobs d)) (map identity_of (app_jobs d')).
Proof.
  intros [d0 r g Hrow Hg Hst | d0 now nat_ msg]; simpl.
  - rewrite (update_where_job_id_identities _ _ _ Hg). apply extends_refl.
  - rewrite map_app. apply extends_app.
Qed.

Lemma table_step_histories (d d' : Db) :
  table_step d d' -> extends (app_job_histories d) (app_job_histories d').
Proof.
  intros [d0 r g Hrow Hg Hst | d0 now nat_ msg]; simpl;
    [apply extends_app | apply extends_refl].
Qed.

(** A row whose status is no prior status of any target is out of reach of
    every write. *)
Lemma table_step_terminal (d d' : Db) (id : Z) (r : DbJob.t) :
  table_step d d' ->
  row_of id d = Some r ->
  DbJob.status r = DONE \/ DbJob.status r = CANCELED ->
  row_of id d' = Some r.
Proof.
  intros Hstep Hrow Hterm.
  destruct Hstep as [d r0 g Hrow0 Hg Hst | d now nat_ msg]; unfold row_of in *; simpl.
  - destruct (Z.eq_dec id (DbJob.job_id r0)) as [-> | Hne].
    + rewrite Hrow0 in Hrow. injection Hrow as ->.
      exfalso. destruct (DbJob.status (g r)); simpl in Hst;
        destruct Hterm as [Ht | Ht]; congruence.
    + rewrite find_update_where_other; [exact Hrow | now apply identity_job_id | exact Hne].
  - now apply find_app_first.
Qed.

Lemma table_steps_terminal (d d' : Db) (id : Z) (r : DbJob.t) :
  table_steps d d' ->
  row_of id d = Some r ->
  DbJob.status r = DONE \/ DbJob.status r = CANCELED ->
  row_of id d' = Some r.
Proof.
  induction 1 as [d | d d' d'' _ IH Hstep]; intros Hrow Hterm; [exact Hrow|].
  eapply table_step_terminal; [exact Hstep | now apply IH | exact Hterm].
Qed.



Lemma table_steps_identities (d d' : Db) :
  table_steps d d' ->
  extends (map identity_of (app_jobs d)) (map identity_of (app_jobs d')).
Proof.
  induction 1 as [d | d d' d'' _ IH Hstep]; [apply extends_refl|].
  eapply extends_trans; [exact IH | now apply table_step_identities].
Qed.

Lemma table_steps_histories (d d' : Db) :
  table_steps d d' -> extends (app_job_histories d) (app_job_histories d').
Proof.
  induction 1 as [d | d d' d'' _ IH Hstep]; [apply extends_refl|].
  eapply extends_trans; [exact IH | now apply table_step_histories].
Qed.

(** ** Every operation is a sequence of such writes *)

Lemma evolves_refl (db : Session) : clean db -> evolves db db.
Proof. intro H. split; [exact H | constructor]. Qed.

Lemma evolves_trans (a b c : Session) : evolves a b -> evolves b c -> evolves a c.
Proof.
  intros [_ Hab] [Hc Hbc]. split; [exact Hc | eapply table_steps_trans; eassumption].
Qed.

Lemma evolves_store_ok (db db' : Session) : store_ok db -> evolves db db' -> store_ok db'.
Proof.
  intros [_ Hok] [Hclean Hsteps]. split; [exact Hclean|].
  eapply table_steps_tables_ok; eassumption.
Qed.

Lemma clean_eta (db : Session) :
  clean db -> mkSession (conn db) (conn db) [] (autoflush db) = db.
Proof.
  intros [Hd Hc]. destruct db as [d c ws af]. simpl in *. now subst.
Qed.

Lemma committed_session_clean (d : Db) (af : bool) : clean (mkSession d d [] af).
Proof. split; reflexivity. Qed.

Lemma row_of_job_id (id : Z) (d : Db) (r : DbJob.t) :
  row_of id d = Some r -> DbJob.job_id r = id.
Proof. intro H. unfold row_of in H. now destruct (find_job_id_some _ _ _ H). Qed.

Lemma transition_step (now : datetime) (id : Z) (st : JobStatus)
    (nat_ : option datetime) (msg : option string) (r : DbJob.t) (d : Db) :
  row_of id d = Some r ->
  DbJob.status r = prior_status_for st ->
  table_step d (transition_tables now id st nat_ msg r d).
Proof.
  intros Hrow Hst. pose proof (row_of_job_id _ _ _ Hrow) as Hid. subst id.
  unfold transition_tables.
  apply (step_transition d r (transition_row now st nat_ msg));
    [exact Hrow | reflexivity | exact Hst].
Qed.

Lemma advanced_step (dr : Draw) (tg : Target) (r : DbJob.t) (d : Db) :
  row_of (DbJob.job_id r) d = Some r ->
  DbJob.status r = prior_status_for (target_status tg) ->
  table_step d (advanced_tables dr tg r d).
Proof.
  intros Hrow Hst. unfold advanced_tables.
  apply (step_transition d r (advanced_row dr tg)); [exact Hrow | reflexivity | exact Hst].
Qed.

(** The three ways [db_update_job_status] can end on a clean session. *)
Lemma db_update_job_status_cases (now : datetime) (id : Z) (st : JobStatus)
    (nat_ : option datetime) (msg : option string) (db : Session) :
  clean db ->
  pk_unique (conn db) ->
  (row_of id (conn db) = None
   /\ db_update_job_status now id st nat_ msg db = (Raise InvalidRequestError, db))
  \/ (exists r, row_of id (conn db) = Some r
                /\ DbJob.status r <> prior_status_for st
                /\ db_update_job_status now id st nat_ msg db
                   = (Raise BadPriorStatusError, db))
  \/ (exists r, row_of id (conn db) = Some r
                /\ DbJob.status r = prior_status_for st
                /\ db_update_job_status now id st nat_ msg db
                   = (Ok (transition_row now st nat_ msg r),
                      mkSession (transition_tables now id st nat_ msg r (conn db))
                                (transition_tables now id st nat_ msg r (conn db))
                                [] (autoflush db))).
Proof.
  intros Hclean Hpk. destruct Hclean as [Hd Hc].
  destruct (row_of id (conn db)) as [r|] eqn:Hrow.
  - right. destruct (JobStatus_eqb (DbJob.status r) (prior_status_for st)) eqn:E.
    + right. apply JobStatus_eqb_eq in E. exists r. split; [reflexivity|].
      split; [exact E|]. now apply db_update_job_status_hit.
    + left. apply JobStatus_eqb_neq in E. exists r. split; [reflexivity|].
      split; [exact E|].
      rewrite (db_update_job_status_wrong_status now id st nat_ msg db r Hpk Hrow E).
      f_equal. rewrite <- Hc. now apply clean_eta.
  - left. split; [reflexivity|]. unfold db_update_job_status.
    rewrite (_update_job_status_missing now id st nat_ _ db);
      rewrite (pre_execute_clean db Hd); [reflexivity | exact Hrow].
Qed.

Lemma db_update_job_status_evolves (now : datetime) (id : Z) (st : JobStatus)
    (nat_ : option datetime) (msg : option string) (db : Session) :
  store_ok db ->
  evolves db (snd (db_update_job_status now id st nat_ msg db)).
Proof.
  intros [Hclean Hok].
  destruct (db_update_job_status_cases now id st nat_ msg db Hclean
              (tables_ok_pk_unique _ Hok))
    as [[_ ->] | [(r & _ & _ & ->) | (r & Hrow & Hst & ->)]];
    try (now apply evolves_refl).
  split; [apply committed_session_clean|]. simpl.
  eapply steps_more; [constructor | now apply transition_step].
Qed.

Lemma db_insert_job_session (now : datetime) (nat_ : option datetime)
    (msg : option string) (db : Session) :
  clean db ->
  let tables := snd (insert_app_jobs now (match nat_ with Some t => t | None => now end)
                                     msg (conn db)) in
  snd (db_insert_job now nat_ msg db) = mkSession tables tables [] (autoflush db).
Proof.
  intros [Hd Hc] tables. unfold db_insert_job.
  rewrite (flush_clean db Hd). unfold insert_app_jobs in *. rewrite Hd.
  rewrite commit_eq. unfold patch. simpl fold_left. rewrite map_id.
  unfold refresh. simpl. subst tables. simpl.
  now destruct (row_of _ _).
Qed.

Lemma db_insert_job_evolves (now : datetime) (nat_ : option datetime)
    (msg : option string) (db : Session) :
  store_ok db -> evolves db (snd (db_insert_job now nat_ msg db)).
Proof.
  intros [Hclean Hok]. rewrite (db_insert_job_session now nat_ msg db Hclean).
  split; [apply committed_session_clean|]. simpl.
  eapply steps_more; [constructor | apply step_insert].
Qed.

(** The ways the body of the simulator's loop can end on a clean
    session. *)
Lemma advance_job_cases (dr : Draw) (db_job : DbJob.t) (db : Session)
    (log : list LogRecord) :
  clean db ->
  pk_unique (conn db) ->
  (exists res log', advance_job dr db_job (db, log) = (res, (db, log')))
  \/ (exists tg r,
         choose_target dr db_job = Some tg
         /\ row_of (DbJob.job_id db_job) (conn db) = Some r
         /\ DbJob.status r = DbJob.status db_job
         /\ advance_job dr db_job (db, log)
            = (Ok tt,
               (mkSession (advanced_tables dr tg r (conn db))
                          (advanced_tables dr tg r (conn db)) [] (autoflush db),
                log))).
Proof.
  intros [Hd Hc] Hpk.
  destruct (choose_target dr db_job) as [tg|] eqn:Hct.
  - pose proof (choose_target_prior dr db_job tg Hct) as Hprior.
    destruct (row_of (DbJob.job_id db_job) (conn db)) as [r|] eqn:Hrow.
    + destruct (JobStatus_eqb (DbJob.status r) (DbJob.status db_job)) eqn:E.
      * right. apply JobStatus_eqb_eq in E. exists tg, r.
        split; [reflexivity|]. split; [reflexivity|]. split; [exact E|].
        apply advance_job_hit; try assumption. congruence.
      * left. apply JobStatus_eqb_neq in E. eexists. eexists.
        apply (advance_job_conflict dr db_job db log tg r); try assumption. congruence.
    + left. eexists. eexists. unfold advance_job. rewrite Hct.
      rewrite (_update_job_status_missing _ _ _ _ _ db);
        rewrite (pre_execute_clean db Hd); [reflexivity | exact Hrow].
  - left. eexists. eexists. unfold advance_job. rewrite Hct. reflexivity.
Qed.

Lemma advance_job_evolves (dr : Draw) (db_job : DbJob.t) (w : World) :
  store_ok (fst w) -> evolves (fst w) (fst (snd (advance_job dr db_job w))).
Proof.
  destruct w as [db log]. cbn [fst]. intros [Hclean Hok].
  destruct (advance_job_cases dr db_job db log Hclean (tables_ok_pk_unique _ Hok))
    as [(res & log' & ->) | (tg & r & Hct & Hrow & Hst & ->)]; cbn [fst snd].
  - now apply evolves_refl.
  - split; [apply committed_session_clean|]. simpl.
    eapply steps_more; [constructor|].
    pose proof (row_of_job_id _ _ _ Hrow) as Hid.
    apply advanced_step; [now rewrite Hid|].
    rewrite Hst. symmetry. now apply (choose_target_prior dr db_job).
Qed.

Lemma advance_jobs_evolves (draw : nat -> Draw) (db_jobs : list DbJob.t) :
  forall (k : nat) (w : World),
    store_ok (fst w) -> evolves (fst w) (fst (snd (advance_jobs draw k db_jobs w))).
Proof.
  induction db_jobs as [|db_job rest IH]; intros k w Hok; simpl.
  - apply evolves_refl. now destruct Hok.
  - pose proof (advance_job_evolves (draw k) db_job w Hok) as H.
    destruct (advance_job (draw k) db_job w) as [[[]|e] w1]; cbn [fst snd] in H.
    + eapply evolves_trans; [exact H|]. apply IH. eapply evolves_store_ok; eassumption.
    + exact H.
Qed.

Lemma db_fake_advance_jobs_evolves (oracle : nat -> Scan) (fuel : nat) :
  forall (i : nat) (w : World),
    store_ok (fst w) ->
    evolves (fst w) (fst (snd (db_fake_advance_jobs fuel oracle i w))).
Proof.
  induction fuel as [|fuel IH]; intros i w Hok; simpl.
  - apply evolves_refl. now destruct Hok.
  - assert (Hpe : pre_execute (fst w) = fst w).
    { apply pre_execute_clean. now destruct Hok as [[Hd _] _]. }
    rewrite Hpe.
    destruct (filter (executable (utcnow (oracle i))) (app_jobs (conn (fst w))))
      as [|j js].
    + cbn [fst snd]. apply evolves_refl. now destruct Hok.
    + pose proof (advance_jobs_evolves (draw (oracle i)) (j :: js) 0 (fst w, snd w) Hok)
        as H.
      cbn [fst] in H.
      destruct (advance_jobs (draw (oracle i)) 0 (j :: js) (fst w, snd w))
        as [[[]|e] w1]; cbn [fst snd] in H.
      * eapply evolves_trans; [exact H|]. apply IH. eapply evolves_store_ok; eassumption.
      * exact H.
Qed.

Lemma refresh_session_clean (id : Z) (db : Session) :
  clean db -> snd (refresh id db) = db.
Proof.
  intros [Hd Hc]. unfold refresh. destruct (row_of id (conn db)); [|reflexivity].
  simpl. rewrite Hd. simpl. rewrite <- Hd. apply Session_eta.
Qed.

Lemma cancel_job_evolves (now : datetime) (job_id : Z) (nat_ : option datetime)
    (msg : option string) (db : Session) :
  store_ok db -> evolves db (snd (cancel_job now job_id nat_ msg db)).
Proof.
  intro Hok. pose proof Hok as [Hclean Htab]. unfold cancel_job.
  pose proof (db_select_job_session job_id db) as Hs.
  rewrite (pre_execute_clean db (proj1 Hclean)) in Hs.
  destruct (db_select_job job_id db) as [[r|e] db1]; simpl in Hs; subst db1.
  - pose proof (db_update_job_status_evolves now (DbJob.job_id r) CANCELED nat_ msg db Hok)
      as H.
    destruct (db_update_job_status now (DbJob.job_id r) CANCELED nat_ msg db)
      as [[r'|e] db2]; cbn [fst snd] in H.
    + exact H.
    + destruct e; try exact H.
      pose proof (refresh_session_clean (DbJob.job_id r) db2 (proj1 H)) as Hr.
      destruct (refresh (DbJob.job_id r) db2) as [[r''|e'] db3]; simpl in Hr; subst db3;
        exact H.
  - destruct e; now apply evolves_refl.
Qed.

Lemma new_job_evolves (now : datetime) (nat_ : option datetime) (msg : option string)
    (db : Session) :
  store_ok db -> evolves db (snd (new_job now nat_ msg db)).
Proof.
  intro Hok. unfold new_job.
  pose proof (db_insert_job_evolves now nat_ msg db Hok) as H.
  destruct (db_insert_job now nat_ msg db) as [[r|e] db1]; exact H.
Qed.

Lemma read_handlers_session (db : Session) :
  clean db ->
  snd (summary db) = db
  /\ (forall job_id, snd (job job_id db) = db)
  /\ (forall job_id skip limit, snd (job_history job_id skip limit db) = db)
  /\ (forall status skip limit, snd (jobs status skip limit db) = db).
Proof.
  intros [Hd Hc]. pose proof (pre_execute_clean db Hd) as Hpe.
  split; [|split; [|split]].
  - unfold summary, db_select_in_flight_counts. simpl. exact Hpe.
  - intro job_id. unfold job.
    pose proof (db_select_job_session job_id db) as Hs. rewrite Hpe in Hs.
    destruct (db_select_job job_id db) as [[r|e] db1]; simpl in Hs; subst db1;
      [reflexivity | now destruct e].
  - intros job_id skip limit. unfold job_history.
    pose proof (db_select_job_session job_id db) as Hs. rewrite Hpe in Hs.
    destruct (db_select_job job_id db) as [[r|e] db1]; simpl in Hs; subst db1.
    + unfold db_select_job_histories. simpl. exact Hpe.
    + now destruct e.
  - intros status skip limit. unfold jobs, db_select_jobs. simpl. exact Hpe.
Qed.

Lemma _fake_advance_jobs_hack_evolves {A : Type} (fuel : nat) (oracle : nat -> Scan)
    (func : Session -> Response A * Session) (w : World) :
  (forall db, store_ok db -> evolves db (snd (func db))) ->
  store_ok (fst w) ->
  evolves (fst w) (fst (snd (_fake_advance_jobs_hack fuel oracle func w))).
Proof.
  intros Hf Hok. unfold _fake_advance_jobs_hack.
  pose proof (db_fake_advance_jobs_evolves oracle fuel 0 w Hok) as H.
  destruct (db_fake_advance_jobs fuel oracle 0 w) as [[[[]|e]|] [db1 log1]];
    cbn [fst snd] in H; try exact H.
  - pose proof (Hf db1 (evolves_store_ok _ _ Hok H)) as H2.
    destruct (func db1) as [res db2]. cbn [fst snd] in *.
    eapply evolves_trans; eassumption.
  - pose proof (Hf db1 (evolves_store_ok _ _ Hok H)) as H2.
    destruct (func db1) as [res db2]. cbn [fst snd] in *.
    eapply evolves_trans; eassumption.
Qed.

Lemma snd_with_body {A : Type} (f : A -> Body) (r : Response A * Session) :
  snd (with_body f r) = snd r.
Proof. reflexivity. Qed.

Lemma serve_evolves (fuel : nat) (oracle : nat -> Scan) (now : datetime)
    (req : Request) (w : World) :
  store_ok (fst w) -> evolves (fst w) (fst (snd (serve fuel oracle now req w))).
Proof.
  intro Hok. destruct req; cbn [serve].
  - apply _fake_advance_jobs_hack_evolves; [|exact Hok]. intros db [Hc _].
    rewrite snd_with_body, (proj1 (read_handlers_session db Hc)). now apply evolves_refl.
  - apply _fake_advance_jobs_hack_evolves; [|exact Hok]. intros db [Hc _].
    rewrite snd_with_body, (proj1 (proj2 (read_handlers_session db Hc))).
    now apply evolves_refl.
  - destruct (query_bounds skip limit); [|apply evolves_refl; now destruct Hok].
    apply _fake_advance_jobs_hack_evolves; [|exact Hok]. intros db [Hc _].
    rewrite snd_with_body, (proj1 (proj2 (proj2 (read_handlers_session db Hc)))).
    now apply evolves_refl.
  - apply _fake_advance_jobs_hack_evolves; [|exact Hok]. intros db Hdb.
    rewrite snd_with_body. now apply cancel_job_evolves.
  - apply _fake_advance_jobs_hack_evolves; [|exact Hok]. intros db Hdb.
    rewrite snd_with_body. now apply new_job_evolves.
  - destruct (query_bounds skip limit); [|apply evolves_refl; now destruct Hok].
    apply _fake_advance_jobs_hack_evolves; [|exact Hok]. intros db [Hc _].
    rewrite snd_with_body, (proj2 (proj2 (proj2 (read_handlers_session db Hc)))).
    now apply evolves_refl.
Qed.

Lemma run_evolves (calls : list Call) :
  forall w : World, store_ok (fst w) -> evolves (fst w) (fst (run calls w)).
Proof.
  induction calls as [|c calls IH]; intros w Hok; simpl.
  - apply evolves_refl. now destruct Hok.
  - pose proof (serve_evolves (call_fuel c) (call_oracle c) (call_now c)
                  (call_request c) w Hok) as H.
    eapply evolves_trans; [exact H|]. apply IH. eapply evolves_store_ok; eassumption.
Qed.

(** ** Properties of the whole application *)

Lemma sample_store_ok : store_ok sample_session.
Proof.
  split; [split; reflexivity|]. unfold tables_ok. simpl. split; [|split].
  - repeat (constructor; [|repeat (constructor; try reflexivity)]). constructor.
  - repeat (constructor; [|repeat (constructor; try reflexivity)]). constructor.
  - intros h [<- | [<- | [<- | []]]]; simpl; tauto.
Defined.

(** X1.  Whatever requests are served, the session ends with no pending
    write and no open transaction, the rowids of both tables still grow
    along the table (so [job_id] and [job_history_id] stay unique), and
    every history row still points to a job of the table. *)
Theorem requests_keep_store_invariants
    (calls : list Call) (db : Session) (log : list LogRecord) :
  store_ok db ->
  let db' := fst (run calls (db, log)) in
  dirty db' = []
  /\ conn db' = committed db'
  /\ StronglySorted Z.lt (map DbJob.job_id (app_jobs (conn db')))
  /\ StronglySorted Z.lt (map DbJobHistory.job_history_id (app_job_histories (conn db')))
  /\ (forall h, In h (app_job_histories (conn db')) ->
                exists r, row_of (DbJobHistory.job_id h) (conn db') = Some r)
  /\ pk_unique (conn db').
Proof.
  intros Hok db'.
  pose proof (evolves_store_ok _ _ Hok (run_evolves calls (db, log) Hok)) as Hok'.
  fold db' in Hok'. destruct Hok' as [[Hd Hc] Htab].
  pose proof (tables_ok_pk_unique _ Htab) as Hpk.
  destruct Htab as (Hjobs & Hhist & Hfk).
  repeat split; try assumption.
  intros h Hh. specialize (Hfk h Hh).
  destruct (row_of (DbJobHistory.job_id h) (conn db')) as [r|] eqn:Hrow.
  - now exists r.
  - apply row_of_none_iff in Hrow. contradiction.
Qed.

Lemma requests_keep_store_invariants_witness :
  let db' := fst (run sample_calls (sample_session, [])) in
  dirty db' = []
  /\ conn db' = committed db'
  /\ StronglySorted Z.lt (map DbJob.job_id (app_jobs (conn db')))
  /\ StronglySorted Z.lt (map DbJobHistory.job_history_id (app_job_histories (conn db')))
  /\ (forall h, In h (app_job_histories (conn db')) ->
                exists r, row_of (DbJobHistory.job_id h) (conn db') = Some r)
  /\ pk_unique (conn db').
Proof.
  apply (requests_keep_store_invariants sample_calls sample_session []).
  exact sample_store_ok.
Defined.

(** X2.  No request deletes or reorders a job or changes its [job_id] or
    [created_at]: the list of (job_id, created_at) pairs of the table only
    grows at the end. *)
Theorem requests_never_delete_jobs
    (calls : list Call) (db : Session) (log : list LogRecord) :
  store_ok db ->
  extends (map identity_of (app_jobs (conn db)))
          (map identity_of (app_jobs (conn (fst (run calls (db, log)))))).
Proof.
  intro Hok. apply table_steps_identities.
  exact (proj2 (run_evolves calls (db, log) Hok)).
Qed.

Lemma requests_never_delete_jobs_witness :
  extends (map identity_of (app_jobs (conn sample_session)))
          (map identity_of (app_jobs (conn (fst (run sample_calls (sample_session, [])))))).
Proof.
  apply (requests_never_delete_jobs sample_calls sample_session []).
  exact sample_store_ok.
Defined.

(** X3.  DONE and CANCELED are final: once a job's row holds one of them,
    no sequence of requests changes any column of that row. *)
Theorem finished_jobs_are_frozen
    (calls : list Call) (db : Session) (log : list LogRecord) (job_id : Z) (r : DbJob.t) :
  store_ok db ->
  row_of job_id (conn db) = Some r ->
  DbJob.status r = DONE \/ DbJob.status r = CANCELED ->
  row_of job_id (conn (fst (run calls (db, log)))) = Some r.
Proof.
  intros Hok Hrow Hterm.
  eapply table_steps_terminal; [|exact Hrow | exact Hterm].
  exact (proj2 (run_evolves calls (db, log) Hok)).
Qed.

Lemma finished_jobs_are_frozen_witness :
  row_of 3 (conn (fst (run sample_calls (sample_session, [])))) = Some sample_done.
Proof.
  apply (finished_jobs_are_frozen sample_calls sample_session [] 3 sample_done).
  - exact sample_store_ok.
  - reflexivity.
  - left. reflexivity.
Defined.



(** X5.  The engine refuses every transition out of DONE or CANCELED,
    whatever the target: [db_update_job_status] raises
    [BadPriorStatusError] and rolls back. *)
Theorem no_transition_out_of_finished_status
    (now : datetime) (db_job : Z) (status : JobStatus)
    (next_attempt_at : option datetime) (message : option string)
    (db : Session) (r : DbJob.t) :
  pk_unique (conn db) ->
  row_of db_job (conn db) = Some r ->
  DbJob.status r = DONE \/ DbJob.status r = CANCELED ->
  db_update_job_status now db_job status next_attempt_at message db
  = (Raise BadPriorStatusError, rollback db).
Proof.
  intros Hpk Hrow Hterm.
  rewrite (db_update_job_status_wrong_status now db_job status next_attempt_at message
             db r Hpk Hrow); [reflexivity|].
  destruct status; simpl; destruct Hterm as [-> | ->]; discriminate.
Qed.

Lemma no_transition_out_of_finished_status_witness :
  db_update_job_status 9000 3 PENDING (Some 9500) None sample_session
  = (Raise BadPriorStatusError, rollback sample_session).
Proof.
  apply (no_transition_out_of_finished_status 9000 3 PENDING (Some 9500) None
           sample_session sample_done).
  - exact sample_pk_unique.
  - reflexivity.
  - left. reflexivity.
Defined.

(** ** History listing *)

Lemma histories_before_spec (a b : DbJobHistory.t) :
  histories_before a b = true <-> history_listed_before a b.
Proof.
  unfold histories_before, history_listed_before.
  rewrite orb_true_iff, andb_true_iff, Z.ltb_lt, Z.eqb_eq, Z.leb_le. reflexivity.
Qed.

Lemma histories_before_total (a b : DbJobHistory.t) :
  histories_before a b = false -> histories_before b a = true.
Proof.
  intro H. apply histories_before_spec.
  assert (Hn : ~ history_listed_before a b).
  { intro Hl. apply histories_before_spec in Hl. congruence. }
  unfold history_listed_before in *. lia.
Qed.

Lemma histories_before_trans (a b c : DbJobHistory.t) :
  histories_before a b = true -> histories_before b c = true ->
  histories_before a c = true.
Proof.
  rewrite !histories_before_spec. unfold history_listed_before. lia.
Qed.

Lemma filter_keeps_history_ids (keep : DbJobHistory.t -> bool) (rows : list DbJobHistory.t) :
  NoDup (map DbJobHistory.job_history_id rows) ->
  NoDup (map DbJobHistory.job_history_id (filter keep rows)).
Proof.
  intro Hids. induction rows as [|row rows IH]; [constructor|].
  cbn [map] in Hids. apply NoDup_cons_iff in Hids. destruct Hids as [Hfresh Hids].
  cbn [filter]. destruct (keep row); [|exact (IH Hids)].
  cbn [map]. apply NoDup_cons; [|exact (IH Hids)].
  intro Hdup. apply Hfresh.
  apply in_map_iff in Hdup. destruct Hdup as (other & Hsame & Hkept).
  apply filter_In in Hkept. rewrite <- Hsame. apply in_map. exact (proj1 Hkept).
Qed.

(** X6.  [db_select_job_histories] lists the history rows of the one job,
    later [status_at] first and larger [job_history_id] first among equals,
    and returns [limit] of them from offset [skip]; the pages at offsets 0,
    [limit], 2 [limit], ... put one after the other are that whole list,
    each row of the job once. *)
Theorem history_pages_cover_every_row_once
    (job_id : Z) (skip limit : Z) (db : Session) (n : nat) :
  let entries := filter (fun h => DbJobHistory.job_id h =? job_id)
                        (app_job_histories (conn db)) in
  let listed := order_by histories_before entries in
  NoDup (map DbJobHistory.job_history_id (app_job_histories (conn db))) ->
  0 <= skip ->
  1 <= limit ->
  Z.of_nat (List.length listed) <= Z.of_nat n * limit ->
  db_select_job_histories job_id skip limit db
  = (firstn (Z.to_nat limit) (skipn (Z.to_nat skip) listed), pre_execute db)
  /\ (forall h, In h listed <->
                In h (app_job_histories (conn db)) /\ DbJobHistory.job_id h = job_id)
  /\ StronglySorted history_listed_before listed
  /\ List.concat (map (fun k => fst (db_select_job_histories job_id (Z.of_nat k * limit)
                                                           limit db))
                      (seq 0 n))
     = listed
  /\ NoDup (map DbJobHistory.job_history_id listed).
Proof.
  intros entries listed Hids Hskip Hlimit Hn.
  assert (Hperm : Permutation listed entries) by apply order_by_perm.
  split.
  { unfold db_select_job_histories, offset_limit.
    rewrite pre_execute_histories. fold entries. fold listed.
    replace (limit <? 0) with false by (symmetry; apply Z.ltb_ge; lia).
    reflexivity. }
  split.
  { intro h. split.
    - intro Hin. apply (Permutation_in _ Hperm) in Hin.
      apply filter_In in Hin. destruct Hin as [Hin Hf]. split; [exact Hin|].
      now apply Z.eqb_eq.
    - intros [Hin Hf]. apply (Permutation_in _ (Permutation_sym Hperm)).
      apply filter_In. split; [exact Hin | now apply Z.eqb_eq]. }
  split.
  { apply (StronglySorted_impl (fun a b => histories_before a b = true)).
    - intros a b. apply histories_before_spec.
    - apply order_by_sorted; [apply histories_before_total | apply histories_before_trans]. }
  split.
  { transitivity
      (List.concat (map (fun k => firstn (Z.to_nat limit)
                                         (skipn (k * Z.to_nat limit) listed))
                        (seq 0 n)));
      [| apply pages_concat; nia].
    f_equal. apply map_ext. intro k.
    unfold db_select_job_histories. cbn [fst].
    rewrite pre_execute_histories. fold entries. fold listed.
    apply offset_limit_page. lia. }
  apply (Permutation_NoDup
           (Permutation_sym (Permutation_map DbJobHistory.job_history_id Hperm))).
  now apply filter_keeps_history_ids.
Qed.

(** Seven history rows in three pages of three. *)
Lemma history_pages_cover_every_row_once_witness :
  List.concat (map (fun k => fst (db_select_job_histories 2 (Z.of_nat k * 3) 3
                                                          sample_history_session))
                   (seq 0 3))
  = order_by histories_before
             (filter (fun h => DbJobHistory.job_id h =? 2)
                     (app_job_histories (conn sample_history_session))).
Proof.
  apply (history_pages_cover_every_row_once 2 0 3 sample_history_session 3).
  - simpl. repeat (constructor; [simpl; intuition discriminate|]). constructor.
  - lia.
  - lia.
  - vm_compute. discriminate.
Defined.

(** ** Handlers: creating, fetching and canceling a job *)

Lemma db_insert_job_result (now : datetime) (nat_ : option datetime)
    (msg : option string) (db : Session) :
  let row := DbJob.mk (next_rowid (map DbJob.job_id (app_jobs (conn db)))) now
                      (match nat_ with Some t => t | None => now end) PENDING now msg in
  let tables := mkDb (app_jobs (conn (flush db)) ++ [row])
                     (app_job_histories (conn db)) in
  db_insert_job now nat_ msg db = (Ok row, mkSession tables tables [] (autoflush db)).
Proof.
  intros row tables. unfold db_insert_job, insert_app_jobs.
  rewrite flush_job_ids, flush_histories. fold row.
  change (dirty (flush db)) with (@nil (Z * Assignment)).
  change (autoflush (flush db)) with (autoflush db).
  rewrite commit_eq. unfold patch. cbn [fold_left app_jobs app_job_histories].
  rewrite map_id. fold tables. unfold refresh. cbn [conn committed dirty autoflush filter].
  assert (Hrow : row_of (DbJob.job_id row) tables = Some row).
  { unfold row_of, tables. cbn [app_jobs]. apply find_app_last.
    - intros x Hx. apply Z.eqb_neq.
      assert (Hin : In (DbJob.job_id x) (map DbJob.job_id (app_jobs (conn db)))).
      { rewrite <- flush_job_ids. now apply in_map. }
      pose proof (next_rowid_above _ _ Hin). simpl. lia.
    - apply Z.eqb_refl. }
  cbn [DbJob.job_id row] in Hrow. now rewrite Hrow.
Qed.

Lemma filter_job_id_new_row (rows : list DbJob.t) (row : DbJob.t) :
  (forall x, In x rows -> DbJob.job_id x < DbJob.job_id row) ->
  filter (fun r => DbJob.job_id r =? DbJob.job_id row) (rows ++ [row]) = [row].
Proof.
  intro Hlt. rewrite filter_app. simpl. rewrite Z.eqb_refl.
  replace (filter (fun r => DbJob.job_id r =? DbJob.job_id row) rows) with (@nil DbJob.t);
    [reflexivity|].
  symmetry. induction rows as [|x rows IH]; simpl; [reflexivity|].
  replace (DbJob.job_id x =? DbJob.job_id row) with false.
  - apply IH. intros y Hy. apply Hlt. now right.
  - symmetry. apply Z.eqb_neq. specialize (Hlt x (or_introl eq_refl)). lia.
Qed.

Lemma from_orm_job_id (o : DbJob.t) : Job.job_id (Job.from_orm o) = DbJob.job_id o.
Proof.
  unfold Job.from_orm, Job.blank_next_attempt_at. simpl. now destruct (DbJob.status o).
Qed.

Lemma from_orm_status (o : DbJob.t) : Job.status (Job.from_orm o) = DbJob.status o.
Proof.
  unfold Job.from_orm, Job.blank_next_attempt_at. simpl. now destruct (DbJob.status o).
Qed.

Lemma job_of_last_row (rows : list DbJob.t) (row : DbJob.t)
    (histories : list DbJobHistory.t) (af : bool) :
  (forall x, In x rows -> DbJob.job_id x < DbJob.job_id row) ->
  let db' := mkSession (mkDb (rows ++ [row]) histories) (mkDb (rows ++ [row]) histories)
                       [] af in
  job (DbJob.job_id row) db' = (HTTP_200 (Job.from_orm row), db').
Proof.
  intros Hlt db'. unfold job, db_select_job.
  rewrite (pre_execute_clean db') by reflexivity.
  subst db'. cbn [conn app_jobs].
  now rewrite (filter_job_id_new_row rows row Hlt).
Qed.

Lemma db_select_job_clean (job_id : Z) (db : Session) (r : DbJob.t) :
  clean db -> pk_unique (conn db) -> row_of job_id (conn db) = Some r ->
  db_select_job job_id db = (Ok r, db).
Proof.
  intros [Hd _] Hpk Hrow. unfold db_select_job.
  rewrite (pre_execute_clean db Hd).
  now rewrite (filter_job_id_found _ _ _ Hpk Hrow).
Qed.

Lemma db_select_job_clean_missing (job_id : Z) (db : Session) :
  clean db -> row_of job_id (conn db) = None ->
  db_select_job job_id db = (Raise NoResultFound, db).
Proof.
  intros [Hd _] Hrow. rewrite (db_select_job_missing job_id db Hrow).
  now rewrite (pre_execute_clean db Hd).
Qed.

Lemma cancel_job_of_pending (now : datetime) (job_id : Z) (nat_ : option datetime)
    (msg : option string) (db : Session) (r : DbJob.t) :
  clean db -> pk_unique (conn db) ->
  row_of job_id (conn db) = Some r ->
  DbJob.status r = PENDING ->
  cancel_job now job_id nat_ msg db
  = (HTTP_200 (Job.from_orm (transition_row now CANCELED nat_ msg r)),
     mkSession (transition_tables now job_id CANCELED nat_ msg r (conn db))
               (transition_tables now job_id CANCELED nat_ msg r (conn db))
               [] (autoflush db)).
Proof.
  intros Hclean Hpk Hrow Hst. unfold cancel_job.
  rewrite (db_select_job_clean job_id db r Hclean Hpk Hrow).
  rewrite (row_of_job_id _ _ _ Hrow).
  now rewrite (db_update_job_status_hit now job_id CANCELED nat_ msg db r Hpk
                 (proj1 Hclean) Hrow Hst).
Qed.

Lemma cancel_job_refused (now : datetime) (job_id : Z) (nat_ : option datetime)
    (msg : option string) (db : Session) (r : DbJob.t) :
  clean db -> pk_unique (conn db) ->
  row_of job_id (conn db) = Some r ->
  DbJob.status r <> PENDING ->
  cancel_job now job_id nat_ msg db
  = (HTTP_409_CONFLICT (Job.from_orm r) (DbJob.status r), db).
Proof.
  intros Hclean Hpk Hrow Hst. unfold cancel_job.
  rewrite (db_select_job_clean job_id db r Hclean Hpk Hrow).
  rewrite (row_of_job_id _ _ _ Hrow).
  rewrite (db_update_job_status_wrong_status now job_id CANCELED nat_ msg db r Hpk Hrow Hst).
  destruct Hclean as [Hd Hc]. rewrite <- Hc.
  unfold refresh. cbn [conn committed dirty autoflush filter]. rewrite Hrow.
  f_equal. destruct db as [d c ws af]. simpl in *. now subst.
Qed.

Lemma transition_tables_pk_unique now id st nat_ msg r d :
  pk_unique d -> pk_unique (transition_tables now id st nat_ msg r d).
Proof.
  unfold pk_unique, transition_tables. simpl.
  now rewrite update_where_job_id_ids by reflexivity.
Qed.

(** ** Counting jobs *)

Lemma update_where_job_id_absent (id : Z) (g : DbJob.t -> DbJob.t) (l : list DbJob.t) :
  ~ In id (map DbJob.job_id l) -> update_where_job_id id g l = l.
Proof.
  intro Hnot. unfold update_where_job_id.
  transitivity (map (fun r : DbJob.t => r) l); [|apply map_id].
  apply map_ext_in. intros x Hx.
  destruct (DbJob.job_id x =? id) eqn:E; [|reflexivity].
  apply Z.eqb_eq in E. exfalso. apply Hnot. rewrite <- E. now apply in_map.
Qed.

(** Under the primary key, updating the row [r] moves a sum over the table
    by the difference between [r] before and after. *)
Lemma list_sum_update (wt : DbJob.t -> nat) (id : Z) (g : DbJob.t -> DbJob.t)
    (l : list DbJob.t) (r : DbJob.t) :
  NoDup (map DbJob.job_id l) ->
  find (fun r => DbJob.job_id r =? id) l = Some r ->
  (list_sum (map wt (update_where_job_id id g l)) + wt r
   = list_sum (map wt l) + wt (g r))%nat.
Proof.
  induction l as [|x l IH]; simpl; intros Hnd Hf; [discriminate|].
  inversion Hnd as [|? ? Hnotin Hnd']; subst.
  destruct (DbJob.job_id x =? id) eqn:E.
  - injection Hf as <-. apply Z.eqb_eq in E. rewrite <- E.
    fold (update_where_job_id (DbJob.job_id x) g l).
    rewrite (update_where_job_id_absent _ g l Hnotin). lia.
  - fold (update_where_job_id id g l). specialize (IH Hnd' Hf). lia.
Qed.

Lemma length_filter_sum {A : Type} (p : A -> bool) (l : list A) :
  List.length (filter p l) = list_sum (map (fun x => if p x then 1%nat else 0%nat) l).
Proof.
  induction l as [|x l IH]; simpl; [reflexivity|].
  destruct (p x); simpl; now rewrite IH.
Qed.

Lemma count_status_patch (s : JobStatus) (ws : list (Z * Assignment)) (l : list DbJob.t) :
  List.length (filter (fun r => JobStatus_eqb (DbJob.status r) s) (map (patch ws) l))
  = List.length (filter (fun r => JobStatus_eqb (DbJob.status r) s) l).
Proof.
  induction l as [|x l IH]; simpl; [reflexivity|].
  rewrite patch_status. destruct (JobStatus_eqb (DbJob.status x) s); simpl; now rewrite IH.
Qed.

Lemma count_status_flush (s : JobStatus) (db : Session) :
  count_status s (conn (flush db)) = count_status s (conn db).
Proof.
  unfold count_status. rewrite flush_conn. simpl. now rewrite count_status_patch.
Qed.

(** X12.  Creating a job raises the count of PENDING jobs that
    [db_select_in_flight_counts] reports by one and leaves the count of
    RUNNING jobs as it was. *)
Theorem new_job_counts_as_pending
    (now : datetime) (next_attempt_at : option datetime) (message : option string)
    (db : Session) :
  let db' := snd (db_insert_job now next_attempt_at message db) in
  db_select_in_flight_counts db'
  = ((count_status PENDING (conn db) + 1, count_status RUNNING (conn db)), db').
Proof.
  intro db'. subst db'.
  pose proof (db_insert_job_result now next_attempt_at message db) as Hins.
  cbv zeta in Hins. rewrite Hins. cbn [snd].
  unfold db_select_in_flight_counts. rewrite pre_execute_clean by reflexivity.
  cbn [conn]. f_equal. unfold count_status. cbn [app_jobs].
  rewrite !filter_app, !length_app. cbn [filter DbJob.status JobStatus_eqb List.length].
  pose proof (count_status_flush PENDING db) as Hp.
  pose proof (count_status_flush RUNNING db) as Hr.
  unfold count_status in Hp, Hr. f_equal; lia.
Qed.

Lemma JobStatus_eq_dec (a b : JobStatus) : {a = b} + {a <> b}.
Proof. decide equality. Defined.

(** X13.  A successful transition moves exactly one job from the count of
    the prior status to the count of the target status; the count of every
    other status stays. *)
Theorem transition_moves_one_job_between_counts
    (now : datetime) (db_job : Z) (status : JobStatus)
    (next_attempt_at : option datetime) (message : option string)
    (db : Session) (r : DbJob.t) (s : JobStatus) :
  pk_unique (conn db) ->
  dirty db = [] ->
  row_of db_job (conn db) = Some r ->
  DbJob.status r = prior_status_for status ->
  let db' := snd (db_update_job_status now db_job status next_attempt_at message db) in
  count_status s (conn db')
  = count_status s (conn db)
    - (if JobStatus_eq_dec s (prior_status_for status) then 1 else 0)
    + (if JobStatus_eq_dec s status then 1 else 0).
Proof.
  intros Hpk Hd Hrow Hst db'. subst db'.
  rewrite (db_update_job_status_hit now db_job status next_attempt_at message db r
             Hpk Hd Hrow Hst).
  cbn [snd conn]. unfold count_status, transition_tables. cbn [app_jobs].
  rewrite !length_filter_sum.
  pose proof (list_sum_update
                (fun x => if JobStatus_eqb (DbJob.status x) s then 1%nat else 0%nat)
                db_job (transition_row now status next_attempt_at message)
                (app_jobs (conn db)) r Hpk Hrow) as Hsum.
  cbn beta in Hsum. cbn [transition_row DbJob.status] in Hsum. rewrite Hst in Hsum.
  destruct (JobStatus_eq_dec s (prior_status_for status)) as [E1 | Hn1];
    destruct (JobStatus_eq_dec s status) as [E2 | Hn2].
  - exfalso. rewrite E2 in E1. destruct status; discriminate.
  - replace (JobStatus_eqb (prior_status_for status) s) with true in Hsum
      by (symmetry; apply JobStatus_eqb_eq; congruence).
    replace (JobStatus_eqb status s) with false in Hsum
      by (symmetry; apply JobStatus_eqb_neq; congruence).
    lia.
  - replace (JobStatus_eqb (prior_status_for status) s) with false in Hsum
      by (symmetry; apply JobStatus_eqb_neq; congruence).
    replace (JobStatus_eqb status s) with true in Hsum
      by (symmetry; apply JobStatus_eqb_eq; congruence).
    lia.
  - replace (JobStatus_eqb (prior_status_for status) s) with false in Hsum
      by (symmetry; apply JobStatus_eqb_neq; congruence).
    replace (JobStatus_eqb status s) with false in Hsum
      by (symmetry; apply JobStatus_eqb_neq; congruence).
    lia.
Qed.

(** Starting job 1 of the sample data: one PENDING job fewer. *)
Lemma transition_moves_one_job_between_counts_witness :
  count_status PENDING
    (conn (snd (db_update_job_status 9000 1 RUNNING None None sample_session)))
  = count_status PENDING (conn sample_session) - 1 + 0.
Proof.
  apply (transition_moves_one_job_between_counts 9000 1 RUNNING None None
           sample_session sample_pending PENDING).
  - exact sample_pk_unique.
  - reflexivity.
  - reflexivity.
  - reflexivity.
Defined.

(** ** The simulator on its own *)

(** X14.  A PENDING job the simulator picks up is moved to RUNNING with
    [status_at] set to its [next_attempt_at] plus the [uniform(0.25, 1.5)]
    draw, an empty message and [next_attempt_at] kept; the row is committed
    and the history gains the PENDING state that was left. *)
Theorem simulator_starts_pending_job
    (dr : Draw) (db_job : DbJob.t) (db : Session) (log : list LogRecord) :
  DbJob.status db_job = PENDING ->
  pk_unique (conn db) ->
  dirty db = [] ->
  row_of (DbJob.job_id db_job) (conn db) = Some db_job ->
  exists db',
    advance_job dr db_job (db, log) = (Ok tt, (db', log))
    /\ committed db' = conn db'
    /\ row_of (DbJob.job_id db_job) (conn db')
       = Some (DbJob.mk (DbJob.job_id db_job) (DbJob.created_at db_job)
                        (DbJob.next_attempt_at db_job) RUNNING
                        (DbJob.next_attempt_at db_job + uniform_025_15 dr)
                        (Some ""%string))
    /\ app_job_histories (conn db')
       = app_job_histories (conn db)
           ++ [DbJobHistory.mk
                 (next_rowid (map DbJobHistory.job_history_id (app_job_histories (conn db))))
                 (DbJob.job_id db_job) PENDING (DbJob.status_at db_job)
                 (DbJob.message db_job)].
Proof.
  intros Hst Hpk Hd Hrow.
  assert (Hct : choose_target dr db_job
                = Some (mkTarget RUNNING
                          (Some (DbJob.next_attempt_at db_job + uniform_025_15 dr))
                          None None)).
  { unfold choose_target. now rewrite Hst. }
  rewrite (advance_job_hit dr db_job db log _ db_job Hct Hpk Hd Hrow Hst).
  eexists. split; [reflexivity|]. split; [reflexivity|]. cbn [conn]. split.
  - now rewrite (row_of_advanced_tables dr _ db_job (conn db) Hrow).
  - unfold advanced_tables, history_entry_of. cbn [app_job_histories]. now rewrite Hst.
Qed.

Lemma simulator_starts_pending_job_witness :
  exists db',
    advance_job (mkDraw 300000 6000000 2 9000) sample_pending (sample_session, [])
    = (Ok tt, (db', []))
    /\ committed db' = conn db'
    /\ row_of 1 (conn db') = Some (DbJob.mk 1 1000 5000 RUNNING 305000 (Some ""%string))
    /\ app_job_histories (conn db')
       = app_job_histories (conn sample_session)
           ++ [DbJobHistory.mk 4 1 PENDING 1000 (Some "I created this"%string)].
Proof.
  apply (simulator_starts_pending_job (mkDraw 300000 6000000 2 9000) sample_pending
           sample_session []).
  - reflexivity.
  - exact sample_pk_unique.
  - reflexivity.
  - reflexivity.
Defined.

(** X15.  When a pass of the simulator ends normally, the last SELECT it
    ran found nothing to move: at one of the clock readings of the pass no
    job of the final tables is ready to start or to conclude. *)
Theorem simulator_pass_ends_stable
    (fuel : nat) (oracle : nat -> Scan) (i : nat) (w : World)
    (db' : Session) (log' : list LogRecord) :
  db_fake_advance_jobs fuel oracle i w = (Some (Ok tt), (db', log')) ->
  exists j, (i <= j)%nat
            /\ filter (executable (utcnow (oracle j))) (app_jobs (conn db')) = [].
Proof.
  revert i w. induction fuel as [|fuel IH]; intros i w H; simpl in H; [discriminate|].
  destruct (filter (executable (utcnow (oracle i))) (app_jobs (conn (pre_execute (fst w)))))
    as [|x xs] eqn:F.
  - injection H as <- _. exists i. split; [lia | exact F].
  - destruct (advance_jobs (draw (oracle i)) 0 (x :: xs) (pre_execute (fst w), snd w))
      as [[[]|e] w1]; [|discriminate].
    destruct (IH (S i) w1 H) as (j & Hj & Hstable).
    exists j. split; [lia | exact Hstable].
Qed.

Lemma simulator_pass_ends_stable_witness :
  exists j, (0 <= j)%nat
            /\ filter (executable (utcnow (sample_oracle j)))
                      (app_jobs (conn sample_session)) = [].
Proof.
  apply (simulator_pass_ends_stable 1 sample_oracle 0 (sample_session, [])
           sample_session []).
  reflexivity.
Defined.

(** *** A pass without other writers *)

Lemma in_row_of (d : Db) (r : DbJob.t) :
  pk_unique d -> In r (app_jobs d) -> row_of (DbJob.job_id r) d = Some r.
Proof.
  unfold pk_unique, row_of. induction (app_jobs d) as [|x l IH]; simpl; intros Hnd Hin;
    [contradiction|].
  inversion Hnd as [|? ? Hnotin Hnd']; subst.
  destruct Hin as [-> | Hin]; [now rewrite Z.eqb_refl|].
  destruct (DbJob.job_id x =? DbJob.job_id r) eqn:E; [|now apply IH].
  apply Z.eqb_eq in E. exfalso. apply Hnotin. rewrite E. now apply in_map.
Qed.

Lemma choose_target_live (dr : Draw) (db_job : DbJob.t) :
  DbJob.status db_job = PENDING \/ DbJob.status db_job = RUNNING ->
  exists tg, choose_target dr db_job = Some tg.
Proof.
  unfold choose_target. intros [-> | ->].
  - eexists. reflexivity.
  - destruct (d10 dr =? 0);
      [| destruct ((d10 dr =? 1) || (d10 dr =? 2) || (d10 dr =? 3))];
      eexists; reflexivity.
Qed.

Lemma executable_live (now : datetime) (r : DbJob.t) :
  executable now r = true -> DbJob.status r = PENDING \/ DbJob.status r = RUNNING.
Proof.
  unfold executable. destruct (DbJob.status r); simpl; intro H;
    try discriminate; [now left | now right].
Qed.

Lemma row_of_advanced_tables_other (dr : Draw) (tg : Target) (r : DbJob.t) (d : Db) (id : Z) :
  id <> DbJob.job_id r ->
  row_of id (advanced_tables dr tg r d) = row_of id d.
Proof.
  intro Hne. unfold row_of, advanced_tables. simpl.
  now apply find_update_where_other.
Qed.

Section Batch.
Variable draw : nat -> Draw.
Variable wt : DbJob.t -> nat.
Variable gain : nat.

(** The [for] loop over rows of the table itself: every job is moved, no
    warning is logged, rows outside the batch are left alone, and a weight
    that drops by [gain] with each move drops by [gain] for each job of
    the batch. *)
Lemma advance_jobs_rows (batch : list DbJob.t) :
  forall (k : nat) (db : Session) (log : list LogRecord),
    store_ok db ->
    NoDup (map DbJob.job_id batch) ->
    (forall j, In j batch ->
       row_of (DbJob.job_id j) (conn db) = Some j
       /\ (DbJob.status j = PENDING \/ DbJob.status j = RUNNING)
       /\ forall k' tg, choose_target (draw k') j = Some tg ->
                        (wt (advanced_row (draw k') tg j) + gain <= wt j)%nat) ->
    exists db',
      advance_jobs draw k batch (db, log) = (Ok tt, (db', log))
      /\ store_ok db'
      /\ (forall id, ~ In id (map DbJob.job_id batch) ->
                     row_of id (conn db') = row_of id (conn db))
      /\ (list_sum (map wt (app_jobs (conn db'))) + gain * List.length batch
          <= list_sum (map wt (app_jobs (conn db))))%nat.
Proof.
  induction batch as [|j rest IH]; intros k db log Hok Hnd Hbatch.
  - exists db. simpl. split; [reflexivity|]. split; [exact Hok|].
    split; [reflexivity | lia].
  - cbn [map] in Hnd. apply NoDup_cons_iff in Hnd. destruct Hnd as [Hfresh Hnd].
    destruct (Hbatch j (or_introl eq_refl)) as (Hrow & Hlive & Hdrop).
    destruct (choose_target_live (draw k) j Hlive) as [tg Hct].
    pose proof Hok as [[Hd Hc] Htab].
    pose proof (tables_ok_pk_unique _ Htab) as Hpk.
    assert (Hprior : DbJob.status j = prior_status_for (target_status tg)).
    { symmetry. now apply (choose_target_prior (draw k) j). }
    cbn [advance_jobs].
    rewrite (advance_job_hit (draw k) j db log tg j Hct Hpk Hd Hrow Hprior).
    set (db1 := mkSession (advanced_tables (draw k) tg j (conn db))
                          (advanced_tables (draw k) tg j (conn db)) [] (autoflush db)).
    assert (Hok1 : store_ok db1).
    { split; [apply committed_session_clean|]. subst db1. cbn [conn].
      eapply table_step_tables_ok; [|exact Htab]. now apply advanced_step. }
    destruct (IH (S k) db1 log Hok1 Hnd) as (db' & Hrun & Hok' & Hout & Hsum).
    { intros j' Hj'. destruct (Hbatch j' (or_intror Hj')) as (Hrow' & Hlive' & Hdrop').
      split; [|split; assumption].
      subst db1. cbn [conn]. rewrite row_of_advanced_tables_other; [exact Hrow'|].
      intro Heq. apply Hfresh. rewrite <- Heq. now apply in_map. }
    exists db'. split; [exact Hrun|]. split; [exact Hok'|]. split.
    + intros id Hid. rewrite Hout by (intro Hin; apply Hid; now right).
      subst db1. cbn [conn]. apply row_of_advanced_tables_other.
      intro Heq. apply Hid. left. now symmetry.
    + pose proof (list_sum_update wt (DbJob.job_id j) (advanced_row (draw k) tg)
                    (app_jobs (conn db)) j Hpk Hrow) as Hupd.
      specialize (Hdrop k tg Hct).
      subst db1. cbn [conn advanced_tables app_jobs] in Hsum.
      cbn [List.length]. nia.
Qed.
End Batch.

(** What the simulator's SELECT returns are rows of the table, each found
    again by its [job_id]. *)
Lemma executable_batch (now : datetime) (db : Session) :
  store_ok db ->
  let batch := filter (executable now) (app_jobs (conn db)) in
  NoDup (map DbJob.job_id batch)
  /\ forall j, In j batch ->
       row_of (DbJob.job_id j) (conn db) = Some j
       /\ (DbJob.status j = PENDING \/ DbJob.status j = RUNNING)
       /\ executable now j = true.
Proof.
  intros [_ Htab] batch. pose proof (tables_ok_pk_unique _ Htab) as Hpk. split.
  - now apply filter_keeps_pk.
  - intros j Hj. apply filter_In in Hj. destruct Hj as [Hin Hex].
    split; [now apply in_row_of|]. split; [now apply (executable_live now) | exact Hex].
Qed.

Lemma db_fake_advance_jobs_silent (oracle : nat -> Scan) (fuel : nat) :
  forall (i : nat) (db : Session) (log : list LogRecord),
    store_ok db ->
    exists res db',
      db_fake_advance_jobs fuel oracle i (db, log) = (res, (db', log))
      /\ (res = None \/ res = Some (Ok tt))
      /\ store_ok db'.
Proof.
  induction fuel as [|fuel IH]; intros i db log Hok; cbn [db_fake_advance_jobs fst snd].
  - exists None, db. split; [reflexivity|]. split; [now left | exact Hok].
  - rewrite (pre_execute_clean db) by (now destruct Hok as [[Hd _] _]).
    destruct (executable_batch (utcnow (oracle i)) db Hok) as [Hnd Hbatch].
    destruct (filter (executable (utcnow (oracle i))) (app_jobs (conn db)))
      as [|x xs] eqn:F.
    + exists (Some (Ok tt)), db. split; [reflexivity|]. split; [now right | exact Hok].
    + destruct (advance_jobs_rows (draw (oracle i)) (fun _ => 0%nat) 0 (x :: xs) 0 db log
                  Hok Hnd) as (db1 & Hrun & Hok1 & _ & _).
      { intros j Hj. destruct (Hbatch j Hj) as (Hrow & Hlive & _).
        split; [exact Hrow|]. split; [exact Hlive|]. intros k' tg _. lia. }
      rewrite Hrun. apply IH. exact Hok1.
Qed.

(** X16.  With no other writer on the tables, a pass of the simulator
    logs nothing and raises nothing: every job its SELECT returns is moved,
    so neither the warning for a conflict nor the one for an unexpected
    status is written, and the store invariants hold when it stops. *)
Theorem simulator_alone_is_silent
    (fuel : nat) (oracle : nat -> Scan) (i : nat) (db : Session) (log : list LogRecord) :
  store_ok db ->
  exists res db',
    db_fake_advance_jobs fuel oracle i (db, log) = (res, (db', log))
    /\ (res = None \/ res = Some (Ok tt))
    /\ store_ok db'.
Proof. intro Hok. now apply db_fake_advance_jobs_silent. Qed.

Lemma simulator_alone_is_silent_witness :
  exists res db',
    db_fake_advance_jobs 5 sample_oracle_3s 0 (sample_session, []) = (res, (db', []))
    /\ (res = None \/ res = Some (Ok tt))
    /\ store_ok db'.
Proof.
  apply (simulator_alone_is_silent 5 sample_oracle_3s 0 sample_session []).
  exact sample_store_ok.
Defined.

Lemma remaining_drops (T now : datetime) (dr : Draw) (j : DbJob.t) (tg : Target) :
  executable now j = true ->
  now <= T ->
  draw_in_range dr ->
  choose_target dr j = Some tg ->
  (remaining T (advanced_row dr tg j) + Z.to_nat 250000 <= remaining T j)%nat.
Proof.
  unfold executable, choose_target, remaining, advanced_row, draw_in_range, seconds.
  intros Hex Hnow (Hu1 & Hu2 & _) Hct.
  destruct (DbJob.status j) eqn:Hst; simpl in Hex; try discriminate.
  - rewrite orb_false_r in Hex. apply Z.ltb_lt in Hex.
    injection Hct as <-. cbn [target_status target_status_at DbJob.status DbJob.status_at].
    lia.
  - apply Z.ltb_lt in Hex.
    destruct (d10 dr =? 0);
      [| destruct ((d10 dr =? 1) || (d10 dr =? 2) || (d10 dr =? 3))];
      injection Hct as <-;
      cbn [target_status target_status_at target_next_attempt_at
           DbJob.status DbJob.status_at DbJob.next_attempt_at]; lia.
Qed.

(** X17.  As long as the clock readings stay at or below an instant [T]
    and the draws are in the ranges the source asks for, a pass of the
    simulator on its own reaches its [break]: every move puts a job's clock
    forward by a quarter of a second at least, so the pass ends within one
    scan for each quarter of a second the live jobs are behind [T]. *)
Theorem simulator_pass_terminates
    (T : datetime) (oracle : nat -> Scan) (fuel : nat) (i : nat)
    (db : Session) (log : list LogRecord) :
  store_ok db ->
  (forall j, utcnow (oracle j) <= T) ->
  (forall j k, draw_in_range (draw (oracle j) k)) ->
  Z.of_nat (pass_bound T (conn db)) < 250000 * Z.of_nat fuel ->
  exists db',
    db_fake_advance_jobs fuel oracle i (db, log) = (Some (Ok tt), (db', log))
    /\ store_ok db'.
Proof.
  intros Hok Hclock Hdraws. revert i db Hok.
  induction fuel as [|fuel IH]; intros i db Hok Hbound; [lia|].
  cbn [db_fake_advance_jobs fst snd].
  rewrite (pre_execute_clean db) by (now destruct Hok as [[Hd _] _]).
  destruct (executable_batch (utcnow (oracle i)) db Hok) as [Hnd Hbatch].
  destruct (filter (executable (utcnow (oracle i))) (app_jobs (conn db)))
    as [|x xs] eqn:F.
  - exists db. split; [reflexivity | exact Hok].
  - destruct (advance_jobs_rows (draw (oracle i)) (remaining T) (Z.to_nat 250000)
                (x :: xs) 0 db log Hok Hnd) as (db1 & Hrun & Hok1 & _ & Hsum).
    { intros j Hj. destruct (Hbatch j Hj) as (Hrow & Hlive & Hex).
      split; [exact Hrow|]. split; [exact Hlive|].
      intros k' tg Hct.
      now apply (remaining_drops T (utcnow (oracle i)) (draw (oracle i) k')). }
    rewrite Hrun. apply IH; [exact Hok1|].
    unfold pass_bound in *. cbn [List.length] in Hsum. nia.
Qed.

(** At three seconds job 1 of the sample data is due; the pass that starts
    it ends well within twenty-five scans. *)
Lemma simulator_pass_terminates_witness :
  exists db',
    db_fake_advance_jobs 25 sample_oracle_3s 0 (sample_session, [])
    = (Some (Ok tt), (db', []))
    /\ store_ok db'.
Proof.
  apply (simulator_pass_terminates 3000000 sample_oracle_3s 25 0 sample_session []).
  - exact sample_store_ok.
  - intro j. simpl. lia.
  - intros j k. unfold draw_in_range, seconds. simpl. lia.
  - unfold pass_bound, remaining. cbn [sample_session conn sample_tables app_jobs map
      sample_pending sample_running sample_done DbJob.status DbJob.next_attempt_at
      DbJob.status_at list_sum fold_right]. lia.
Defined.

Lemma db_fake_advance_jobs_untouched (oracle : nat -> Scan) (id : Z) (r : DbJob.t)
    (fuel : nat) :
  (forall j, executable (utcnow (oracle j)) r = false) ->
  forall (i : nat) (db : Session) (log : list LogRecord),
    store_ok db ->
    row_of id (conn db) = Some r ->
    row_of id (conn (fst (snd (db_fake_advance_jobs fuel oracle i (db, log))))) = Some r.
Proof.
  intro Hnot. induction fuel as [|fuel IH]; intros i db log Hok Hrow;
    cbn [db_fake_advance_jobs fst snd]; [exact Hrow|].
  rewrite (pre_execute_clean db) by (now destruct Hok as [[Hd _] _]).
  destruct (executable_batch (utcnow (oracle i)) db Hok) as [Hnd Hbatch].
  destruct (filter (executable (utcnow (oracle i))) (app_jobs (conn db)))
    as [|x xs] eqn:F; [exact Hrow|].
  destruct (advance_jobs_rows (draw (oracle i)) (fun _ => 0%nat) 0 (x :: xs) 0 db log
              Hok Hnd) as (db1 & Hrun & Hok1 & Hout & _).
  { intros j Hj. destruct (Hbatch j Hj) as (Hrow' & Hlive & _).
    split; [exact Hrow'|]. split; [exact Hlive|]. intros k' tg _. lia. }
  rewrite Hrun. apply IH; [exact Hok1|].
  rewrite Hout; [exact Hrow|].
  intro Hin. apply in_map_iff in Hin. destruct Hin as (j & Hid & Hj).
  destruct (Hbatch j Hj) as (Hrow' & _ & Hex).
  rewrite Hid, Hrow in Hrow'. injection Hrow' as ->.
  rewrite Hnot in Hex. discriminate.
Qed.

(** X18.  A pass of the simulator on its own changes only jobs that are
    due: a row that is not selected at any clock reading of the pass (a
    PENDING job scheduled for later, a RUNNING job started less than ten
    seconds ago, a finished job) is the same row afterwards. *)
Theorem simulator_leaves_jobs_not_due_alone
    (fuel : nat) (oracle : nat -> Scan) (i : nat) (db : Session)
    (log : list LogRecord) (job_id : Z) (r : DbJob.t) :
  store_ok db ->
  row_of job_id (conn db) = Some r ->
  (forall j, executable (utcnow (oracle j)) r = false) ->
  row_of job_id (conn (fst (snd (db_fake_advance_jobs fuel oracle i (db, log))))) = Some r.
Proof.
  intros Hok Hrow Hnot. now apply db_fake_advance_jobs_untouched.
Qed.

(** At three seconds job 2 of the sample data, RUNNING since 3000, is not
    due. *)
Lemma simulator_leaves_jobs_not_due_alone_witness :
  row_of 2 (conn (fst (snd (db_fake_advance_jobs 25 sample_oracle_3s 0
                                                 (sample_session, [])))))
  = Some sample_running.
Proof.
  apply (simulator_leaves_jobs_not_due_alone 25 sample_oracle_3s 0 sample_session []
           2 sample_running).
  - exact sample_store_ok.
  - reflexivity.
  - intro j. reflexivity.
Defined.

(** ** Requests served one after the other *)

Lemma _fake_advance_jobs_hack_quiet {A : Type} (fuel : nat) (oracle : nat -> Scan)
    (func : Session -> Response A * Session) (w : World) :
  store_ok (fst w) ->
  snd (snd (_fake_advance_jobs_hack fuel oracle func w)) = snd w.
Proof.
  destruct w as [db log]. cbn [fst snd]. intro Hok. unfold _fake_advance_jobs_hack.
  destruct (db_fake_advance_jobs_silent oracle fuel 0 db log Hok)
    as (res & db1 & Hrun & [-> | ->] & _); rewrite Hrun.
  - reflexivity.
  - now destruct (func db1).
Qed.

Lemma serve_quiet (fuel : nat) (oracle : nat -> Scan) (now : datetime)
    (req : Request) (w : World) :
  store_ok (fst w) -> snd (snd (serve fuel oracle now req w)) = snd w.
Proof.
  intro Hok. destruct req; cbn [serve];
    try (now apply _fake_advance_jobs_hack_quiet);
    (destruct (query_bounds skip limit);
       [now apply _fake_advance_jobs_hack_quiet | reflexivity]).
Qed.

(** X19.  Requests served one after the other on one session never make
    the application log: no job is ever found with an unexpected status, no
    transition of the simulator is refused, and the simulator never fails
    under the decorator. *)
Theorem sequential_requests_log_nothing
    (calls : list Call) (db : Session) (log : list LogRecord) :
  store_ok db ->
  snd (run calls (db, log)) = log.
Proof.
  revert db log. induction calls as [|c calls IH]; intros db log Hok; [reflexivity|].
  cbn [run].
  pose proof (serve_evolves (call_fuel c) (call_oracle c) (call_now c)
                (call_request c) (db, log) Hok) as Hev.
  pose proof (serve_quiet (call_fuel c) (call_oracle c) (call_now c)
                (call_request c) (db, log) Hok) as Hq.
  cbn [fst snd] in Hev, Hq.
  destruct (serve (call_fuel c) (call_oracle c) (call_now c) (call_request c) (db, log))
    as [answer [db1 log1]]. cbn [fst snd] in *. subst log1.
  apply IH. eapply evolves_store_ok; eassumption.
Qed.

Lemma sequential_requests_log_nothing_witness :
  snd (run sample_calls (sample_session, [])) = [].
Proof.
  apply (sequential_requests_log_nothing sample_calls sample_session []).
  exact sample_store_ok.
Defined.

Lemma no_history_of_fresh_job (d : Db) :
  tables_ok d ->
  filter (fun h => DbJobHistory.job_id h =? next_rowid (map DbJob.job_id (app_jobs d)))
         (app_job_histories d) = [].
Proof.
  intros (_ & _ & Hfk).
  destruct (filter _ (app_job_histories d)) as [|h hs] eqn:F; [reflexivity|].
  assert (Hh : In h (filter (fun h => DbJobHistory.job_id h
                                      =? next_rowid (map DbJob.job_id (app_jobs d)))
                            (app_job_histories d))) by (rewrite F; now left).
  apply filter_In in Hh. destruct Hh as [Hin Heq]. apply Z.eqb_eq in Heq.
  pose proof (next_rowid_above _ _ (Hfk h Hin)). lia.
Qed.


(** ** The shipped endpoints when no job is due *)

Lemma filter_all_false {A : Type} (f : A -> bool) (l : list A) :
  (forall x, In x l -> f x = false) -> filter f l = [].
Proof.
  induction l as [|x l IH]; intro H; simpl; [reflexivity|].
  rewrite (H x (or_introl eq_refl)). apply IH. intros y Hy. apply H. now right.
Qed.

(** With nothing due the pass in front of a handler does nothing, and the
    request is answered by the handler on the session as it was. *)
Lemma _fake_advance_jobs_hack_nothing_due {A : Type} (fuel : nat) (oracle : nat -> Scan)
    (func : Session -> Response A * Session) (db : Session) (log : list LogRecord) :
  clean db ->
  nothing_due oracle (conn db) ->
  _fake_advance_jobs_hack (S fuel) oracle func (db, log)
  = (Some (fst (func db)), (snd (func db), log)).
Proof.
  intros [Hd _] Hquiet. unfold _fake_advance_jobs_hack. cbn [db_fake_advance_jobs fst snd].
  rewrite (pre_execute_clean db Hd).
  rewrite (filter_all_false _ _ (fun x Hx => Hquiet x Hx 0%nat)).
  now destruct (func db).
Qed.

Lemma executable_canceled (now now' : datetime) (nat_ : option datetime)
    (msg : option string) (r : DbJob.t) :
  executable now (transition_row now' CANCELED nat_ msg r) = false.
Proof. reflexivity. Qed.

(** Canceling a job leaves nothing due where nothing but that job was. *)
Lemma nothing_due_after_cancel (oracle : nat -> Scan) (now : datetime) (id : Z)
    (nat_ : option datetime) (msg : option string) (r : DbJob.t) (d : Db) :
  (forall y, In y (app_jobs d) -> DbJob.job_id y <> id ->
             forall k, executable (utcnow (oracle k)) y = false) ->
  nothing_due oracle (transition_tables now id CANCELED nat_ msg r d).
Proof.
  intros Hothers x Hx k. unfold transition_tables, update_where_job_id in Hx.
  cbn [app_jobs] in Hx. apply in_map_iff in Hx. destruct Hx as (y & <- & Hy).
  destruct (DbJob.job_id y =? id) eqn:E.
  - apply executable_canceled.
  - apply Hothers; [exact Hy | now apply Z.eqb_neq].
Qed.

Lemma nothing_due_after_insert (oracle : nat -> Scan) (rows : list DbJob.t)
    (row : DbJob.t) (histories : list DbJobHistory.t) :
  nothing_due oracle (mkDb rows histories) ->
  (forall k, executable (utcnow (oracle k)) row = false) ->
  nothing_due oracle (mkDb (rows ++ [row]) histories).
Proof.
  intros Hrows Hrow x Hx k. cbn [app_jobs] in Hx. apply in_app_or in Hx.
  destruct Hx as [Hx | [<- | []]]; [now apply Hrows | apply Hrow].
Qed.

Lemma pending_not_due (now : datetime) (r : DbJob.t) :
  DbJob.status r = PENDING ->
  now - seconds 2 <= DbJob.next_attempt_at r ->
  executable now r = false.
Proof.
  intros Hst Hlate. unfold executable. rewrite Hst. simpl.
  rewrite orb_false_r. apply Z.ltb_ge. exact Hlate.
Qed.

Lemma sample_nothing_due : nothing_due sample_oracle (conn sample_session).
Proof. intros r [<- | [<- | [<- | []]]] k; reflexivity. Defined.

Lemma sample_clean : clean sample_session.
Proof. split; reflexivity. Defined.

(** X7.  When no job is due, a job created through POST /job/new with a
    [next_attempt_at] that is not yet due can be fetched at once: GET
    /job/{job_id} with the [job_id] of the answer returns the very same
    PENDING view and leaves the session as the creation left it. *)
Theorem created_job_can_be_fetched
    (fuel fuel' : nat) (oracle oracle' : nat -> Scan) (now now' : datetime)
    (next_attempt_at : option datetime) (message : option string)
    (db : Session) (log : list LogRecord) :
  clean db ->
  nothing_due oracle (conn db) ->
  nothing_due oracle' (conn db) ->
  (forall k, utcnow (oracle' k) - seconds 2
             <= match next_attempt_at with Some t => t | None => now end) ->
  exists j db1,
    serve (S fuel) oracle now (POST_job_new next_attempt_at message) (db, log)
    = (Some (HTTP_200 (job_body j)), (db1, log))
    /\ Job.status j = PENDING
    /\ serve (S fuel') oracle' now' (GET_job (Job.job_id j)) (db1, log)
       = (Some (HTTP_200 (job_body j)), (db1, log)).
Proof.
  intros Hclean Hquiet Hquiet' Hlate.
  pose proof (db_insert_job_result now next_attempt_at message db) as Hins.
  cbv zeta in Hins. rewrite (flush_clean db (proj1 Hclean)) in Hins.
  set (row := DbJob.mk (next_rowid (map DbJob.job_id (app_jobs (conn db)))) now
                       (match next_attempt_at with Some t => t | None => now end)
                       PENDING now message) in *.
  set (tables1 := mkDb (app_jobs (conn db) ++ [row]) (app_job_histories (conn db))) in *.
  set (db1 := mkSession tables1 tables1 [] (autoflush db)) in *.
  exists (Job.from_orm row), db1.
  split.
  { cbn [serve]. rewrite (_fake_advance_jobs_hack_nothing_due _ _ _ _ _ Hclean Hquiet).
    unfold new_job. rewrite Hins. reflexivity. }
  split; [apply from_orm_status|].
  cbn [serve]. rewrite _fake_advance_jobs_hack_nothing_due.
  - rewrite from_orm_job_id.
    pose proof (job_of_last_row (app_jobs (conn db)) row (app_job_histories (conn db))
                  (autoflush db)) as Hjob.
    cbv zeta in Hjob. fold tables1 in Hjob. fold db1 in Hjob. rewrite Hjob; [reflexivity|].
    intros x Hx. subst row. cbn [DbJob.job_id].
    apply next_rowid_above. now apply in_map.
  - apply committed_session_clean.
  - subst db1 tables1. cbn [conn]. apply nothing_due_after_insert.
    + rewrite Db_eta. exact Hquiet'.
    + intro k. apply pending_not_due; [reflexivity | apply Hlate].
Qed.

Lemma created_job_can_be_fetched_witness :
  exists j db1,
    serve 1 sample_oracle 8000 (POST_job_new None (Some "I created this"%string))
          (sample_session, [])
    = (Some (HTTP_200 (job_body j)), (db1, []))
    /\ Job.status j = PENDING
    /\ serve 1 sample_oracle 8500 (GET_job (Job.job_id j)) (db1, [])
       = (Some (HTTP_200 (job_body j)), (db1, [])).
Proof.
  apply (created_job_can_be_fetched 0 0 sample_oracle sample_oracle 8000 8500 None
           (Some "I created this"%string) sample_session []).
  - exact sample_clean.
  - exact sample_nothing_due.
  - exact sample_nothing_due.
  - intro k. unfold seconds. simpl. lia.
Defined.

(** X8.  When no job is due, POST /job/cancel/{job_id} on a PENDING job
    answers 200 with the job CANCELED, its [status_at] set to the clock,
    the given message (the empty string when none is given) and no
    [next_attempt_at] shown; the row is committed, and the history gains one
    row holding the PENDING state that was left. *)
Theorem cancel_pending_job
    (fuel : nat) (oracle : nat -> Scan) (now : datetime) (job_id : Z)
    (next_attempt_at : option datetime) (message : option string)
    (db : Session) (log : list LogRecord) (r : DbJob.t) :
  clean db ->
  pk_unique (conn db) ->
  nothing_due oracle (conn db) ->
  row_of job_id (conn db) = Some r ->
  DbJob.status r = PENDING ->
  exists db',
    serve (S fuel) oracle now (POST_job_cancel job_id next_attempt_at message) (db, log)
    = (Some (HTTP_200
               (job_body (Job.mk job_id (DbJob.created_at r) CANCELED now
                                 (match message with Some m => m | None => EmptyString end)
                                 None))),
       (db', log))
    /\ clean db'
    /\ (exists r', row_of job_id (conn db') = Some r' /\ DbJob.status r' = CANCELED)
    /\ app_job_histories (conn db')
       = app_job_histories (conn db)
           ++ [DbJobHistory.mk
                 (next_rowid (map DbJobHistory.job_history_id (app_job_histories (conn db))))
                 job_id PENDING (DbJob.status_at r) (DbJob.message r)].
Proof.
  intros Hclean Hpk Hquiet Hrow Hst.
  pose proof (row_of_job_id _ _ _ Hrow) as Hid.
  eexists. split.
  { cbn [serve]. rewrite (_fake_advance_jobs_hack_nothing_due _ _ _ _ _ Hclean Hquiet).
    rewrite (cancel_job_of_pending now job_id next_attempt_at message db r
               Hclean Hpk Hrow Hst).
    unfold with_body, Job.from_orm, Job.blank_next_attempt_at, transition_row. simpl.
    rewrite Hid. reflexivity. }
  split; [apply committed_session_clean|]. split.
  - eexists. simpl. split; [now apply row_of_transition_tables | reflexivity].
  - simpl. unfold history_entry_of. now rewrite Hid, Hst.
Qed.

Lemma cancel_pending_job_witness :
  exists db',
    serve 1 sample_oracle 9000 (POST_job_cancel 1 None (Some "X"%string))
          (sample_session, [])
    = (Some (HTTP_200 (job_body (Job.mk 1 1000 CANCELED 9000 "X"%string None))), (db', []))
    /\ clean db'
    /\ (exists r', row_of 1 (conn db') = Some r' /\ DbJob.status r' = CANCELED)
    /\ app_job_histories (conn db')
       = app_job_histories (conn sample_session)
           ++ [DbJobHistory.mk 4 1 PENDING 1000 (Some "I created this"%string)].
Proof.
  apply (cancel_pending_job 0 sample_oracle 9000 1 None (Some "X"%string)
           sample_session [] sample_pending).
  - exact sample_clean.
  - exact sample_pk_unique.
  - exact sample_nothing_due.
  - reflexivity.
  - reflexivity.
Defined.

(** X9.  When no job is due, POST /job/cancel/{job_id} refuses what it
    cannot cancel and leaves session and log as they were: a [job_id]
    without a row is answered with 404, and a job that is not PENDING with
    409, carrying the job's current view and status. *)
Theorem cancel_job_refusals
    (fuel : nat) (oracle : nat -> Scan) (now : datetime) (job_id : Z)
    (next_attempt_at : option datetime) (message : option string)
    (db : Session) (log : list LogRecord) :
  clean db ->
  pk_unique (conn db) ->
  nothing_due oracle (conn db) ->
  match row_of job_id (conn db) with
  | None =>
      serve (S fuel) oracle now (POST_job_cancel job_id next_attempt_at message) (db, log)
      = (Some (HTTP_404_NOT_FOUND job_id), (db, log))
  | Some r =>
      DbJob.status r <> PENDING ->
      serve (S fuel) oracle now (POST_job_cancel job_id next_attempt_at message) (db, log)
      = (Some (HTTP_409_CONFLICT (Job.from_orm r) (DbJob.status r)), (db, log))
  end.
Proof.
  intros Hclean Hpk Hquiet. destruct (row_of job_id (conn db)) as [r|] eqn:Hrow.
  - intro Hst. cbn [serve].
    rewrite (_fake_advance_jobs_hack_nothing_due _ _ _ _ _ Hclean Hquiet).
    now rewrite (cancel_job_refused now job_id next_attempt_at message db r
                   Hclean Hpk Hrow Hst).
  - cbn [serve]. rewrite (_fake_advance_jobs_hack_nothing_due _ _ _ _ _ Hclean Hquiet).
    unfold cancel_job. now rewrite (db_select_job_clean_missing job_id db Hclean Hrow).
Qed.

Lemma cancel_job_refusals_witness :
  serve 1 sample_oracle 9000 (POST_job_cancel 7 None None) (sample_session, [])
  = (Some (HTTP_404_NOT_FOUND 7), (sample_session, []))
  /\ serve 1 sample_oracle 9000 (POST_job_cancel 2 None None) (sample_session, [])
     = (Some (HTTP_409_CONFLICT (Job.from_orm sample_running) RUNNING),
        (sample_session, [])).
Proof.
  split.
  - apply (cancel_job_refusals 0 sample_oracle 9000 7 None None sample_session []);
      [exact sample_clean | exact sample_pk_unique | exact sample_nothing_due].
  - apply (cancel_job_refusals 0 sample_oracle 9000 2 None None sample_session []);
      [exact sample_clean | exact sample_pk_unique | exact sample_nothing_due
      | discriminate].
Defined.

(** X10.  When no job is due, GET /job/{job_id} answers 200 with the view
    of the row when the job exists and 404 when it does not, and leaves
    session and log as they were. *)
Theorem job_endpoint_contract
    (fuel : nat) (oracle : nat -> Scan) (now : datetime) (job_id : Z)
    (db : Session) (log : list LogRecord) :
  clean db ->
  pk_unique (conn db) ->
  nothing_due oracle (conn db) ->
  serve (S fuel) oracle now (GET_job job_id) (db, log)
  = (Some (match row_of job_id (conn db) with
           | Some r => HTTP_200 (job_body (Job.from_orm r))
           | None => HTTP_404_NOT_FOUND job_id
           end),
     (db, log)).
Proof.
  intros Hclean Hpk Hquiet. cbn [serve].
  rewrite (_fake_advance_jobs_hack_nothing_due _ _ _ _ _ Hclean Hquiet).
  unfold job. destruct (row_of job_id (conn db)) as [r|] eqn:Hrow.
  - now rewrite (db_select_job_clean job_id db r Hclean Hpk Hrow).
  - now rewrite (db_select_job_clean_missing job_id db Hclean Hrow).
Qed.

Lemma job_endpoint_contract_witness :
  serve 1 sample_oracle 9000 (GET_job 2) (sample_session, [])
  = (Some (HTTP_200 (job_body (Job.from_orm sample_running))), (sample_session, []))
  /\ serve 1 sample_oracle 9000 (GET_job 7) (sample_session, [])
     = (Some (HTTP_404_NOT_FOUND 7), (sample_session, [])).
Proof.
  split.
  - apply (job_endpoint_contract 0 sample_oracle 9000 2 sample_session []);
      [exact sample_clean | exact sample_pk_unique | exact sample_nothing_due].
  - apply (job_endpoint_contract 0 sample_oracle 9000 7 sample_session []);
      [exact sample_clean | exact sample_pk_unique | exact sample_nothing_due].
Defined.

(** X11.  When no job is due, a job can be canceled once: after a
    successful POST /job/cancel/{job_id}, a second one on the same job,
    whatever its arguments, is answered with 409 with status CANCELED and
    the view the first returned, and leaves session and log as they
    were. *)
Theorem cancel_job_twice
    (fuel fuel' : nat) (oracle oracle' : nat -> Scan) (now now' : datetime) (job_id : Z)
    (next_attempt_at next_attempt_at' : option datetime)
    (message message' : option string) (db : Session) (log : list LogRecord) (r : DbJob.t) :
  clean db ->
  pk_unique (conn db) ->
  nothing_due oracle (conn db) ->
  nothing_due oracle' (conn db) ->
  row_of job_id (conn db) = Some r ->
  DbJob.status r = PENDING ->
  exists j db',
    serve (S fuel) oracle now (POST_job_cancel job_id next_attempt_at message) (db, log)
    = (Some (HTTP_200 (job_body j)), (db', log))
    /\ serve (S fuel') oracle' now' (POST_job_cancel job_id next_attempt_at' message')
             (db', log)
       = (Some (HTTP_409_CONFLICT j CANCELED), (db', log)).
Proof.
  intros Hclean Hpk Hquiet Hquiet' Hrow Hst.
  eexists. eexists. split.
  { cbn [serve]. rewrite (_fake_advance_jobs_hack_nothing_due _ _ _ _ _ Hclean Hquiet).
    rewrite (cancel_job_of_pending now job_id next_attempt_at message db r
               Hclean Hpk Hrow Hst).
    reflexivity. }
  cbn [serve]. rewrite _fake_advance_jobs_hack_nothing_due.
  - rewrite (cancel_job_refused now' job_id next_attempt_at' message' _
               (transition_row now CANCELED next_attempt_at message r)).
    + reflexivity.
    + apply committed_session_clean.
    + cbn [conn]. now apply transition_tables_pk_unique.
    + cbn [conn]. now apply row_of_transition_tables.
    + cbn. discriminate.
  - apply committed_session_clean.
  - cbn [conn]. apply nothing_due_after_cancel. intros y Hy _ k. now apply Hquiet'.
Qed.

Lemma cancel_job_twice_witness :
  exists j db',
    serve 1 sample_oracle 9000 (POST_job_cancel 1 None (Some "X"%string))
          (sample_session, [])
    = (Some (HTTP_200 (job_body j)), (db', []))
    /\ serve 1 sample_oracle 9500 (POST_job_cancel 1 (Some 9900) None) (db', [])
       = (Some (HTTP_409_CONFLICT j CANCELED), (db', [])).
Proof.
  apply (cancel_job_twice 0 0 sample_oracle sample_oracle 9000 9500 1 None (Some 9900)
           (Some "X"%string) None sample_session [] sample_pending).
  - exact sample_clean.
  - exact sample_pk_unique.
  - exact sample_nothing_due.
  - exact sample_nothing_due.
  - reflexivity.
  - reflexivity.
Defined.

(** X20.  When no job is due and the new job is not due either: create a
    job through POST /job/new, cancel it through POST /job/cancel, list its
    history through GET /job/{job_id}/history.  The listing holds exactly
    one entry, the PENDING state the job was created in, with the creation
    time and the message given at creation (the empty string for none). *)
Theorem history_of_canceled_new_job
    (fuel fuel' fuel'' : nat) (oracle oracle' oracle'' : nat -> Scan)
    (now now' now'' : datetime) (next_attempt_at next_attempt_at' : option datetime)
    (message message' : option string) (limit : Z)
    (db : Session) (log : list LogRecord) :
  store_ok db ->
  1 <= limit <= 100 ->
  nothing_due oracle (conn db) ->
  nothing_due oracle' (conn db) ->
  nothing_due oracle'' (conn db) ->
  (forall k, utcnow (oracle' k) - seconds 2
             <= match next_attempt_at with Some t => t | None => now end) ->
  exists j db1 j' db2 entry_id,
    serve (S fuel) oracle now (POST_job_new next_attempt_at message) (db, log)
    = (Some (HTTP_200 (job_body j)), (db1, log))
    /\ serve (S fuel') oracle' now'
             (POST_job_cancel (Job.job_id j) next_attempt_at' message') (db1, log)
       = (Some (HTTP_200 (job_body j')), (db2, log))
    /\ Job.status j' = CANCELED
    /\ serve (S fuel'') oracle'' now'' (GET_job_history (Job.job_id j) 0 limit) (db2, log)
       = (Some (HTTP_200
                  (history_body
                     [JobPriorStatus.mk entry_id PENDING now
                        (match message with Some m => m | None => EmptyString end)])),
          (db2, log)).
Proof.
  intros [Hclean Htab] Hlimit Hquiet Hquiet' Hquiet'' Hlate.
  pose proof (db_insert_job_result now next_attempt_at message db) as Hins.
  cbv zeta in Hins. rewrite (flush_clean db (proj1 Hclean)) in Hins.
  set (id := next_rowid (map DbJob.job_id (app_jobs (conn db)))) in *.
  set (row := DbJob.mk id now (match next_attempt_at with Some t => t | None => now end)
                       PENDING now message) in *.
  set (tables1 := mkDb (app_jobs (conn db) ++ [row]) (app_job_histories (conn db))) in *.
  set (db1 := mkSession tables1 tables1 [] (autoflush db)) in *.
  assert (Htab1 : tables_ok tables1).
  { apply (table_step_tables_ok (conn db)); [|exact Htab].
    exact (step_insert (conn db) now
             (match next_attempt_at with Some t => t | None => now end) message). }
  assert (Hrow1 : row_of id tables1 = Some row).
  { unfold row_of, tables1. cbn [app_jobs]. apply find_app_last.
    - intros x Hx. apply Z.eqb_neq.
      pose proof (next_rowid_above _ _ (in_map DbJob.job_id _ _ Hx)). subst id. lia.
    - apply Z.eqb_refl. }
  assert (Hclean1 : clean db1) by apply committed_session_clean.
  assert (Hquiet1 : nothing_due oracle' (conn db1)).
  { subst db1 tables1. cbn [conn]. apply nothing_due_after_insert.
    - rewrite Db_eta. exact Hquiet'.
    - intro k. apply pending_not_due; [reflexivity | apply Hlate]. }
  pose proof (cancel_job_of_pending now' id next_attempt_at' message' db1 row
                Hclean1 (tables_ok_pk_unique _ Htab1) Hrow1 eq_refl) as Hcancel.
  set (row2 := transition_row now' CANCELED next_attempt_at' message' row) in *.
  set (tables2 := transition_tables now' id CANCELED next_attempt_at' message' row
                                    (conn db1)) in *.
  set (db2 := mkSession tables2 tables2 [] (autoflush db1)) in *.
  assert (Hclean2 : clean db2) by apply committed_session_clean.
  assert (Hquiet2 : nothing_due oracle'' (conn db2)).
  { subst db2 tables2. cbn [conn]. apply nothing_due_after_cancel.
    intros y Hy Hne k. subst db1 tables1. cbn [conn app_jobs] in Hy.
    apply in_app_or in Hy. destruct Hy as [Hy | [<- | []]].
    - now apply Hquiet''.
    - exfalso. apply Hne. reflexivity. }
  exists (Job.from_orm row), db1, (Job.from_orm row2), db2,
         (next_rowid (map DbJobHistory.job_history_id (app_job_histories (conn db)))).
  split.
  { cbn [serve]. rewrite (_fake_advance_jobs_hack_nothing_due _ _ _ _ _ Hclean Hquiet).
    unfold new_job. rewrite Hins. reflexivity. }
  rewrite from_orm_job_id. cbn [DbJob.job_id row].
  split.
  { cbn [serve]. rewrite (_fake_advance_jobs_hack_nothing_due _ _ _ _ _ Hclean1 Hquiet1).
    rewrite Hcancel. reflexivity. }
  split; [now rewrite from_orm_status|].
  cbn [serve].
  replace (query_bounds 0 limit) with true
    by (symmetry; unfold query_bounds; rewrite !andb_true_iff, !Z.leb_le; lia).
  rewrite (_fake_advance_jobs_hack_nothing_due _ _ _ _ _ Hclean2 Hquiet2).
  unfold job_history.
  rewrite (db_select_job_clean id db2 row2).
  - unfold db_select_job_histories.
    rewrite (pre_execute_clean db2) by reflexivity.
    subst db2 tables2. cbn [conn transition_tables app_job_histories db1 tables1].
    pose proof (no_history_of_fresh_job (conn db) Htab) as Hfresh. fold id in Hfresh.
    rewrite filter_app, Hfresh.
    cbn [app filter history_entry_of DbJobHistory.job_id DbJob.job_id row].
    rewrite Z.eqb_refl. cbn [order_by insert_by].
    unfold offset_limit. cbn [Z.to_nat skipn].
    replace (limit <? 0) with false by (symmetry; apply Z.ltb_ge; lia).
    destruct (Z.to_nat limit) as [|n] eqn:El; [lia|].
    cbn [firstn map JobPriorStatus.from_orm DbJobHistory.job_history_id
         DbJobHistory.status DbJobHistory.status_at DbJobHistory.message
         DbJob.status DbJob.status_at DbJob.message row Job.ensure_message
         with_body fst snd].
    rewrite firstn_nil. reflexivity.
  - exact Hclean2.
  - subst db2 tables2. cbn [conn]. apply transition_tables_pk_unique.
    exact (tables_ok_pk_unique _ Htab1).
  - subst db2 tables2 row2. cbn [conn]. now apply row_of_transition_tables.
Qed.

Lemma history_of_canceled_new_job_witness :
  exists j db1 j' db2 entry_id,
    serve 1 sample_oracle 8000 (POST_job_new None (Some "I created this"%string))
          (sample_session, [])
    = (Some (HTTP_200 (job_body j)), (db1, []))
    /\ serve 1 sample_oracle 9000
             (POST_job_cancel (Job.job_id j) None (Some "I canceled this"%string)) (db1, [])
       = (Some (HTTP_200 (job_body j')), (db2, []))
    /\ Job.status j' = CANCELED
    /\ serve 1 sample_oracle 9500 (GET_job_history (Job.job_id j) 0 100) (db2, [])
       = (Some (HTTP_200
                  (history_body
                     [JobPriorStatus.mk entry_id PENDING 8000 "I created this"%string])),
          (db2, [])).
Proof.
  apply (history_of_canceled_new_job 0 0 0 sample_oracle sample_oracle sample_oracle
           8000 9000 9500 None None (Some "I created this"%string)
           (Some "I canceled this"%string) 100 sample_session []).
  - exact sample_store_ok.
  - lia.
  - exact sample_nothing_due.
  - exact sample_nothing_due.
  - exact sample_nothing_due.
  - intro k. unfold seconds. simpl. lia.
Defined.
